(** * The SFTP v3 server session engine

    A shallow embedding of [SftpServerSession] and its helper classes
    ([SftpResponse], [SftpHandleInfo], [SftpException]) together with the
    properties of the session engine: errno mapping, handle table, per-handle
    task queue, request handlers and teardown.

    The session is single-threaded and callback based.  Every suspension
    point of the source (a call into the filesystem backend) is modelled by
    recording the callback closure in the session state; the backend firing
    that callback is a separate event of the transition system. *)

From Stdlib Require Import ZArith String DecimalString List Lia Bool Sorted.
From stdpp Require Import gmap list strings.

Open Scope Z_scope.

(** ** Enumerations (sftp-enums) *)

Inductive SftpPacketType :=
  | INIT | VERSION | OPEN | CLOSE | READ | WRITE | LSTAT | FSTAT | SETSTAT
  | FSETSTAT | OPENDIR | READDIR | REMOVE | MKDIR | RMDIR | REALPATH | STAT
  | RENAME | READLINK | SYMLINK
  | STATUS | HANDLE | DATA | NAME | ATTRS
  | HARDLINK                       (* SftpExtensions.HARDLINK *)
  | UnknownType (tag : Z).         (* any other type tag *)

Inductive SftpStatusCode :=
  | OK | EOF | NO_SUCH_FILE | PERMISSION_DENIED | FAILURE | BAD_MESSAGE
  | NO_CONNECTION | CONNECTION_LOST | OP_UNSUPPORTED.

Global Instance SftpPacketType_eq_dec : EqDecision SftpPacketType.
Proof. solve_decision. Defined.

Global Instance SftpStatusCode_eq_dec : EqDecision SftpStatusCode.
Proof. solve_decision. Defined.

(** Numeric value of a status code on the wire (draft-ietf-secsh-filexfer-02). *)
Definition status_number (c : SftpStatusCode) : Z :=
  match c with
  | OK => 0 | EOF => 1 | NO_SUCH_FILE => 2 | PERMISSION_DENIED => 3
  | FAILURE => 4 | BAD_MESSAGE => 5 | NO_CONNECTION => 6
  | CONNECTION_LOST => 7 | OP_UNSUPPORTED => 8
  end.

(** ** Backend errors and [SftpException] *)

(** A [NodeJS.ErrnoException] as the engine looks at it: the optional numeric
    [errno], the message and the ["isPublic"] mark. *)
Record ErrnoException := {
  err_errno : option Z;
  err_message : string;
  err_isPublic : bool
}.

(** [x | 0]: conversion to a signed 32-bit integer. *)
Definition toInt32 (z : Z) : Z := (z + 2 ^ 31) mod 2 ^ 32 - 2 ^ 31.

(** Decimal rendering of an integer, as string concatenation does it. *)
Definition string_of_Z (z : Z) : string := NilZero.string_of_int (Z.to_int z).

Record SftpException := {
  exn_message : string;
  exn_code : SftpStatusCode;
  exn_errno : Z
}.

(** The constructor of [SftpException].  The [switch] compares [errno] with
    each [case] label; [default] is taken when no label matches.  The result
    of the [switch] is the pair of [message] and [code]. *)
Definition errno_switch (err : ErrnoException) (errno : Z) : string * SftpStatusCode :=
  if errno =? 1 then ("End of file"%string, EOF)
  else if errno =? 3 then ("Permission denied"%string, PERMISSION_DENIED)
  else if errno =? 4 then ("Try again"%string, FAILURE)
  else if errno =? 9 then ("Bad file number"%string, FAILURE)
  else if errno =? 10 then ("Device or resource busy"%string, FAILURE)
  else if errno =? 18 then ("Invalid argument"%string, FAILURE)
  else if errno =? 20 then ("Too many open files"%string, FAILURE)
  else if errno =? 24 then ("File table overflow"%string, FAILURE)
  else if errno =? 25 then ("No buffer space available"%string, FAILURE)
  else if errno =? 26 then ("Out of memory"%string, FAILURE)
  else if errno =? 27 then ("Not a directory"%string, FAILURE)
  else if errno =? 28 then ("Is a directory"%string, FAILURE)
  else if (errno =? -2) || (errno =? -4058) || (errno =? 34)
    then ("No such file or directory"%string, NO_SUCH_FILE)
  else if errno =? 35 then ("Function not implemented"%string, OP_UNSUPPORTED)
  else if errno =? 47 then ("File exists"%string, FAILURE)
  else if errno =? 49 then ("File name too long"%string, FAILURE)
  else if errno =? 50 then ("Operation not permitted"%string, FAILURE)
  else if errno =? 51 then ("Too many symbolic links encountered"%string, FAILURE)
  else if errno =? 52 then ("Cross-device link"%string, FAILURE)
  else if errno =? 53 then ("Directory not empty"%string, FAILURE)
  else if errno =? 54 then ("No space left on device"%string, FAILURE)
  else if errno =? 55 then ("I/O error"%string, FAILURE)
  else if errno =? 56 then ("Read-only file system"%string, FAILURE)
  else if errno =? 57 then ("No such device"%string, NO_SUCH_FILE)
  else if errno =? 58 then ("Illegal seek"%string, FAILURE)
  else if errno =? 59 then ("Operation canceled"%string, FAILURE)
  else
    (if err_isPublic err then err_message err
     else ("Unknown error (" ++ string_of_Z errno ++ ")")%string,
     FAILURE).

Definition new_SftpException (err : ErrnoException) : SftpException :=
  let errno := toInt32 (default 0 (err_errno err)) in
  let '(message, code) := errno_switch err errno in
  {| exn_message := message; exn_code := code; exn_errno := errno |}.

(** The status table as the specification gives it: the rows with a code of
    their own, then the listed errnos that stay [FAILURE]. *)
Definition status_table : list (Z * (SftpStatusCode * string)) :=
  [ (1, (EOF, "End of file"%string));
    (3, (PERMISSION_DENIED, "Permission denied"%string));
    (34, (NO_SUCH_FILE, "No such file or directory"%string));
    (-2, (NO_SUCH_FILE, "No such file or directory"%string));
    (-4058, (NO_SUCH_FILE, "No such file or directory"%string));
    (35, (OP_UNSUPPORTED, "Function not implemented"%string));
    (57, (NO_SUCH_FILE, "No such device"%string));
    (4, (FAILURE, "Try again"%string));                  (* EAGAIN *)
    (9, (FAILURE, "Bad file number"%string));            (* EBADF *)
    (10, (FAILURE, "Device or resource busy"%string));   (* EBUSY *)
    (18, (FAILURE, "Invalid argument"%string));          (* EINVAL *)
    (20, (FAILURE, "Too many open files"%string));       (* EMFILE *)
    (24, (FAILURE, "File table overflow"%string));       (* ENFILE *)
    (25, (FAILURE, "No buffer space available"%string)); (* ENOBUFS *)
    (26, (FAILURE, "Out of memory"%string));             (* ENOMEM *)
    (27, (FAILURE, "Not a directory"%string));           (* ENOTDIR *)
    (28, (FAILURE, "Is a directory"%string));            (* EISDIR *)
    (47, (FAILURE, "File exists"%string));               (* EEXIST *)
    (49, (FAILURE, "File name too long"%string));        (* ENAMETOOLONG *)
    (50, (FAILURE, "Operation not permitted"%string));   (* EPERM *)
    (51, (FAILURE, "Too many symbolic links encountered"%string)); (* ELOOP *)
    (52, (FAILURE, "Cross-device link"%string));         (* EXDEV *)
    (53, (FAILURE, "Directory not empty"%string));       (* ENOTEMPTY *)
    (54, (FAILURE, "No space left on device"%string));   (* ENOSPC *)
    (55, (FAILURE, "I/O error"%string));                 (* EIO *)
    (56, (FAILURE, "Read-only file system"%string));     (* EROFS *)
    (58, (FAILURE, "Illegal seek"%string));              (* ESPIPE *)
    (59, (FAILURE, "Operation canceled"%string)) ].      (* ECANCELED *)

Fixpoint table_lookup (n : Z) (t : list (Z * (SftpStatusCode * string)))
  : option (SftpStatusCode * string) :=
  match t with
  | [] => None
  | (k, v) :: t' => if decide (k = n) then Some v else table_lookup n t'
  end.

(** The status a backend error is reported with, according to the table:
    unmapped errnos are [FAILURE] with a generic message, or with the error's
    own message when it is marked public. *)
Definition spec_status (err : ErrnoException) (errno : Z) : SftpStatusCode * string :=
  match table_lookup errno status_table with
  | Some row => row
  | None =>
      (FAILURE,
       if err_isPublic err then err_message err
       else ("Unknown error (" ++ string_of_Z errno ++ ")")%string)
  end.

(** ** Wire codec (sftp-packet, sftp-misc)

    Modelled from the spec: the packet reader and writer, the attribute block
    and the status writer are not among the sources at hand.  A packet is
    kept as the sequence of fields that the primitive operations read or
    write ([readInt32]/[writeInt32], [readInt64], [readString]/[writeString],
    attribute blocks, raw byte regions), each with its encoded size, so that
    [position] and the capacity check are exact. *)

(** Modelled from the spec: the attribute block, a flags word followed by
    the fields that are present (size, uid/gid, permissions, atime/mtime).
    The same record serves as the stats object a block is filled from. *)
Record SftpAttributes := {
  attr_size : option Z;
  attr_uidgid : option (Z * Z);
  attr_permissions : option Z;
  attr_times : option (Z * Z)
}.

Abbreviation IStats := SftpAttributes.

Inductive Field :=
  | FInt32 (v : Z)
  | FInt64 (v : Z)
  | FString (s : string)
  | FAttrs (a : SftpAttributes)
  | FData (n : Z).                  (* a region of [n] raw bytes *)

Definition opt_size {A} (o : option A) (n : Z) : Z :=
  match o with Some _ => n | None => 0 end.

Definition attrs_size (a : SftpAttributes) : Z :=
  4 + opt_size (attr_size a) 8 + opt_size (attr_uidgid a) 8
    + opt_size (attr_permissions a) 4 + opt_size (attr_times a) 8.

Definition string_size (s : string) : Z := 4 + Z.of_nat (String.length s).

Definition field_size (f : Field) : Z :=
  match f with
  | FInt32 _ => 4
  | FInt64 _ => 8
  | FString s => string_size s
  | FAttrs a => attrs_size a
  | FData n => n
  end.

(** *** Reader *)

Record SftpPacketReader := {
  req_type : SftpPacketType;
  req_id : option Z;                (* null for INIT *)
  req_length : Z;
  req_position : Z;
  req_fields : list Field           (* what is left to read *)
}.

Definition advance (r : SftpPacketReader) (n : Z) (rest : list Field) : SftpPacketReader :=
  {| req_type := req_type r; req_id := req_id r; req_length := req_length r;
     req_position := req_position r + n; req_fields := rest |}.

Definition readInt32 (r : SftpPacketReader) : option (Z * SftpPacketReader) :=
  match req_fields r with
  | FInt32 v :: rest => Some (v, advance r 4 rest)
  | _ => None
  end.

Definition readInt64 (r : SftpPacketReader) : option (Z * SftpPacketReader) :=
  match req_fields r with
  | FInt64 v :: rest => Some (v, advance r 8 rest)
  | _ => None
  end.

Definition readString (r : SftpPacketReader) : option (string * SftpPacketReader) :=
  match req_fields r with
  | FString s :: rest => Some (s, advance r (string_size s) rest)
  | _ => None
  end.

(** [new SftpAttributes(request)] *)
Definition readAttributes (r : SftpPacketReader) : option (SftpAttributes * SftpPacketReader) :=
  match req_fields r with
  | FAttrs a :: rest => Some (a, advance r (attrs_size a) rest)
  | _ => None
  end.

Definition remaining (fs : list Field) : Z :=
  fold_right (fun f acc => field_size f + acc) 0 fs.

Fixpoint drop_bytes (n : Z) (fs : list Field) : list Field :=
  match fs with
  | [] => []
  | f :: rest =>
      if n <=? 0 then fs
      else if field_size f <=? n then drop_bytes (n - field_size f) rest
      else FData (field_size f - n) :: rest
  end.

(** [request.skip(n)]: fails when fewer than [n] bytes are left. *)
Definition reader_skip (n : Z) (r : SftpPacketReader) : option SftpPacketReader :=
  if n <=? remaining (req_fields r)
  then Some (advance r n (drop_bytes n (req_fields r)))
  else None.

(** *** Writer and [SftpResponse] *)

(** [class SftpResponse extends SftpPacketWriter]: a writer of capacity
    34000 with the [handleInfo] of a handle-bound request attached.  [rid]
    is the identity of the object (the n-th response created). *)
Record SftpResponse := {
  rid : nat;
  res_type : option SftpPacketType;
  res_id : option Z;
  handleInfo : option nat;          (* reference to an [SftpHandleInfo] *)
  res_position : Z;
  res_fields : list Field           (* what has been written after the header *)
}.

Definition capacity : Z := 34000.

Definition new_SftpResponse (n : nat) : SftpResponse :=
  {| rid := n; res_type := None; res_id := None; handleInfo := None;
     res_position := 0; res_fields := [] |}.

Definition set_type (t : SftpPacketType) (r : SftpResponse) : SftpResponse :=
  {| rid := rid r; res_type := Some t; res_id := res_id r;
     handleInfo := handleInfo r; res_position := res_position r;
     res_fields := res_fields r |}.

Definition set_id (i : option Z) (r : SftpResponse) : SftpResponse :=
  {| rid := rid r; res_type := res_type r; res_id := i;
     handleInfo := handleInfo r; res_position := res_position r;
     res_fields := res_fields r |}.

Definition set_handleInfo (o : nat) (r : SftpResponse) : SftpResponse :=
  {| rid := rid r; res_type := res_type r; res_id := res_id r;
     handleInfo := Some o; res_position := res_position r;
     res_fields := res_fields r |}.

Definition set_buffer (p : Z) (fs : list Field) (r : SftpResponse) : SftpResponse :=
  {| rid := rid r; res_type := res_type r; res_id := res_id r;
     handleInfo := handleInfo r; res_position := p; res_fields := fs |}.

(** The header: length prefix (4), type tag (1) and, except for [INIT] and
    [VERSION], the request id (4). *)
Definition header_size (t : option SftpPacketType) : Z :=
  match t with
  | Some INIT | Some VERSION => 5
  | _ => 9
  end.

(** [start()]: position past the header, nothing written yet. *)
Definition start (r : SftpResponse) : SftpResponse :=
  set_buffer (header_size (res_type r)) [] r.

(** [check(n)]: is there room for [n] more bytes? *)
Definition check (n : Z) (r : SftpResponse) : bool :=
  n <=? capacity - res_position r.

Definition write (f : Field) (r : SftpResponse) : option SftpResponse :=
  if check (field_size f) r
  then Some (set_buffer (res_position r + field_size f) (res_fields r ++ [f]) r)
  else None.

Definition writeInt32 (v : Z) := write (FInt32 v).
Definition writeString (s : string) := write (FString s).
Definition writeAttributes (a : SftpAttributes) := write (FAttrs a).

(** [skip(n)]: leave [n] bytes of the buffer as they are. *)
Definition skip (n : Z) (r : SftpResponse) : option SftpResponse :=
  if check n r
  then Some (set_buffer (res_position r + n) (res_fields r ++ [FData n]) r)
  else None.

(** [buffer.writeInt32BE(v, offset, true)]: overwrite the 32-bit field that
    starts at byte [offset]; [pos] is the offset of the first field of [fs].
    Position and length of the packet do not change. *)
Fixpoint patchInt32 (pos : Z) (fs : list Field) (offset v : Z) : list Field :=
  match fs with
  | [] => []
  | f :: rest =>
      if pos =? offset
      then match f with FInt32 _ => FInt32 v :: rest | _ => f :: rest end
      else f :: patchInt32 (pos + field_size f) rest offset v
  end.

Definition writeInt32BE (v offset : Z) (r : SftpResponse) : SftpResponse :=
  set_buffer (res_position r)
    (patchInt32 (header_size (res_type r)) (res_fields r) offset v) r.

(** What [finish()] hands to the channel. *)
Record SftpPacket := {
  pkt_type : option SftpPacketType;
  pkt_id : option Z;
  pkt_length : Z;
  pkt_fields : list Field
}.

Definition finish (r : SftpResponse) : SftpPacket :=
  {| pkt_type := res_type r;
     pkt_id := match res_type r with
               | Some VERSION | Some INIT => None
               | _ => res_id r
               end;
     pkt_length := res_position r;
     pkt_fields := res_fields r |}.

(** Modelled from the spec: [SftpStatus.write], a [STATUS] packet carrying
    the numeric code, the message and the (empty) language tag. *)
Definition SftpStatus_write (r : SftpResponse) (code : SftpStatusCode) (message : string)
  : option SftpResponse :=
  let r := start (set_type STATUS r) in
  r ← writeInt32 (status_number code) r;
  r ← writeString message r;
  writeString "" r.

Definition SftpStatus_writeSuccess (r : SftpResponse) : option SftpResponse :=
  SftpStatus_write r OK "OK".

(** ** Collaborators of the session *)

(** The two helpers of the sibling modules that the session calls and whose
    code is not at hand: the decoder of [pflags] into the ordered list of
    backend open modes, and the synthesis of a long name. *)
Class Collaborators := {
  SftpFlags_fromNumber : Z -> list string;
  FileUtil_toString : string -> SftpAttributes -> string
}.

Record IItem := {
  filename : string;
  longname : option string;
  stats : IStats
}.

(** A handle of the backend ([any]); [None] is [undefined]. *)
Abbreviation BackendHandle := (option Z).

(** The calls into [SafeFilesystem], with their arguments.  [FsRead] names
    the response whose buffer the backend fills, [FsWrite] reads from the
    buffer of the request. *)
Inductive FsCall :=
  | FsOpen (path : string) (mode : option string) (attrs : SftpAttributes)
  | FsClose (handle : BackendHandle)
  | FsRead (handle : BackendHandle) (buffer : nat) (offset length position : Z)
  | FsWrite (handle : BackendHandle) (offset length position : Z)
  | FsLstat (path : string)
  | FsFstat (handle : BackendHandle)
  | FsSetstat (path : string) (attrs : SftpAttributes)
  | FsFsetstat (handle : BackendHandle) (attrs : SftpAttributes)
  | FsOpendir (path : string)
  | FsReaddir (handle : BackendHandle)
  | FsUnlink (path : string)
  | FsMkdir (path : string) (attrs : SftpAttributes)
  | FsRmdir (path : string)
  | FsRealpath (path : string)
  | FsStat (path : string)
  | FsRename (oldpath newpath : string)
  | FsReadlink (path : string)
  | FsSymlink (targetpath linkpath : string)
  | FsLink (oldpath newpath : string).

(** The callbacks handed to the backend, as closures: the constructor says
    which function it is, the arguments are the captured variables. *)
Inductive Callback :=
  | KOpen (response : SftpResponse) (path : string) (attrs : SftpAttributes)
          (modes : list string) (handleInfo : nat)
  | KOpenClose (response : SftpResponse) (path : string) (attrs : SftpAttributes)
          (modes : list string) (handleInfo : nat)
  | KSuccess (response : SftpResponse)      (* err => this.sendSuccess(response, err) *)
  | KAttribs (response : SftpResponse)      (* (err, stats) => this.sendAttribs(...) *)
  | KPath (response : SftpResponse)         (* (err, path) => this.sendPath(...) *)
  | KRead (response : SftpResponse)
  | KOpendir (response : SftpResponse) (handleInfo : nat)
  | KReaddir (response : SftpResponse) (handleInfo : nat) (count offset : Z)
  | KIgnore.                                (* err => { } in end() *)

(** What the backend passes to a callback after the error argument. *)
Inductive FsValue :=
  | VNone
  | VHandle (handle : Z)
  | VStats (stats : IStats)
  | VPath (path : string)
  | VBytesRead (bytesRead : Z)
  | VItems (items : list IItem)
  | VFalse.

Record FsResult := {
  fs_err : option ErrnoException;
  fs_value : FsValue
}.

(** [class SftpHandleInfo].  A queued task is the closure created in
    [_process]; it captures [request] and [response] (and the handle info it
    is queued on). *)
Record SftpHandleInfo := {
  hi_h : Z;
  hi_handle : BackendHandle;
  hi_items : option (list IItem);   (* null until READDIR stashes items *)
  hi_locked : bool;
  hi_tasks : list (SftpPacketReader * SftpResponse)
}.

Definition new_SftpHandleInfo (h : Z) : SftpHandleInfo :=
  {| hi_h := h; hi_handle := None; hi_items := None; hi_locked := false;
     hi_tasks := [] |}.

(** What the session does to the outside, in order: packets sent on the
    channel, calls into the backend (with the callback passed along), the
    backend calling back, the channel being closed, events emitted on the
    parent emitter, an exception leaving a callback. *)
Inductive Action :=
  | ASend (packet : SftpPacket)
  | ACall (c : nat) (op : FsCall) (k : Callback)
  | ADone (c : nat) (res : FsResult)
  | AChannelClose
  | AEmit (event : string)
  | AUncaught.

(** [class SftpServerSession].  [_handles] is the sparse array of handle
    infos, [heap] holds the handle info objects themselves (a reference is
    an index into it), [pending] the callbacks the backend still owes.
    The logger and the debug flags only feed log output and are left out. *)
Record SftpServerSession := {
  _fs : bool;                       (* false once [delete this._fs] has run *)
  _handles : gmap Z nat;
  nextHandle : Z;
  heap : list SftpHandleInfo;
  pending : gmap nat Callback;
  next_call : nat;
  next_response : nat;
  trace : list Action
}.

Definition MAX_HANDLE_COUNT : Z := 512.

(** The session as the constructor leaves it. *)
Definition new_SftpServerSession : SftpServerSession :=
  {| _fs := true; _handles := ∅; nextHandle := 1; heap := [];
     pending := ∅; next_call := 0; next_response := 0; trace := [] |}.

(** *** State updates *)

Definition set_fs (b : bool) (s : SftpServerSession) : SftpServerSession :=
  {| _fs := b; _handles := _handles s; nextHandle := nextHandle s;
     heap := heap s; pending := pending s; next_call := next_call s;
     next_response := next_response s; trace := trace s |}.

Definition set_handles (m : gmap Z nat) (s : SftpServerSession) : SftpServerSession :=
  {| _fs := _fs s; _handles := m; nextHandle := nextHandle s;
     heap := heap s; pending := pending s; next_call := next_call s;
     next_response := next_response s; trace := trace s |}.

Definition set_nextHandle (n : Z) (s : SftpServerSession) : SftpServerSession :=
  {| _fs := _fs s; _handles := _handles s; nextHandle := n;
     heap := heap s; pending := pending s; next_call := next_call s;
     next_response := next_response s; trace := trace s |}.

Definition set_heap (l : list SftpHandleInfo) (s : SftpServerSession) : SftpServerSession :=
  {| _fs := _fs s; _handles := _handles s; nextHandle := nextHandle s;
     heap := l; pending := pending s; next_call := next_call s;
     next_response := next_response s; trace := trace s |}.

Definition set_pending (p : gmap nat Callback) (n : nat) (s : SftpServerSession)
  : SftpServerSession :=
  {| _fs := _fs s; _handles := _handles s; nextHandle := nextHandle s;
     heap := heap s; pending := p; next_call := n;
     next_response := next_response s; trace := trace s |}.

Definition set_next_response (n : nat) (s : SftpServerSession) : SftpServerSession :=
  {| _fs := _fs s; _handles := _handles s; nextHandle := nextHandle s;
     heap := heap s; pending := pending s; next_call := next_call s;
     next_response := n; trace := trace s |}.

Definition emit (a : Action) (s : SftpServerSession) : SftpServerSession :=
  {| _fs := _fs s; _handles := _handles s; nextHandle := nextHandle s;
     heap := heap s; pending := pending s; next_call := next_call s;
     next_response := next_response s; trace := trace s ++ [a] |}.

Definition set_h (h : Z) (i : SftpHandleInfo) : SftpHandleInfo :=
  {| hi_h := h; hi_handle := hi_handle i; hi_items := hi_items i;
     hi_locked := hi_locked i; hi_tasks := hi_tasks i |}.

Definition set_handle (b : BackendHandle) (i : SftpHandleInfo) : SftpHandleInfo :=
  {| hi_h := hi_h i; hi_handle := b; hi_items := hi_items i;
     hi_locked := hi_locked i; hi_tasks := hi_tasks i |}.

Definition set_items (l : option (list IItem)) (i : SftpHandleInfo) : SftpHandleInfo :=
  {| hi_h := hi_h i; hi_handle := hi_handle i; hi_items := l;
     hi_locked := hi_locked i; hi_tasks := hi_tasks i |}.

Definition set_locked (b : bool) (i : SftpHandleInfo) : SftpHandleInfo :=
  {| hi_h := hi_h i; hi_handle := hi_handle i; hi_items := hi_items i;
     hi_locked := b; hi_tasks := hi_tasks i |}.

Definition set_tasks (l : list (SftpPacketReader * SftpResponse)) (i : SftpHandleInfo)
  : SftpHandleInfo :=
  {| hi_h := hi_h i; hi_handle := hi_handle i; hi_items := hi_items i;
     hi_locked := hi_locked i; hi_tasks := l |}.

(** ** The monad of session code

    A method runs on the session state and returns normally with a value,
    or throws ([Exn]); state changes made before a throw persist.  [NoFuel]
    only marks the cut-off of the recursion between [send] and the queued
    tasks; it is never reached (see [step_has_fuel]). *)

Inductive Res (A : Type) :=
  | Val (a : A)
  | Exn
  | NoFuel.
Arguments Val {A} a.
Arguments Exn {A}.
Arguments NoFuel {A}.

Definition M (A : Type) : Type := SftpServerSession -> SftpServerSession * Res A.

Definition ret {A} (a : A) : M A := fun s => (s, Val a).

Definition bind {A B} (m : M A) (f : A -> M B) : M B :=
  fun s =>
    match m s with
    | (s', Val a) => f a s'
    | (s', Exn) => (s', Exn)
    | (s', NoFuel) => (s', NoFuel)
    end.

Definition throw {A} : M A := fun s => (s, Exn).

Definition out_of_fuel {A} : M A := fun s => (s, NoFuel).

(** A codec operation that fails throws. *)
Definition lift {A} (o : option A) : M A :=
  match o with Some a => ret a | None => throw end.

Definition modify (f : SftpServerSession -> SftpServerSession) : M unit :=
  fun s => (f s, Val tt).

Definition gets {A} (f : SftpServerSession -> A) : M A := fun s => (s, Val (f s)).

(** [try { m } catch (err) { handler }] *)
Definition try_catch (m handler : M unit) : M unit :=
  fun s =>
    match m s with
    | (s', Exn) => handler s'
    | r => r
    end.

Global Instance M_ret : MRet M := @ret.
Global Instance M_bind : MBind M := fun A B f m => bind m f.

(** ** The session engine *)

Section Engine.

Context `{Collaborators}.

(** Reading a field of a handle info through its reference.  References are
    never dangling; a missing object is treated like a property access on
    [undefined], which throws. *)
Definition deref (o : nat) : M SftpHandleInfo :=
  fun s => lift (heap s !! o) s.

Definition update (o : nat) (f : SftpHandleInfo -> SftpHandleInfo) : M unit :=
  i ← deref o;
  modify (fun s => set_heap (<[o := f i]> (heap s)) s).

(** A call into the backend: the callback is now owed by the backend. *)
Definition call (op : FsCall) (k : Callback) : M unit :=
  modify (fun s =>
    emit (ACall (next_call s) op k)
      (set_pending (<[next_call s := k]> (pending s)) (S (next_call s)) s)).

(** *** Handle table *)

(** The [for] loop of [createHandleInfo]; [n] is the number of iterations
    left and [h] the slot under inspection. *)
Fixpoint createHandleInfo_loop (n : nat) (h : Z) : M (option nat) :=
  match n with
  | O => mret None
  | S n' =>
      let next := Z.rem h MAX_HANDLE_COUNT + 1 in
      slot ← gets (fun s => _handles s !! h);
      match slot with
      | None =>
          o ← gets (fun s => length (heap s));
          modify (fun s => set_heap (heap s ++ [new_SftpHandleInfo h]) s);;
          modify (fun s => set_handles (<[h := o]> (_handles s)) s);;
          modify (set_nextHandle next);;
          mret (Some o)
      | Some _ => createHandleInfo_loop n' next
      end
  end.

Definition createHandleInfo : M (option nat) :=
  h ← gets nextHandle;
  createHandleInfo_loop (Z.to_nat MAX_HANDLE_COUNT) h.

Definition deleteHandleInfo (o : nat) : M unit :=
  i ← deref o;
  let h := hi_h i in
  if h <? 0 then mret tt
  else
    update o (set_h (-1));;
    slot ← gets (fun s => _handles s !! h);
    match slot with
    | None => throw                 (* "Handle not found" *)
    | Some _ => modify (fun s => set_handles (delete h (_handles s)) s)
    end.

(** [readHandleInfo]: [null] is [None]. *)
Definition readHandleInfo (request : SftpPacketReader)
  : M (option nat * SftpPacketReader) :=
  '(n, request) ← lift (readInt32 request);
  if negb (n =? 4) then mret (None, request)
  else
    '(h, request) ← lift (readInt32 request);
    slot ← gets (fun s => _handles s !! h);
    mret (slot, request).

(** *** Replies

    The methods below call [this.send], which in turn runs queued tasks and
    so calls back into [processRequest].  They are written over the [send]
    they call; the recursion is closed in [send] further down. *)

Section Handlers.

Variable send : SftpResponse -> M unit.

Definition sendStatus (response : SftpResponse) (code : SftpStatusCode) (message : string)
  : M unit :=
  response ← lift (SftpStatus_write response code message);
  send response.

Definition sendError (response : SftpResponse) (err : ErrnoException) (isFatal : bool)
  : M unit :=
  let '(code, message) :=
    if negb isFatal
    then let error := new_SftpException err in (exn_code error, exn_message error)
    else (FAILURE, "Internal server error"%string) in
  response ← lift (SftpStatus_write response code message);
  send response.

(** [err == null] is [None]. *)
Definition sendIfError (response : SftpResponse) (err : option ErrnoException) : M bool :=
  match err with
  | None => mret false
  | Some err => sendError response err false;; mret true
  end.

Definition sendSuccess (response : SftpResponse) (err : option ErrnoException) : M unit :=
  sent ← sendIfError response err;
  if sent : bool then mret tt
  else
    response ← lift (SftpStatus_writeSuccess response);
    send response.

Definition sendAttribs (response : SftpResponse) (err : option ErrnoException)
  (stats : option IStats) : M unit :=
  sent ← sendIfError response err;
  if sent : bool then mret tt
  else
    let response := start (set_type ATTRS response) in
    attr ← lift stats;
    response ← lift (writeAttributes attr response);
    send response.

Definition sendHandle (response : SftpResponse) (handleInfo : nat) : M unit :=
  let response := start (set_type HANDLE response) in
  response ← lift (writeInt32 4 response);
  i ← deref handleInfo;
  response ← lift (writeInt32 (hi_h i) response);
  send response.

Definition sendPath (response : SftpResponse) (err : option ErrnoException)
  (path : option string) : M unit :=
  sent ← sendIfError response err;
  if sent : bool then mret tt
  else
    let response := start (set_type NAME response) in
    response ← lift (writeInt32 1 response);
    path ← lift path;
    response ← lift (writeString path response);
    response ← lift (writeString "" response);
    response ← lift (writeInt32 0 response);
    send response.

(** [item.longname || FileUtil.toString(filename, attr)]: an absent or empty
    long name is synthesized. *)
Definition item_longname (item : IItem) : string :=
  match longname item with
  | Some l => if String.eqb l "" then FileUtil_toString (filename item) (stats item) else l
  | None => FileUtil_toString (filename item) (stats item)
  end.

Definition writeItem (response : SftpResponse) (item : IItem) : option SftpResponse :=
  response ← writeString (filename item) response;
  response ← writeString (item_longname item) response;
  writeAttributes (stats item) response.

(** *** Request handlers *)

(** [openFile] of the OPEN case: [modes.shift()] takes the head of the list
    ([undefined] when it is empty) and leaves the tail to the callback. *)
Definition openFile (response : SftpResponse) (path : string) (attrs : SftpAttributes)
  (modes : list string) (handleInfo : nat) : M unit :=
  call (FsOpen path (head modes) attrs)
       (KOpen response path attrs (tail modes) handleInfo).

(** The closures of the READDIR case.  [count] and [offset] are the captured
    variables of the same names. *)
Definition readdir_done (response : SftpResponse) (count offset : Z) : M unit :=
  if count =? 0 then sendStatus response EOF "EOF"
  else send (writeInt32BE count offset response).

Definition readdir (response : SftpResponse) (handleInfo : nat) (count offset : Z) : M unit :=
  i ← deref handleInfo;
  call (FsReaddir (hi_handle i)) (KReaddir response handleInfo count offset).

(** The [while (list.length > 0)] loop of [next]. *)
Fixpoint readdir_loop (response : SftpResponse) (handleInfo : nat) (count offset : Z)
  (list : list IItem) : M unit :=
  match list with
  | [] => readdir response handleInfo count offset
  | item :: list =>
      response ← lift (writeItem response item);
      let count := count + 1 in
      if res_position response >? 0x7000
      then
        update handleInfo (set_items (Some list));;
        readdir_done response count offset
      else readdir_loop response handleInfo count offset list
  end.

(** [next(items)]: [None] is the value [false]. *)
Definition readdir_next (response : SftpResponse) (handleInfo : nat) (count offset : Z)
  (items : option (list IItem)) : M unit :=
  match items with
  | None => readdir_done response count offset
  | Some list => readdir_loop response handleInfo count offset list
  end.

(** The body of the [try] block of [processRequest]. *)
Definition processRequest_body (request : SftpPacketReader) (response : SftpResponse)
  (handleInfo : option nat) : M unit :=
  if req_length request >? 66000
  then sendStatus response BAD_MESSAGE "Packet too long"
  else
    match req_type request with
    | OPEN =>
        '(path, request) ← lift (readString request);
        '(pflags, request) ← lift (readInt32 request);
        '(attrs, request) ← lift (readAttributes request);
        let modes := SftpFlags_fromNumber pflags in
        if (length modes =? 0)%nat
        then sendStatus response FAILURE "Unsupported flags"
        else
          handleInfo ← createHandleInfo;
          match handleInfo with
          | None => sendStatus response FAILURE "Too many open handles"
          | Some handleInfo => openFile response path attrs modes handleInfo
          end
    | CLOSE =>
        handleInfo ← lift handleInfo;
        deleteHandleInfo handleInfo;;
        i ← deref handleInfo;
        call (FsClose (hi_handle i)) (KSuccess response)
    | READ =>
        '(position, request) ← lift (readInt64 request);
        '(count, request) ← lift (readInt32 request);
        let count := if count >? 0x8000 then 0x8000 else count in
        let response := start (set_type DATA response) in
        let offset := res_position response + 4 in
        if negb (check (4 + count) response) then throw
        else
          handleInfo ← lift handleInfo;
          i ← deref handleInfo;
          call (FsRead (hi_handle i) (rid response) offset count position)
               (KRead response)
    | WRITE =>
        '(position, request) ← lift (readInt64 request);
        '(count, request) ← lift (readInt32 request);
        let offset := req_position request in
        request ← lift (reader_skip count request);
        handleInfo ← lift handleInfo;
        i ← deref handleInfo;
        call (FsWrite (hi_handle i) offset count position) (KSuccess response)
    | LSTAT =>
        '(path, request) ← lift (readString request);
        call (FsLstat path) (KAttribs response)
    | FSTAT =>
        handleInfo ← lift handleInfo;
        i ← deref handleInfo;
        call (FsFstat (hi_handle i)) (KAttribs response)
    | SETSTAT =>
        '(path, request) ← lift (readString request);
        '(attrs, request) ← lift (readAttributes request);
        call (FsSetstat path attrs) (KSuccess response)
    | FSETSTAT =>
        '(attrs, request) ← lift (readAttributes request);
        handleInfo ← lift handleInfo;
        i ← deref handleInfo;
        call (FsFsetstat (hi_handle i) attrs) (KSuccess response)
    | OPENDIR =>
        '(path, request) ← lift (readString request);
        handleInfo ← createHandleInfo;
        match handleInfo with
        | None => sendStatus response FAILURE "Too many open handles"
        | Some handleInfo => call (FsOpendir path) (KOpendir response handleInfo)
        end
    | READDIR =>
        let response := start (set_type NAME response) in
        let count := 0 in
        let offset := res_position response in
        response ← lift (writeInt32 0 response);
        handleInfo ← lift handleInfo;
        i ← deref handleInfo;
        match hi_items i with
        | Some (item :: rest) =>
            update handleInfo (set_items (Some []));;
            readdir_next response handleInfo count offset (Some (item :: rest))
        | _ => readdir response handleInfo count offset
        end
    | REMOVE =>
        '(path, request) ← lift (readString request);
        call (FsUnlink path) (KSuccess response)
    | MKDIR =>
        '(path, request) ← lift (readString request);
        '(attrs, request) ← lift (readAttributes request);
        call (FsMkdir path attrs) (KSuccess response)
    | RMDIR =>
        '(path, request) ← lift (readString request);
        call (FsRmdir path) (KSuccess response)
    | REALPATH =>
        '(path, request) ← lift (readString request);
        call (FsRealpath path) (KPath response)
    | STAT =>
        '(path, request) ← lift (readString request);
        call (FsStat path) (KAttribs response)
    | RENAME =>
        '(oldpath, request) ← lift (readString request);
        '(newpath, request) ← lift (readString request);
        call (FsRename oldpath newpath) (KSuccess response)
    | READLINK =>
        '(path, request) ← lift (readString request);
        call (FsReadlink path) (KPath response)
    | SYMLINK =>
        '(linkpath, request) ← lift (readString request);
        '(targetpath, request) ← lift (readString request);
        call (FsSymlink targetpath linkpath) (KSuccess response)
    | HARDLINK =>
        '(oldpath, request) ← lift (readString request);
        '(newpath, request) ← lift (readString request);
        call (FsLink oldpath newpath) (KSuccess response)
    | _ => sendStatus response OP_UNSUPPORTED "Not supported"
    end.

(** The error object a [catch] clause receives; a fatal report ignores it. *)
Definition caught : ErrnoException :=
  {| err_errno := None; err_message := ""; err_isPublic := false |}.

Definition processRequest (request : SftpPacketReader) (response : SftpResponse)
  (handleInfo : option nat) : M unit :=
  fs ← gets _fs;
  if negb fs then mret tt          (* already disposed *)
  else
    try_catch (processRequest_body request response handleInfo)
              (sendError response caught true).

(** *** Callbacks *)

Definition as_handle (v : FsValue) : option Z :=
  match v with VHandle h => Some h | _ => None end.
Definition as_stats (v : FsValue) : option IStats :=
  match v with VStats st => Some st | _ => None end.
Definition as_path (v : FsValue) : option string :=
  match v with VPath p => Some p | _ => None end.
Definition as_bytesRead (v : FsValue) : option Z :=
  match v with VBytesRead n => Some n | _ => None end.
Definition as_items (v : FsValue) : option (option (list IItem)) :=
  match v with VItems l => Some (Some l) | VFalse => Some None | _ => None end.

(** The body of the callback [k], run with the arguments the backend
    passes.  The value argument is looked at only after [sendIfError] has
    found no error. *)
Definition resume (k : Callback) (err : option ErrnoException) (v : FsValue) : M unit :=
  match k with
  | KOpen response path attrs modes handleInfo =>
      sent ← sendIfError response err;
      if sent : bool then deleteHandleInfo handleInfo
      else
        handle ← lift (as_handle v);
        if (length modes =? 0)%nat
        then
          update handleInfo (set_handle (Some handle));;
          sendHandle response handleInfo
        else
          call (FsClose (Some handle))
               (KOpenClose response path attrs modes handleInfo)
  | KOpenClose response path attrs modes handleInfo =>
      sent ← sendIfError response err;
      if sent : bool then deleteHandleInfo handleInfo
      else openFile response path attrs modes handleInfo
  | KSuccess response => sendSuccess response err
  | KAttribs response => sendAttribs response err (as_stats v)
  | KPath response => sendPath response err (as_path v)
  | KRead response =>
      sent ← sendIfError response err;
      if sent : bool then mret tt
      else
        bytesRead ← lift (as_bytesRead v);
        if bytesRead =? 0 then sendStatus response EOF "EOF"
        else
          response ← lift (writeInt32 bytesRead response);
          response ← lift (skip bytesRead response);
          send response
  | KOpendir response handleInfo =>
      sent ← sendIfError response err;
      if sent : bool then deleteHandleInfo handleInfo
      else
        handle ← lift (as_handle v);
        update handleInfo (set_handle (Some handle));;
        sendHandle response handleInfo
  | KReaddir response handleInfo count offset =>
      sent ← sendIfError response err;
      if sent : bool then mret tt
      else
        items ← lift (as_items v);
        readdir_next response handleInfo count offset items
  | KIgnore => mret tt
  end.

(** *** The task queue *)

(** The closure pushed by [_process], queued on the handle info [o]. *)
Definition run_task (o : nat) (task : SftpPacketReader * SftpResponse) : M unit :=
  let '(request, response) := task in
  i ← deref o;
  if hi_h i <? 0 then sendStatus response FAILURE "Invalid handle"
  else processRequest request response (Some o).

Definition processNext (handleInfo : nat) : M unit :=
  i ← deref handleInfo;
  match hi_tasks i with
  | task :: rest =>
      update handleInfo (set_tasks rest);;     (* tasks.shift() *)
      run_task handleInfo task
  | [] => update handleInfo (set_locked false)
  end.

(** *** Dispatch *)

Definition handle_bound (t : SftpPacketType) : bool :=
  match t with
  | CLOSE | READ | WRITE | FSTAT | FSETSTAT | READDIR => true
  | _ => false
  end.

Definition _process (request : SftpPacketReader) : M unit :=
  n ← gets next_response;
  modify (set_next_response (S n));;
  let response := new_SftpResponse n in
  if decide (req_type request = INIT)
  then
    '(version, request) ← lift (readInt32 request);
    let response := start (set_type VERSION response) in
    response ← lift (writeInt32 3 response);
    send response
  else
    let response := set_id (req_id request) response in
    if handle_bound (req_type request)
    then
      '(handleInfo, request) ← readHandleInfo request;
      match handleInfo with
      | None => sendStatus response FAILURE "Invalid handle"
      | Some handleInfo =>
          let response := set_handleInfo handleInfo response in
          i ← deref handleInfo;
          if negb (hi_locked i)
          then
            update handleInfo (set_locked true);;
            processRequest request response (Some handleInfo)
          else
            update handleInfo (fun i => set_tasks (hi_tasks i ++ [(request, response)]) i)
      end
    else processRequest request response None.

End Handlers.

(** [send]: the packet goes out on the channel, then the next task of the
    handle the response is bound to is started.  [fuel] bounds the depth of
    the recursion through [processNext]; every level takes one task off a
    queue. *)
Fixpoint send (fuel : nat) (response : SftpResponse) : M unit :=
  modify (emit (ASend (finish response)));;
  match handleInfo response with
  | Some handleInfo =>
      match fuel with
      | O => out_of_fuel
      | S fuel => processNext (send fuel) handleInfo
      end
  | None => mret tt
  end.

(** [end()]: [forEach] visits the slots of the array that are filled, in
    index order. *)
Definition close_all : M unit :=
  fun s =>
    foldl (fun (r : SftpServerSession * Res unit) (h : Z) =>
             match r with
             | (s, Val _) =>
                 match _handles s !! h with
                 | Some o => (i ← deref o; call (FsClose (hi_handle i)) KIgnore) s
                 | None => (s, Val tt)
                 end
             | r => r
             end)
          (s, Val tt) (seqZ 0 (MAX_HANDLE_COUNT + 1)).

Definition end_ : M unit :=
  modify (emit AChannelClose);;
  fs ← gets _fs;
  if negb fs then mret tt
  else
    close_all;;
    modify (set_fs false).

(** ** The session as a transition system *)

Inductive Event :=
  | EvMessage (data : SftpPacketReader)         (* channel.on("message") *)
  | EvCallback (c : nat) (res : FsResult)       (* the backend calls back *)
  | EvClose                                     (* channel.on("close") *)
  | EvEnd.                                      (* end() called from outside *)

(** The arguments fit the callback: when there is no error, the value is of
    the kind the callback is declared with. *)
Definition well_typed (k : Callback) (res : FsResult) : bool :=
  match fs_err res with
  | Some _ => true
  | None =>
      match k, fs_value res with
      | (KOpen _ _ _ _ _ | KOpendir _ _), VHandle _ => true
      | KAttribs _, VStats _ => true
      | KPath _, VPath _ => true
      | KRead _, VBytesRead _ => true
      | KReaddir _ _ _ _, (VItems _ | VFalse) => true
      | (KOpenClose _ _ _ _ _ | KSuccess _ | KIgnore), _ => true
      | _, _ => false
      end
  end.

Definition total_tasks (s : SftpServerSession) : nat :=
  foldr (fun i n => (length (hi_tasks i) + n)%nat) 0%nat (heap s).

Definition on_message (fuel : nat) (data : SftpPacketReader) : M unit :=
  try_catch (_process (send fuel) data)
            (modify (emit (AEmit "error"));; end_).

(** The backend fires callback [c].  A callback is fired once; an exception
    it throws is not caught by the session. *)
Definition on_callback (fuel : nat) (c : nat) (res : FsResult) : M unit :=
  p ← gets pending;
  match p !! c with
  | Some k =>
      if well_typed k res
      then
        modify (fun s => set_pending (delete c (pending s)) (next_call s) s);;
        modify (emit (ADone c res));;
        try_catch (resume (send fuel) k (fs_err res) (fs_value res))
                  (modify (emit AUncaught))
      else mret tt
  | None => mret tt
  end.

Definition on_close : M unit :=
  end_;;
  modify (emit (AEmit "closedSession")).

Definition step_res (s : SftpServerSession) (ev : Event) : SftpServerSession * Res unit :=
  let fuel := S (total_tasks s) in
  match ev with
  | EvMessage data => on_message fuel data s
  | EvCallback c res => on_callback fuel c res s
  | EvClose => on_close s
  | EvEnd => end_ s
  end.

Definition step (s : SftpServerSession) (ev : Event) : SftpServerSession :=
  fst (step_res s ev).

Definition run (evs : list Event) (s : SftpServerSession) : SftpServerSession :=
  foldl step s evs.

End Engine.

(** ** Vocabulary of the properties *)

Section Vocabulary.

Context `{Collaborators}.

(** The packet [SftpStatus.write] produces. *)
Definition status_response (r : SftpResponse) (code : SftpStatusCode) (message : string)
  : SftpResponse :=
  set_buffer (9 + 4 + string_size message + 4)
    [FInt32 (status_number code); FString message; FString ""]
    (set_type STATUS r).

(** The handle table and the handle infos agree: a filled slot holds an
    info that carries the slot's index, an info is a tombstone or sits in
    the slot it names, and the cursor stays within 1..MAX_HANDLE_COUNT. *)
Record WF (s : SftpServerSession) : Prop := {
  wf_slot : forall h o, _handles s !! h = Some o ->
    1 <= h <= MAX_HANDLE_COUNT /\ exists hi, heap s !! o = Some hi /\ hi_h hi = h;
  wf_info : forall o hi, heap s !! o = Some hi ->
    hi_h hi = -1 \/ _handles s !! hi_h hi = Some o;
  wf_next : 1 <= nextHandle s <= MAX_HANDLE_COUNT
}.

(** What the task queues see of the handle infos: lock and queue. *)
Definition lockview (s : SftpServerSession)
  : list (bool * list (SftpPacketReader * SftpResponse)) :=
  (fun i => (hi_locked i, hi_tasks i)) <$> heap s.

(** [quiet s s']: from [s] to [s'] nothing was sent, called or queued; the
    handle infos kept their locks and queues (new, idle ones may have been
    added), and a well-formed table stays well-formed. *)
Record quiet (s s' : SftpServerSession) : Prop := {
  q_pending : pending s' = pending s;
  q_next_call : next_call s' = next_call s;
  q_next_response : next_response s' = next_response s;
  q_trace : trace s' = trace s;
  q_fs : _fs s' = _fs s;
  q_view : exists n, lockview s' = lockview s ++ replicate n (false, []);
  q_wf : WF s -> WF s'
}.

(** The slot [createHandleInfo] fills: new info, slot, cursor. *)
Definition allocate (h : Z) (s : SftpServerSession) : SftpServerSession :=
  set_nextHandle (Z.rem h MAX_HANDLE_COUNT + 1)
    (set_handles (<[h := length (heap s)]> (_handles s))
       (set_heap (heap s ++ [new_SftpHandleInfo h]) s)).

(** The state [deleteHandleInfo] leaves for a live info. *)
Definition release (o : nat) (hi : SftpHandleInfo) (s : SftpServerSession)
  : SftpServerSession :=
  set_handles (delete (hi_h hi) (_handles s))
    (set_heap (<[o := set_h (-1) hi]> (heap s)) s).

(** The response a callback closure has captured. *)
Definition kresponse (k : Callback) : option SftpResponse :=
  match k with
  | KOpen r _ _ _ _ | KOpenClose r _ _ _ _ | KSuccess r | KAttribs r | KPath r
  | KRead r | KOpendir r _ | KReaddir r _ _ _ => Some r
  | KIgnore => None
  end.

(** The callback [k] belongs to response number [n], bound to [ow]. *)
Definition belongs (k : Callback) (ow : option nat) (n : nat) : Prop :=
  exists r, kresponse k = Some r /\ handleInfo r = ow /\ rid r = n.

(** [Shape send ow n s out]: the ways a handler working on response [n]
    (bound to [ow]) ends from state [s]: quietly, on a backend call made
    for the same response, or on a [send] of that response (whose failure
    hands over to the [catch] block, a handler of the same shape). *)
Inductive Shape (send : SftpResponse -> M unit) (ow : option nat) (n : nat)
  : SftpServerSession -> SftpServerSession * Res unit -> Prop :=
  | ShQuiet s s' res :
      quiet s s' -> res <> NoFuel -> Shape send ow n s (s', res)
  | ShCall s s1 op k :
      quiet s s1 -> belongs k ow n -> Shape send ow n s (call op k s1)
  | ShSendVal s s1 r s2 :
      quiet s s1 -> handleInfo r = ow -> rid r = n ->
      send r s1 = (s2, Val tt) -> Shape send ow n s (s2, Val tt)
  | ShSendNoFuel s s1 r s2 :
      quiet s s1 -> handleInfo r = ow -> rid r = n ->
      send r s1 = (s2, NoFuel) -> Shape send ow n s (s2, NoFuel)
  | ShSendExn s s1 r s2 out :
      quiet s s1 -> handleInfo r = ow -> rid r = n ->
      send r s1 = (s2, Exn) -> Shape send ow n s2 out -> Shape send ow n s out.

(** A callback may still touch the handle table after its [send]. *)
Definition ShapeQ (send : SftpResponse -> M unit) (ow : option nat) (n : nat)
  (s : SftpServerSession) (out : SftpServerSession * Res unit) : Prop :=
  Shape send ow n s out \/
  exists s1 r s2,
    quiet s s1 /\ handleInfo r = ow /\ rid r = n /\ send r s1 = (s2, Val tt) /\
    quiet s2 out.1 /\ out.2 <> NoFuel.

(** Backend calls made for responses bound to one handle info appear in the
    trace in the order of the responses, and each has been called back
    before the next is made. *)
Definition TraceOK (tr : list Action) : Prop :=
  forall i j c1 c2 op1 op2 k1 k2 o n1 n2,
    (i < j)%nat ->
    tr !! i = Some (ACall c1 op1 k1) -> tr !! j = Some (ACall c2 op2 k2) ->
    belongs k1 (Some o) n1 -> belongs k2 (Some o) n2 ->
    (n1 <= n2)%nat /\
    exists m res, (i < m < j)%nat /\ tr !! m = Some (ADone c1 res).

(** Response number [n] is the one being worked on for handle info [o]:
    no call for a later response has been made, and all queued tasks are
    for later responses. *)
Definition Cur (s : SftpServerSession) (o n : nat) : Prop :=
  (forall i c op k n',
      trace s !! i = Some (ACall c op k) -> belongs k (Some o) n' -> (n' <= n)%nat) /\
  (forall hi t, heap s !! o = Some hi -> t ∈ hi_tasks hi -> (n < rid t.2)%nat).

(** The invariant of reachable states: pending callbacks are known and at
    most one per handle info, whose lock is then held; an idle handle info
    has an empty queue; queues hold later responses of their own handle, in
    order of arrival; every logged call is pending or done; the trace is
    serialized; the handle table is well-formed. *)
Record Inv (s : SftpServerSession) : Prop := {
  inv_fresh : forall c k, pending s !! c = Some k -> (c < next_call s)%nat;
  inv_uniq : forall c1 c2 k1 k2 o n1 n2,
    pending s !! c1 = Some k1 -> pending s !! c2 = Some k2 ->
    belongs k1 (Some o) n1 -> belongs k2 (Some o) n2 -> c1 = c2;
  inv_locked : forall c k o n,
    pending s !! c = Some k -> belongs k (Some o) n ->
    exists hi, heap s !! o = Some hi /\ hi_locked hi = true;
  inv_idle : forall o hi,
    heap s !! o = Some hi -> hi_locked hi = false -> hi_tasks hi = [];
  inv_tasks : forall o hi,
    heap s !! o = Some hi ->
    Forall (fun t => handleInfo t.2 = Some o /\ (rid t.2 < next_response s)%nat)
           (hi_tasks hi) /\
    StronglySorted (fun t1 t2 => (rid t1.2 < rid t2.2)%nat) (hi_tasks hi);
  inv_log : forall i c op k,
    trace s !! i = Some (ACall c op k) ->
    (c < next_call s)%nat /\
    (forall ow n, belongs k ow n -> (n < next_response s)%nat) /\
    (pending s !! c = Some k \/
     exists m res, (i < m)%nat /\ trace s !! m = Some (ADone c res));
  inv_pending_rid : forall c k ow n,
    pending s !! c = Some k -> belongs k ow n -> (n < next_response s)%nat;
  inv_cur : forall c k o n,
    pending s !! c = Some k -> belongs k (Some o) n -> Cur s o n;
  inv_trace : TraceOK (trace s);
  inv_wf : WF s
}.

(** Handle info [o] is locked for response [n] and nothing is in flight. *)
Definition Busy (s : SftpServerSession) (o n : nat) : Prop :=
  (exists hi, heap s !! o = Some hi /\ hi_locked hi = true) /\
  (forall c k n', pending s !! c = Some k -> ~ belongs k (Some o) n') /\
  Cur s o n.

(** The state in which the handler of response [n], bound to [ow], runs. *)
Definition Proc (s : SftpServerSession) (ow : option nat) (n : nat) : Prop :=
  Inv s /\ (n < next_response s)%nat /\ forall o, ow = Some o -> Busy s o n.

(** Is the action a call into the backend? *)
Definition is_call (a : Action) : bool :=
  match a with ACall _ _ _ => true | _ => false end.

(** The state in which a callback starts to run. *)
Definition called_back (c : nat) (res : FsResult) (s : SftpServerSession)
  : SftpServerSession :=
  emit (ADone c res) (set_pending (delete c (pending s)) (next_call s) s).

(** What is needed of [send]: called for the response being worked on, it
    does not throw and re-establishes the invariant. *)
Definition send_good (send : SftpResponse -> M unit) : Prop :=
  forall r s, Proc s (handleInfo r) (rid r) ->
    exists s' res, send r s = (s', res) /\ res <> Exn /\ (res <> NoFuel -> Inv s').

(** One turn of the [forEach] of [end()]: slot [h] of the table. *)
Definition close_slot (r : SftpServerSession * Res unit) (h : Z)
  : SftpServerSession * Res unit :=
  match r with
  | (s, Val _) =>
      match _handles s !! h with
      | Some o => (i ← deref o; call (FsClose (hi_handle i)) KIgnore) s
      | None => (s, Val tt)
      end
  | r => r
  end.

(** The outcome is a proper one: the recursion bound was not hit. *)
Definition has_fuel (r : SftpServerSession * Res unit) : Prop := r.2 <> NoFuel.

(** The number of queued tasks, read off the lock view. *)
Definition tasks_in (v : list (bool * list (SftpPacketReader * SftpResponse))) : nat :=
  foldr (fun p n => (length p.2 + n)%nat) 0%nat v.

(** The number of queued tasks of a list of handle infos. *)
Definition tasks_of (l : list SftpHandleInfo) : nat :=
  foldr (fun i n => (length (hi_tasks i) + n)%nat) 0%nat l.

(** With at most [n] tasks queued, [send] returns or throws, and queues
    nothing. *)
Definition send_fuelled (n : nat) (send : SftpResponse -> M unit) : Prop :=
  forall r s, (total_tasks s <= n)%nat ->
    (send r s).2 <> NoFuel /\ (total_tasks (send r s).1 <= total_tasks s)%nat.

(** [(h % max) + 1], the slot after [h]. *)
Definition next_slot (h : Z) : Z := Z.rem h MAX_HANDLE_COUNT + 1.

(** The scan of [createHandleInfo] as a function of the table alone: the
    first free slot among the [n] slots met from [h] on. *)
Fixpoint scan (n : nat) (h : Z) (m : gmap Z nat) : option Z :=
  match n with
  | O => None
  | S n' => match m !! h with None => Some h | Some _ => scan n' (next_slot h) m end
  end.

(** The backend handles of the filled slots among [l], in the order of [l]. *)
Definition slots_of (s : SftpServerSession) (l : list Z) : list BackendHandle :=
  omap (fun h => o ← _handles s !! h; hi_handle <$> heap s !! o) l.

(** The backend handles [end()] submits to [close]. *)
Definition open_slots (s : SftpServerSession) : list BackendHandle :=
  slots_of s (seqZ 0 (MAX_HANDLE_COUNT + 1)).

(** The [close] calls of [end()], numbered from [c] on. *)
Fixpoint close_calls (c : nat) (l : list BackendHandle) : list Action :=
  match l with
  | [] => []
  | b :: l => ACall c (FsClose b) KIgnore :: close_calls (S c) l
  end.

(** The status packet with request id [id], as it goes on the channel. *)
Definition status_packet (id : option Z) (code : SftpStatusCode) (message : string)
  : SftpPacket :=
  {| pkt_type := Some STATUS; pkt_id := id;
     pkt_length := 9 + 4 + string_size message + 4;
     pkt_fields := [FInt32 (status_number code); FString message; FString ""] |}.

(** The fields a directory item is written as. *)
Definition item_fields (item : IItem) : list Field :=
  [FString (filename item); FString (item_longname item); FAttrs (stats item)].

(** The encoded size of a directory item. *)
Definition item_size (item : IItem) : Z :=
  string_size (filename item) + string_size (item_longname item) + attrs_size (stats item).

(** [fits r l r']: the items of [l] are written to [r] one after the other,
    none of them takes the response past the soft budget, and [r'] is the
    response after the last one. *)
Fixpoint fits (r : SftpResponse) (l : list IItem) (r' : SftpResponse) : Prop :=
  match l with
  | [] => r' = r
  | item :: l =>
      exists r1, writeItem r item = Some r1 /\ res_position r1 <= 0x7000 /\ fits r1 l r'
  end.

(** The HANDLE packet for request [id] carrying index [h]. *)
Definition handle_packet (id : option Z) (h : Z) : SftpPacket :=
  {| pkt_type := Some HANDLE; pkt_id := id; pkt_length := 9 + 4 + 4;
     pkt_fields := [FInt32 4; FInt32 h] |}.

(** The request types with a [case] of their own in [processRequest]. *)
Definition has_case (t : SftpPacketType) : bool :=
  match t with
  | OPEN | CLOSE | READ | WRITE | LSTAT | FSTAT | SETSTAT | FSETSTAT | OPENDIR
  | READDIR | REMOVE | MKDIR | RMDIR | REALPATH | STAT | RENAME | READLINK
  | SYMLINK | HARDLINK => true
  | _ => false
  end.

(** The session after the actions [acts], in this order, have been added
    to its trace. *)
Definition emits (acts : list Action) (s : SftpServerSession) : SftpServerSession :=
  {| _fs := _fs s; _handles := _handles s; nextHandle := nextHandle s;
     heap := heap s; pending := pending s; next_call := next_call s;
     next_response := next_response s; trace := trace s ++ acts |}.

(** The rejection a queued task sends when its handle has been closed in
    the meantime. *)
Definition rejection (task : SftpPacketReader * SftpResponse) : Action :=
  ASend (status_packet (res_id task.2) FAILURE "Invalid handle").

(** The packets on which [_process] itself fails to read what it needs
    before it hands over to [processRequest]: an INIT without a version,
    a handle-bound request without the length of the handle, or with a
    handle of length 4 that is not there. *)
Definition truncated (data : SftpPacketReader) : bool :=
  if decide (req_type data = INIT)
  then match readInt32 data with None => true | Some _ => false end
  else if handle_bound (req_type data)
  then match readInt32 data with
       | None => true
       | Some (n, request) =>
           (n =? 4) && match readInt32 request with None => true | Some _ => false end
       end
  else false.

(** The request types that name their object by path and need no handle
    table: one or two strings, some with an attribute block. *)
Definition path_request (t : SftpPacketType) : bool :=
  match t with
  | LSTAT | SETSTAT | REMOVE | MKDIR | RMDIR | REALPATH | STAT | RENAME
  | READLINK | SYMLINK | HARDLINK => true
  | _ => false
  end.

(** The NAME packet of [sendPath]: one entry, the path, an empty long name
    and an attribute block without any attribute. *)
Definition path_packet (id : option Z) (path : string) : SftpPacket :=
  {| pkt_type := Some NAME; pkt_id := id;
     pkt_length := 9 + 4 + string_size path + 4 + 4;
     pkt_fields := [FInt32 1; FString path; FString ""; FInt32 0] |}.

(** The ATTRS packet of [sendAttribs]. *)
Definition attrs_packet (id : option Z) (stats : IStats) : SftpPacket :=
  {| pkt_type := Some ATTRS; pkt_id := id; pkt_length := 9 + attrs_size stats;
     pkt_fields := [FAttrs stats] |}.

(** [extends s s']: the trace of [s'] continues the trace of [s]. *)
Definition extends (s s' : SftpServerSession) : Prop :=
  exists acts, trace s' = trace s ++ acts.

(** [acted s s']: the trace of [s'] continues the trace of [s] by at least
    one action. *)
Definition acted (s s' : SftpServerSession) : Prop :=
  exists a acts, trace s' = trace s ++ a :: acts.

(** How the [try] block of a handler ends: by throwing before it has sent
    or called anything, on a call into the backend, or on a [send]; in the
    last two cases nothing has been sent or called before. *)
Definition Acts (send : SftpResponse -> M unit) (s : SftpServerSession)
  (out : SftpServerSession * Res unit) : Prop :=
  (exists s1, quiet s s1 /\ out = (s1, Exn)) \/
  (exists s1 op k, quiet s s1 /\ out = call op k s1) \/
  (exists s1 r, quiet s s1 /\ out = send r s1).

(** What is needed of [send] here: the packet of the response is the first
    thing it adds to the trace, and it takes nothing away. *)
Definition send_emits (send : SftpResponse -> M unit) : Prop :=
  forall r s, exists acts, trace (send r s).1 = trace s ++ ASend (finish r) :: acts.

(** The DATA packet of a READ that yielded [bytesRead] bytes: the count in
    the field kept for it, then the bytes the backend has placed. *)
Definition data_packet (id : option Z) (bytesRead : Z) : SftpPacket :=
  {| pkt_type := Some DATA; pkt_id := id; pkt_length := 9 + 4 + bytesRead;
     pkt_fields := [FInt32 bytesRead; FData bytesRead] |}.





End Vocabulary.

(** ** A sample session

    The values below serve the worked examples at the end: a decoder of
    [pflags] in the style the specification describes (READ opens for
    reading; WRITE with CREAT and TRUNC tries an exclusive create and then
    truncates), a long name that repeats the file name, and a few packets. *)

Definition sample : Collaborators :=
  {| SftpFlags_fromNumber := fun pflags =>
       if pflags =? 1 then ["r"%string]
       else if pflags =? 26 then ["wx"%string; "w"%string]
       else [];
     FileUtil_toString := fun filename _ => filename |}.

Definition no_attrs : SftpAttributes :=
  {| attr_size := None; attr_uidgid := None; attr_permissions := None;
     attr_times := None |}.

(** A request packet of type [t] with id [id] and the given payload. *)
Definition packet (t : SftpPacketType) (id : Z) (fields : list Field) : SftpPacketReader :=
  {| req_type := t; req_id := Some id; req_length := 9 + remaining fields;
     req_position := 9; req_fields := fields |}.

(** The same packet announcing the length [n]. *)
Definition packet_of_length (n : Z) (t : SftpPacketType) (id : Z) (fields : list Field)
  : SftpPacketReader :=
  {| req_type := t; req_id := Some id; req_length := n;
     req_position := 9; req_fields := fields |}.

Definition init_packet (n : Z) : SftpPacketReader :=
  {| req_type := INIT; req_id := None; req_length := n;
     req_position := 5; req_fields := [FInt32 3] |}.

Definition succeeded (v : FsValue) : FsResult := {| fs_err := None; fs_value := v |}.

Definition errno_error (errno : Z) : ErrnoException :=
  {| err_errno := Some errno; err_message := "failed"; err_isPublic := false |}.

Definition failed (errno : Z) : FsResult :=
  {| fs_err := Some (errno_error errno); fs_value := VNone |}.

Fixpoint repeat_char (n : nat) (c : Ascii.ascii) : string :=
  match n with
  | O => EmptyString
  | S n => String c (repeat_char n c)
  end.


Definition open_a : SftpPacketReader :=
  packet OPEN 1 [FString "/a"; FInt32 1; FAttrs no_attrs].


(** OPEN, then a CLOSE that names slot 1 before the backend has answered the
    open, then the backend's answer. *)
Definition close_before_open_completes : list Event :=
  [EvMessage open_a;
   EvMessage (packet CLOSE 2 [FInt32 4; FInt32 1]);
   EvCallback 0 (succeeded (VHandle 77))].

(** A session with one open file: slot 1 holds backend handle 77. *)
Definition one_open : list Event :=
  [EvMessage open_a; EvCallback 0 (succeeded (VHandle 77))].

Definition open_info : SftpHandleInfo := set_handle (Some 77) (new_SftpHandleInfo 1).

(** The rest of a READ request once [readHandleInfo] has taken the handle. *)
Definition read_rest (count : Z) : SftpPacketReader :=
  {| req_type := READ; req_id := Some 2; req_length := 29; req_position := 17;
     req_fields := [FInt64 0; FInt32 count] |}.






Definition version_packet : SftpPacket :=
  {| pkt_type := Some VERSION; pkt_id := None; pkt_length := 9; pkt_fields := [FInt32 3] |}.


(** A READ on the open file that the backend has not answered yet: the
    handle info is locked. *)
Definition reading : list Event :=
  one_open ++ [EvMessage (packet READ 2 [FInt32 4; FInt32 1; FInt64 0; FInt32 4])].

Definition reading_info : SftpHandleInfo := set_locked true open_info.

(** A CLOSE and a READ queued behind a READ; the first READ is answered, the
    CLOSE runs and waits for the backend, the second READ is still queued. *)
Definition closing : list Event :=
  reading ++
  [EvMessage (packet CLOSE 3 [FInt32 4; FInt32 1]);
   EvMessage (packet READ 4 [FInt32 4; FInt32 1; FInt64 4; FInt32 4]);
   EvCallback 1 (succeeded (VBytesRead 4))].

(** The handle info of the file in that state: a tombstone, locked, with
    the second READ in its queue. *)
Definition closing_info : SftpHandleInfo :=
  {| hi_h := -1; hi_handle := Some 77; hi_items := None; hi_locked := true;
     hi_tasks :=
       [({| req_type := READ; req_id := Some 4; req_length := 29; req_position := 17;
            req_fields := [FInt64 4; FInt32 4] |},
         set_handleInfo 0 (set_id (Some 4) (new_SftpResponse 3)))] |}.

(** The response of the CLOSE in that state. *)
Definition closing_response : SftpResponse :=
  set_handleInfo 0 (set_id (Some 3) (new_SftpResponse 2)).

(** An OPENDIR that the backend has not answered yet. *)
Definition opening_dir : list Event := [EvMessage (packet OPENDIR 1 [FString "/d"])].

Definition opendir_response : SftpResponse := set_id (Some 1) (new_SftpResponse 0).

(** OPEN for writing: the decoder gives two modes, an exclusive create and
    then a plain write. *)
Definition open_wx : SftpPacketReader :=
  packet OPEN 1 [FString "/a"; FInt32 26; FAttrs no_attrs].

(** A public error of the backend whose message is as long as the whole
    response buffer. *)
Definition loud_error : ErrnoException :=
  {| err_errno := Some 99;
     err_message := repeat_char (Z.to_nat 34000) (Ascii.ascii_of_nat 97);
     err_isPublic := true |}.

(** OPEN, answered by the backend with that error. *)
Definition open_fails_loudly : list Event :=
  [EvMessage open_a; EvCallback 0 {| fs_err := Some loud_error; fs_value := VNone |}].


(** A READ in flight on the open file and a second READ waiting behind it. *)
Definition waiting : list Event :=
  reading ++ [EvMessage (packet READ 3 [FInt32 4; FInt32 1; FInt64 4; FInt32 4])].

(** * Properties *)

Section Properties.

Context `{Collaborators}.

(** ** Reasoning about session code *)

Lemma bind_gets {A B} (f : SftpServerSession -> A) (k : A -> M B) s :
  (gets f ≫= k) s = k (f s) s.
Proof. reflexivity. Qed.

Lemma bind_modify {B} f (k : unit -> M B) s :
  (modify f ≫= k) s = k tt (f s).
Proof. reflexivity. Qed.

Lemma bind_ret {A B} (a : A) (k : A -> M B) s : (mret a ≫= k) s = k a s.
Proof. reflexivity. Qed.

Lemma bind_lift_Some {A B} (a : A) (k : A -> M B) s :
  (lift (Some a) ≫= k) s = k a s.
Proof. reflexivity. Qed.

Lemma bind_lift_None {A B} (k : A -> M B) s :
  (lift None ≫= k) s = (s, Exn).
Proof. reflexivity. Qed.

Lemma bind_throw {A B} (k : A -> M B) s : (throw ≫= k) s = (s, Exn).
Proof. reflexivity. Qed.

Lemma bind_assoc {A B C} (m : M A) (f : A -> M B) (g : B -> M C) s :
  ((m ≫= f) ≫= g) s = (m ≫= fun a => f a ≫= g) s.
Proof. unfold mbind, M_bind, bind. destruct (m s) as [s' []]; reflexivity. Qed.

Lemma bind_val {A B} (m : M A) (k : A -> M B) s s' a :
  m s = (s', Val a) -> (m ≫= k) s = k a s'.
Proof. unfold mbind, M_bind, bind. by intros ->. Qed.

Lemma bind_exn {A B} (m : M A) (k : A -> M B) s s' :
  m s = (s', Exn) -> (m ≫= k) s = (s', Exn).
Proof. unfold mbind, M_bind, bind. by intros ->. Qed.

Lemma bind_nofuel {A B} (m : M A) (k : A -> M B) s s' :
  m s = (s', NoFuel) -> (m ≫= k) s = (s', NoFuel).
Proof. unfold mbind, M_bind, bind. by intros ->. Qed.

Lemma deref_Some o i s : heap s !! o = Some i -> deref o s = (s, Val i).
Proof. unfold deref. by intros ->. Qed.

Lemma deref_None o s : heap s !! o = None -> deref o s = (s, Exn).
Proof. unfold deref. by intros ->. Qed.

Lemma update_Some o f i s :
  heap s !! o = Some i ->
  update o f s = (set_heap (<[o := f i]> (heap s)) s, Val tt).
Proof. intros Hi. unfold update. by rewrite (bind_val _ _ _ _ _ (deref_Some _ _ _ Hi)). Qed.

Lemma update_None o f s : heap s !! o = None -> update o f s = (s, Exn).
Proof. intros Hi. unfold update. by rewrite (bind_exn _ _ _ _ (deref_None _ _ Hi)). Qed.

Ltac msimpl :=
  repeat (rewrite ?bind_assoc, ?bind_gets, ?bind_modify, ?bind_ret, ?bind_lift_Some,
            ?bind_lift_None, ?bind_throw; cbn beta iota).

(** *** The writer *)

Lemma write_ok f r :
  field_size f <= capacity - res_position r ->
  write f r = Some (set_buffer (res_position r + field_size f) (res_fields r ++ [f]) r).
Proof.
  intros. unfold write, check.
  destruct (Z.leb_spec (field_size f) (capacity - res_position r)); [done | lia].
Qed.

Lemma write_Some f r r' :
  write f r = Some r' ->
  field_size f <= capacity - res_position r /\
  r' = set_buffer (res_position r + field_size f) (res_fields r ++ [f]) r.
Proof.
  unfold write, check.
  destruct (Z.leb_spec (field_size f) (capacity - res_position r)); [|done].
  intros [= <-]. done.
Qed.

Lemma write_meta f r r' :
  write f r = Some r' ->
  rid r' = rid r /\ handleInfo r' = handleInfo r /\ res_id r' = res_id r /\
  res_type r' = res_type r.
Proof. intros [_ ->]%write_Some. done. Qed.

Lemma skip_Some n r r' :
  skip n r = Some r' ->
  n <= capacity - res_position r /\
  r' = set_buffer (res_position r + n) (res_fields r ++ [FData n]) r.
Proof.
  unfold skip, check.
  destruct (Z.leb_spec n (capacity - res_position r)); [|done].
  intros [= <-]. done.
Qed.

Lemma SftpStatus_write_Some r code msg r' :
  SftpStatus_write r code msg = Some r' -> r' = status_response r code msg.
Proof.
  unfold SftpStatus_write, writeInt32, writeString.
  destruct (write (FInt32 _) _) as [r1|] eqn:H1; [|done].
  apply write_Some in H1 as [_ ->]. cbn [mbind option_bind].
  destruct (write (FString msg) _) as [r2|] eqn:H2; [|done].
  apply write_Some in H2 as [_ ->]. cbn [mbind option_bind].
  intros [_ ->]%write_Some. reflexivity.
Qed.

Lemma SftpStatus_write_ok r code msg :
  string_size msg <= capacity - 17 ->
  SftpStatus_write r code msg = Some (status_response r code msg).
Proof.
  intros Hm. unfold SftpStatus_write, writeInt32, writeString.
  rewrite write_ok by (cbn; unfold capacity in *; lia). cbn [mbind option_bind].
  rewrite write_ok by (cbn; unfold capacity in *; lia). cbn [mbind option_bind].
  rewrite write_ok
    by (cbn; unfold capacity in *; change (string_size "") with 4; lia).
  reflexivity.
Qed.

Lemma status_meta r code msg :
  rid (status_response r code msg) = rid r /\
  handleInfo (status_response r code msg) = handleInfo r.
Proof. done. Qed.

Lemma send_unbound fuel r s :
  handleInfo r = None -> send fuel r s = (emit (ASend (finish r)) s, Val tt).
Proof. intros Hr. destruct fuel; cbn [send]; msimpl; rewrite Hr; reflexivity. Qed.

Lemma send_bound fuel r o s :
  handleInfo r = Some o ->
  send (S fuel) r s = processNext (send fuel) o (emit (ASend (finish r)) s).
Proof. intros Hr. cbn [send]. msimpl. rewrite Hr. reflexivity. Qed.

(** *** Well-formed handle tables *)

Lemma WF_ext s s' :
  _handles s' = _handles s -> heap s' = heap s -> nextHandle s' = nextHandle s ->
  WF s -> WF s'.
Proof. intros Hh Hp Hn [? ? ?]. split; rewrite ?Hh, ?Hp, ?Hn; done. Qed.

Lemma heap_insert_lookup (l : list SftpHandleInfo) o hi hi' o' x :
  l !! o = Some hi ->
  <[o := hi']> l !! o' = Some x ->
  (o' = o /\ x = hi') \/ (o' <> o /\ l !! o' = Some x).
Proof.
  intros Ho Hx. destruct (decide (o' = o)) as [->|Hne].
  - left. rewrite list_lookup_insert_eq in Hx by by eapply lookup_lt_Some.
    split; congruence.
  - right. by rewrite list_lookup_insert_ne in Hx.
Qed.

Lemma heap_insert_eq (l : list SftpHandleInfo) o hi hi' :
  l !! o = Some hi -> <[o := hi']> l !! o = Some hi'.
Proof. intros Ho. apply list_lookup_insert_eq. by eapply lookup_lt_Some. Qed.

(** Changing an info without touching its index keeps the table
    well-formed. *)
Lemma WF_update s o hi hi' :
  heap s !! o = Some hi -> hi_h hi' = hi_h hi ->
  WF s -> WF (set_heap (<[o := hi']> (heap s)) s).
Proof.
  intros Ho Hh [Hs Hi Hn]. split; cbn; [| |done].
  - intros h o' Hslot. destruct (Hs _ _ Hslot) as (? & hi0 & Ho' & Hh0). split; [done|].
    destruct (decide (o' = o)) as [->|Hne].
    + exists hi'. split; [by eapply heap_insert_eq | congruence].
    + exists hi0. by rewrite list_lookup_insert_ne.
  - intros o' x [[-> ->]|[_ Hl]]%(heap_insert_lookup _ _ _ _ _ _ Ho).
    + rewrite Hh. by apply Hi.
    + by apply Hi.
Qed.

(** *** Steps that leave the locks, the queues, the pending callbacks and
    the trace alone *)

Lemma quiet_refl s : quiet s s.
Proof. split; try done. exists 0%nat. by rewrite app_nil_r. Qed.

Lemma quiet_trans s1 s2 s3 : quiet s1 s2 -> quiet s2 s3 -> quiet s1 s3.
Proof.
  intros [? ? ? ? ? [n Hn] ?] [? ? ? ? ? [m Hm] ?]. split; try congruence; [|by auto].
  exists (n + m)%nat. rewrite Hm, Hn, <- app_assoc. f_equal.
  by rewrite replicate_add.
Qed.

Lemma quiet_update o f i s :
  heap s !! o = Some i ->
  hi_locked (f i) = hi_locked i -> hi_tasks (f i) = hi_tasks i -> hi_h (f i) = hi_h i ->
  quiet s (set_heap (<[o := f i]> (heap s)) s).
Proof.
  intros Hi Hl Ht Hh. split; try done; [|by apply (WF_update s o i)].
  exists 0%nat. rewrite app_nil_r.
  unfold lockview. cbn. rewrite list_fmap_insert, Hl, Ht.
  apply list_insert_id. by rewrite list_lookup_fmap, Hi.
Qed.

Lemma lockview_lookup s o :
  lockview s !! o = (fun i => (hi_locked i, hi_tasks i)) <$> heap s !! o.
Proof. unfold lockview. by rewrite list_lookup_fmap. Qed.

Lemma quiet_lookup s s' o i :
  quiet s s' -> heap s !! o = Some i ->
  exists i', heap s' !! o = Some i' /\ hi_locked i' = hi_locked i /\ hi_tasks i' = hi_tasks i.
Proof.
  intros [_ _ _ _ _ [n Hn] _] Hi.
  assert (lockview s' !! o = Some (hi_locked i, hi_tasks i)) as Hv.
  { rewrite Hn. apply lookup_app_l_Some. by rewrite lockview_lookup, Hi. }
  rewrite lockview_lookup in Hv. destruct (heap s' !! o) as [i'|]; [|done].
  exists i'. cbn in Hv. by simplify_eq.
Qed.

Lemma quiet_lookup_inv s s' o i' :
  quiet s s' -> heap s' !! o = Some i' ->
  (exists i, heap s !! o = Some i /\ hi_locked i' = hi_locked i /\ hi_tasks i' = hi_tasks i)
  \/ (heap s !! o = None /\ hi_locked i' = false /\ hi_tasks i' = []).
Proof.
  intros [_ _ _ _ _ [n Hn] _] Hi.
  assert (lockview s' !! o = Some (hi_locked i', hi_tasks i')) as Hv
    by by rewrite lockview_lookup, Hi.
  rewrite Hn in Hv. apply lookup_app_Some in Hv as [Hv|[Hlen Hv]].
  - left. rewrite lockview_lookup in Hv. destruct (heap s !! o) as [i|]; [|done].
    exists i. cbn in Hv. by simplify_eq.
  - right. apply lookup_replicate in Hv as [[= -> ->] _]. split; [|done].
    apply lookup_ge_None. unfold lockview in Hlen. by rewrite length_fmap in Hlen.
Qed.

(** *** The handle table *)

Lemma next_in_range h :
  1 <= h <= MAX_HANDLE_COUNT -> 1 <= Z.rem h MAX_HANDLE_COUNT + 1 <= MAX_HANDLE_COUNT.
Proof.
  unfold MAX_HANDLE_COUNT. intros Hh.
  pose proof (Z.rem_bound_pos h 512). lia.
Qed.

Lemma allocate_quiet h s :
  1 <= h <= MAX_HANDLE_COUNT -> _handles s !! h = None -> quiet s (allocate h s).
Proof.
  intros Hh Hfree. split; try done.
  - exists 1%nat. unfold lockview. cbn. by rewrite fmap_app.
  - intros [Hs Hi Hn]. split; cbn.
    + intros h' o [[-> <-]|[Hne Hslot]]%lookup_insert_Some.
      * split; [done|]. exists (new_SftpHandleInfo h'). split; [|done].
        by rewrite lookup_app_r, Nat.sub_diag by lia.
      * destruct (Hs _ _ Hslot) as (? & hi & Ho & ?). split; [done|].
        exists hi. split; [|done]. by apply lookup_app_l_Some.
    + intros o hi [Ho|[Hlen Ho]]%lookup_app_Some.
      * destruct (Hi _ _ Ho) as [?|Hslot]; [by left|]. right.
        rewrite lookup_insert_ne; [done|]. intros Heq. congruence.
      * destruct (o - length (heap s))%nat eqn:Hd; cbn in Ho; [|done].
        simplify_eq. right. cbn. replace o with (length (heap s)) by lia.
        apply lookup_insert_eq.
    + by apply next_in_range.
Qed.

(** What the loop of [createHandleInfo] returns: it stops at the first free
    slot on its way, or gives up after [n] occupied ones. *)
Lemma createHandleInfo_loop_spec n h s :
  1 <= h <= MAX_HANDLE_COUNT ->
  (exists h', 1 <= h' <= MAX_HANDLE_COUNT /\ _handles s !! h' = None /\
     createHandleInfo_loop n h s = (allocate h' s, Val (Some (length (heap s)))))
  \/ createHandleInfo_loop n h s = (s, Val None).
Proof.
  revert h. induction n as [|n IH]; intros h Hh; cbn [createHandleInfo_loop].
  - by right.
  - msimpl. destruct (_handles s !! h) eqn:Hslot.
    + apply IH. by apply next_in_range.
    + left. exists h. done.
Qed.

Lemma createHandleInfo_loop_quiet n h s :
  (WF s -> 1 <= h <= MAX_HANDLE_COUNT) ->
  exists s' r, createHandleInfo_loop n h s = (s', Val r) /\ quiet s s'.
Proof.
  revert h. induction n as [|n IH]; intros h Hh; cbn [createHandleInfo_loop].
  - exists s, None. split; [done | apply quiet_refl].
  - msimpl. destruct (_handles s !! h) eqn:Hslot.
    + apply IH. intros Hwf. by apply next_in_range, Hh.
    + msimpl. eexists _, _. split; [reflexivity|].
      split; try done.
      * exists 1%nat. unfold lockview. cbn. by rewrite fmap_app.
      * intros Hwf. by apply (q_wf _ _ (allocate_quiet h s (Hh Hwf) Hslot)).
Qed.

Lemma createHandleInfo_quiet s :
  exists s' r, createHandleInfo s = (s', Val r) /\ quiet s s'.
Proof.
  unfold createHandleInfo. msimpl. apply createHandleInfo_loop_quiet.
  intros Hwf. apply Hwf.
Qed.

Lemma release_WF o hi s :
  heap s !! o = Some hi -> 0 <= hi_h hi -> WF s -> WF (release o hi s).
Proof.
  intros Ho Hh [Hs Hi Hn]. split; cbn; [| |done].
  - intros h o' [Hne Hslot]%lookup_delete_Some.
    destruct (Hs _ _ Hslot) as (? & hi0 & Ho' & Hh0). split; [done|]. exists hi0.
    rewrite list_lookup_insert_ne; [done|]. intros ->. congruence.
  - intros o' x [[-> ->]|[Hne Hl]]%(heap_insert_lookup _ _ _ _ _ _ Ho); [by left|].
    destruct (Hi _ _ Hl) as [?|Hslot]; [by left|]. right.
    rewrite lookup_delete_ne; [done|]. intros Heq.
    destruct (Hi _ _ Ho) as [?|Hslot']; [lia|]. rewrite Heq in Hslot'. congruence.
Qed.

Lemma deleteHandleInfo_live o hi s :
  heap s !! o = Some hi -> 0 <= hi_h hi -> _handles s !! hi_h hi = Some o ->
  deleteHandleInfo o s = (release o hi s, Val tt).
Proof.
  intros Ho Hh Hslot. unfold deleteHandleInfo.
  rewrite (bind_val _ _ _ _ _ (deref_Some _ _ _ Ho)).
  destruct (Z.ltb_spec (hi_h hi) 0); [lia|].
  rewrite (bind_val _ _ _ _ _ (update_Some _ _ _ _ Ho)). msimpl.
  cbn [set_heap _handles]. by rewrite Hslot.
Qed.

Lemma deleteHandleInfo_tombstone o hi s :
  heap s !! o = Some hi -> hi_h hi < 0 -> deleteHandleInfo o s = (s, Val tt).
Proof.
  intros Ho Hh. unfold deleteHandleInfo.
  rewrite (bind_val _ _ _ _ _ (deref_Some _ _ _ Ho)).
  by destruct (Z.ltb_spec (hi_h hi) 0); [|lia].
Qed.

Lemma deleteHandleInfo_quiet o s :
  exists s' r, deleteHandleInfo o s = (s', r) /\ r <> NoFuel /\ quiet s s'.
Proof.
  unfold deleteHandleInfo. destruct (heap s !! o) as [i|] eqn:Hi.
  - rewrite (bind_val _ _ _ _ _ (deref_Some _ _ _ Hi)).
    destruct (Z.ltb_spec (hi_h i) 0).
    + eexists _, _. split; [reflexivity|]. split; [done | apply quiet_refl].
    + rewrite (bind_val _ _ _ _ _ (update_Some _ _ _ _ Hi)). msimpl.
      assert (exists n, lockview (set_heap (<[o:=set_h (-1) i]> (heap s)) s)
                        = lockview s ++ replicate n (false, [])) as Hv.
      { exists 0%nat. rewrite app_nil_r. unfold lockview. cbn.
        rewrite list_fmap_insert. apply list_insert_id. by rewrite list_lookup_fmap, Hi. }
      cbn [set_heap _handles]. destruct (_handles s !! hi_h i) as [o'|] eqn:Hslot.
      * eexists _, _. split; [reflexivity|]. split; [done|]. split; try done.
        intros Hwf. destruct (wf_info _ Hwf _ _ Hi) as [?|Hslot']; [lia|].
        by apply (release_WF o i s).
      * eexists _, _. split; [reflexivity|]. split; [done|]. split; try done.
        intros Hwf. destruct (wf_info _ Hwf _ _ Hi) as [?|Hslot']; [lia|congruence].
  - rewrite (bind_exn _ _ _ _ (deref_None _ _ Hi)).
    eexists _, _. split; [reflexivity|]. split; [done | apply quiet_refl].
Qed.

(** *** The shape of a handler

    Whatever a request handler or a callback does, it first changes the
    handle table quietly and then ends in one of three ways: it returns or
    throws, it hands a callback for the same response to the backend, or it
    sends the response (and, should that send throw, goes on in the same
    way from there). *)

Lemma shape_pre send ow n s0 s out :
  quiet s0 s -> Shape send ow n s out -> Shape send ow n s0 out.
Proof.
  intros Hq. destruct 1.
  - apply ShQuiet; [by eapply quiet_trans|done].
  - apply ShCall; [by eapply quiet_trans|done].
  - eapply ShSendVal; [by eapply quiet_trans|done..].
  - eapply ShSendNoFuel; [by eapply quiet_trans|done..].
  - eapply ShSendExn; [by eapply quiet_trans|done..].
Qed.

Lemma shape_send send r s : Shape send (handleInfo r) (rid r) s (send r s).
Proof.
  destruct (send r s) as [s2 [[]| |]] eqn:Hs.
  - eapply ShSendVal; [apply quiet_refl|done..].
  - eapply ShSendExn; [apply quiet_refl|done..|]. apply ShQuiet; [apply quiet_refl|done].
  - eapply ShSendNoFuel; [apply quiet_refl|done..].
Qed.

Lemma shape_sendStatus send r code msg s :
  Shape send (handleInfo r) (rid r) s (sendStatus send r code msg s).
Proof.
  unfold sendStatus. destruct (SftpStatus_write r code msg) as [r'|] eqn:Hw; msimpl.
  - apply SftpStatus_write_Some in Hw as ->. apply (shape_send send (status_response _ _ _)).
  - apply ShQuiet; [apply quiet_refl|done].
Qed.

Lemma shape_sendError send r err fatal s :
  Shape send (handleInfo r) (rid r) s (sendError send r err fatal s).
Proof.
  unfold sendError. destruct (if negb fatal then _ else _) as [code msg].
  destruct (SftpStatus_write r code msg) as [r'|] eqn:Hw; msimpl.
  - apply SftpStatus_write_Some in Hw as ->. apply (shape_send send (status_response _ _ _)).
  - apply ShQuiet; [apply quiet_refl|done].
Qed.

Lemma shape_call send op k s r :
  kresponse k = Some r ->
  Shape send (handleInfo r) (rid r) s (call op k s).
Proof. intros Hk. apply ShCall; [apply quiet_refl|]. by exists r. Qed.

Ltac sh_quiet := apply ShQuiet; [first [apply quiet_refl | eassumption] | done].

Lemma shape_readdir_done send r count offset s :
  Shape send (handleInfo r) (rid r) s (readdir_done send r count offset s).
Proof.
  unfold readdir_done. destruct (count =? 0).
  - apply shape_sendStatus.
  - apply (shape_send send (writeInt32BE count offset r)).
Qed.

Lemma shape_readdir send r o count offset s :
  Shape send (handleInfo r) (rid r) s (readdir r o count offset s).
Proof.
  unfold readdir. destruct (heap s !! o) as [i|] eqn:Hi.
  - rewrite (bind_val _ _ _ _ _ (deref_Some _ _ _ Hi)). by apply shape_call.
  - rewrite (bind_exn _ _ _ _ (deref_None _ _ Hi)). sh_quiet.
Qed.

Lemma writeItem_meta r item r' :
  writeItem r item = Some r' -> rid r' = rid r /\ handleInfo r' = handleInfo r.
Proof.
  unfold writeItem, writeString, writeAttributes.
  destruct (write (FString (filename item)) r) as [r1|] eqn:H1; [|done].
  cbn [mbind option_bind].
  destruct (write (FString (item_longname item)) r1) as [r2|] eqn:H2; [|done].
  cbn [mbind option_bind]. intros H3.
  apply write_meta in H1 as (? & ? & _), H2 as (? & ? & _), H3 as (? & ? & _).
  split; congruence.
Qed.

Lemma shape_readdir_loop send r o count offset l s :
  Shape send (handleInfo r) (rid r) s (readdir_loop send r o count offset l s).
Proof.
  revert r count s. induction l as [|item l IH]; intros r count s; cbn [readdir_loop].
  - apply shape_readdir.
  - destruct (writeItem r item) as [r'|] eqn:Hw; msimpl; [|sh_quiet].
    apply writeItem_meta in Hw as [<- <-].
    destruct (res_position r' >? 28672).
    + destruct (heap s !! o) as [i|] eqn:Hi.
      * rewrite (bind_val _ _ _ _ _ (update_Some _ _ _ _ Hi)).
        eapply shape_pre; [by apply (quiet_update o (set_items (Some l)) i)|].
        apply shape_readdir_done.
      * rewrite (bind_exn _ _ _ _ (update_None _ _ _ Hi)). sh_quiet.
    + apply IH.
Qed.

Lemma shape_readdir_next send r o count offset items s :
  Shape send (handleInfo r) (rid r) s (readdir_next send r o count offset items s).
Proof.
  destruct items; [apply shape_readdir_loop | apply shape_readdir_done].
Qed.

Lemma shape_openFile send r path attrs modes o s :
  Shape send (handleInfo r) (rid r) s (openFile r path attrs modes o s).
Proof. by apply shape_call. Qed.

Lemma skip_meta n r r' :
  skip n r = Some r' -> rid r' = rid r /\ handleInfo r' = handleInfo r.
Proof. intros [_ ->]%skip_Some. done. Qed.

Lemma write_meta2 f r r' :
  write f r = Some r' -> rid r' = rid r /\ handleInfo r' = handleInfo r.
Proof. intros (? & ? & _)%write_meta. done. Qed.

(** Collect what the writes in the context say about [rid] and [handleInfo]. *)
Ltac meta :=
  unfold writeInt32, writeString, writeAttributes in *;
  unfold SftpStatus_writeSuccess in *;
  repeat match goal with
  | Hw : SftpStatus_write _ _ _ = Some _ |- _ => apply SftpStatus_write_Some in Hw as ->
  | Hw : write _ _ = Some _ |- _ => apply write_meta2 in Hw as [? ?]
  | Hw : skip _ _ = Some _ |- _ => apply skip_meta in Hw as [? ?]
  end;
  cbn in *; congruence.

Lemma shape_send' send ow n r s :
  handleInfo r = ow -> rid r = n -> Shape send ow n s (send r s).
Proof. intros <- <-. apply shape_send. Qed.

Lemma shape_readdir' send ow n r o count offset s :
  handleInfo r = ow -> rid r = n ->
  Shape send ow n s (readdir r o count offset s).
Proof. intros <- <-. apply shape_readdir. Qed.

Lemma shape_readdir_next' send ow n r o count offset items s :
  handleInfo r = ow -> rid r = n ->
  Shape send ow n s (readdir_next send r o count offset items s).
Proof. intros <- <-. apply shape_readdir_next. Qed.

(** One step of symbolic execution of a handler. *)
Ltac sh_step :=
  msimpl;
  lazymatch goal with
  | |- Shape _ _ _ _ ((lift ?x ≫= _) _) =>
      let v := fresh "v" in
      destruct x as [v|] eqn:?; msimpl;
      [lazymatch type of v with prod _ _ => destruct v as [? ?] | _ => idtac end | sh_quiet]
  | |- Shape _ _ _ _ ((deref ?o ≫= _) ?s) =>
      let Hi := fresh "Hi" in
      destruct (heap s !! o) eqn:Hi;
      [ rewrite (bind_val _ _ _ _ _ (deref_Some _ _ _ Hi))
      | rewrite (bind_exn _ _ _ _ (deref_None _ _ Hi)); sh_quiet ]
  | |- Shape _ _ _ _ ((update ?o ?f ≫= _) ?s) =>
      let Hi := fresh "Hi" in
      destruct (heap s !! o) eqn:Hi;
      [ rewrite (bind_val _ _ _ _ _ (update_Some _ _ _ _ Hi));
        eapply shape_pre; [by eapply (quiet_update o f)|]
      | rewrite (bind_exn _ _ _ _ (update_None _ _ _ Hi)); sh_quiet ]
  | |- Shape _ _ _ _ ((createHandleInfo ≫= _) ?s) =>
      let Hc := fresh "Hc" in let Hq := fresh "Hq" in
      destruct (createHandleInfo_quiet s) as (? & ? & Hc & Hq);
      rewrite (bind_val _ _ _ _ _ Hc); eapply shape_pre; [exact Hq|]
  | |- Shape _ _ _ _ ((deleteHandleInfo ?o ≫= _) ?s) =>
      let Hd := fresh "Hd" in let Hq := fresh "Hq" in let res := fresh "res" in
      destruct (deleteHandleInfo_quiet o s) as (? & res & Hd & ? & Hq);
      destruct res as [[]| |]; [ rewrite (bind_val _ _ _ _ _ Hd); eapply shape_pre; [exact Hq|]
                            | rewrite (bind_exn _ _ _ _ Hd); sh_quiet
                            | done ]
  | |- Shape _ _ _ _ (sendStatus _ _ _ _ _) => apply shape_sendStatus
  | |- Shape _ _ _ _ (call _ _ _) =>
      apply ShCall; [apply quiet_refl | eexists; split; [reflexivity | done]]
  | |- Shape _ _ _ _ (throw _) => sh_quiet
  | |- Shape _ _ _ _ (mret _ _) => sh_quiet
  | |- Shape _ _ _ _ (openFile _ _ _ _ _ _) => apply shape_openFile
  | |- Shape ?snd _ _ _ (?snd _ _) => apply shape_send'; meta
  | |- Shape _ _ _ _ (readdir_next _ _ _ _ _ _ _) => apply shape_readdir_next'; meta
  | |- Shape _ _ _ _ (readdir _ _ _ _ _) => apply shape_readdir'; meta
  | |- Shape _ _ _ _ (if ?b then _ else _) => destruct b eqn:?
  | |- Shape _ _ _ _ ((if ?b then _ else _) _) => destruct b eqn:?
  | |- Shape _ _ _ _ (match ?x with _ => _ end _) => destruct x eqn:?
  | |- Shape _ _ _ _ (match ?x with _ => _ end) => destruct x eqn:?
  end.

Lemma shape_processRequest_body send request response ow s :
  Shape send (handleInfo response) (rid response) s
    (processRequest_body send request response ow s).
Proof.
  unfold processRequest_body.
  destruct (req_length request >? 66000); [apply shape_sendStatus|].
  destruct (req_type request).
  all: try apply shape_sendStatus.
  all: repeat sh_step.
Qed.

Lemma shape_sendHandle send r o s :
  Shape send (handleInfo r) (rid r) s (sendHandle send r o s).
Proof. unfold sendHandle. repeat sh_step. Qed.

Lemma sendIfError_bind {B} send r err (k : bool -> M B) s :
  (sendIfError send r err ≫= k) s =
  match err with
  | None => k false s
  | Some e => (sendError send r e false ≫= fun _ => k true) s
  end.
Proof.
  destruct err as [e|]; [|reflexivity]. unfold sendIfError.
  rewrite bind_assoc. unfold mbind, M_bind, bind.
  destruct (sendError send r e false s) as [s' [[]| |]]; reflexivity.
Qed.

Lemma shapeQ_sendIfError send r err (kt kf : M unit) s :
  (forall s2, exists s3 res, kt s2 = (s3, res) /\ res <> NoFuel /\ quiet s2 s3) ->
  (forall s, Shape send (handleInfo r) (rid r) s (kf s)) ->
  ShapeQ send (handleInfo r) (rid r) s
    ((sendIfError send r err ≫= fun sent : bool => if sent then kt else kf) s).
Proof.
  intros Hkt Hkf. rewrite sendIfError_bind. destruct err as [e|]; [|left; apply Hkf].
  unfold sendError. cbn [negb].
  set (code := exn_code (new_SftpException e)).
  set (msg := exn_message (new_SftpException e)).
  destruct (SftpStatus_write r code msg) as [r'|] eqn:Hw; msimpl; [|left; sh_quiet].
  apply SftpStatus_write_Some in Hw as ->.
  destruct (send (status_response r code msg) s) as [s2 [[]| |]] eqn:Hs.
  - rewrite (bind_val _ _ _ _ _ Hs). destruct (Hkt s2) as (s3 & res & -> & ? & ?).
    right. exists s, (status_response r code msg), s2.
    split; [apply quiet_refl|]. done.
  - rewrite (bind_exn _ _ _ _ Hs). left.
    eapply ShSendExn; [apply quiet_refl| | |exact Hs|sh_quiet]; done.
  - rewrite (bind_nofuel _ _ _ _ Hs). left.
    eapply ShSendNoFuel; [apply quiet_refl| | |exact Hs]; done.
Qed.

Lemma ret_quiet s2 : exists s3 res, (mret tt : M unit) s2 = (s3, res) /\ res <> NoFuel /\ quiet s2 s3.
Proof. exists s2, (Val tt). split; [done|]. split; [done | apply quiet_refl]. Qed.

Lemma shape_resume send k err v r s :
  kresponse k = Some r ->
  ShapeQ send (handleInfo r) (rid r) s (resume send k err v s).
Proof.
  intros Hk. destruct k; cbn in Hk; simplify_eq; cbn [resume];
    unfold sendSuccess, sendAttribs, sendPath.
  all: apply shapeQ_sendIfError;
    [ first [ apply ret_quiet | intros; apply deleteHandleInfo_quiet ] | intros ].
  all: repeat sh_step.
  all: try apply shape_sendHandle.
Qed.

(** *** The invariant of the task queues *)

Lemma belongs_fun k ow n ow' n' : belongs k ow n -> belongs k ow' n' -> ow = ow' /\ n = n'.
Proof. intros (r & ? & ? & ?) (r' & ? & ? & ?). by simplify_eq. Qed.

Lemma quiet_Cur s s' o n : quiet s s' -> Cur s o n -> Cur s' o n.
Proof.
  intros Hq [H1 H2]. split.
  - rewrite (q_trace _ _ Hq). exact H1.
  - intros hi t Hhi Ht.
    destruct (quiet_lookup_inv _ _ _ _ Hq Hhi) as [(hi0 & ? & _ & Heq)|(_ & _ & Heq)].
    + rewrite Heq in Ht. eauto.
    + rewrite Heq in Ht. by apply elem_of_nil in Ht.
Qed.

Lemma quiet_Inv s s' : quiet s s' -> Inv s -> Inv s'.
Proof.
  intros Hq HI. pose proof Hq as [Hp Hc Hr Ht _ _]. split.
  - rewrite Hp, Hc. apply HI.
  - rewrite Hp. apply HI.
  - rewrite Hp. intros c k o n Hk Hb.
    destruct (inv_locked _ HI _ _ _ _ Hk Hb) as (hi & Hhi & Hl).
    destruct (quiet_lookup _ _ _ _ Hq Hhi) as (hi' & ? & ? & ?).
    exists hi'. split; [done | congruence].
  - intros o hi Hhi Hl.
    destruct (quiet_lookup_inv _ _ _ _ Hq Hhi) as [(hi0 & ? & Hl0 & ->)|(_ & _ & ->)]; [|done].
    eapply inv_idle; [done..|congruence].
  - intros o hi Hhi. rewrite Hr.
    destruct (quiet_lookup_inv _ _ _ _ Hq Hhi) as [(hi0 & ? & Hl0 & ->)|(_ & _ & ->)].
    + by eapply inv_tasks.
    + split; constructor.
  - rewrite Ht, Hp, Hc, Hr. apply HI.
  - rewrite Hp, Hr. apply HI.
  - rewrite Hp. intros c k o n Hk Hb. eapply quiet_Cur; [done|]. by eapply inv_cur.
  - rewrite Ht. apply HI.
  - apply (q_wf _ _ Hq), HI.
Qed.

Lemma quiet_Busy s s' o n : quiet s s' -> Busy s o n -> Busy s' o n.
Proof.
  intros Hq ((hi & Hhi & Hl) & Hfree & Hcur). split; [|split].
  - destruct (quiet_lookup _ _ _ _ Hq Hhi) as (hi' & ? & ? & ?).
    exists hi'. split; [done | congruence].
  - rewrite (q_pending _ _ Hq). exact Hfree.
  - by eapply quiet_Cur.
Qed.

Lemma quiet_Proc s s' ow n : quiet s s' -> Proc s ow n -> Proc s' ow n.
Proof.
  intros Hq (HI & Hn & Hb). split; [by eapply quiet_Inv|]. split.
  - by rewrite (q_next_response _ _ Hq).
  - intros o ->. eapply quiet_Busy; [done|]. by apply Hb.
Qed.

Lemma lookup_snoc_call {tr : list Action} {a i c op k} :
  is_call a = false ->
  (tr ++ [a]) !! i = Some (ACall c op k) -> tr !! i = Some (ACall c op k).
Proof.
  intros Ha Hi. apply lookup_app_Some in Hi as [Hi|[_ Hi]]; [done|].
  destruct (i - length tr)%nat; cbn in Hi; [|done]. by simplify_eq.
Qed.

Lemma emit_Cur s a o n : is_call a = false -> Cur s o n -> Cur (emit a s) o n.
Proof.
  intros Ha [H1 H2]. split; [|exact H2].
  intros i c op k n' Hi. apply (H1 i c op k n'). by eapply lookup_snoc_call.
Qed.

Lemma TraceOK_snoc tr a : is_call a = false -> TraceOK tr -> TraceOK (tr ++ [a]).
Proof.
  intros Ha HT i j c1 c2 op1 op2 k1 k2 o n1 n2 Hij Hi Hj Hb1 Hb2.
  apply (lookup_snoc_call Ha) in Hi, Hj.
  destruct (HT _ _ _ _ _ _ _ _ _ _ _ Hij Hi Hj Hb1 Hb2) as (? & m & res & ? & Hm).
  split; [done|]. exists m, res. split; [done|]. by apply lookup_app_l_Some.
Qed.

Lemma emit_Inv s a : is_call a = false -> Inv s -> Inv (emit a s).
Proof.
  intros Ha HI. split; try apply HI.
  - intros i c op k Hi. apply (lookup_snoc_call Ha) in Hi.
    destruct (inv_log _ HI _ _ _ _ Hi) as (? & ? & Hd). split; [done|]. split; [done|].
    destruct Hd as [?|(m & res & ? & Hm)]; [by left|].
    right. exists m, res. split; [done|]. by apply lookup_app_l_Some.
  - intros c k o n Hk Hb. apply emit_Cur; [done|]. by eapply inv_cur.
  - apply TraceOK_snoc; [done | apply HI].
  - apply (WF_ext s); [done..|apply HI].
Qed.

Lemma emit_Proc s a ow n : is_call a = false -> Proc s ow n -> Proc (emit a s) ow n.
Proof.
  intros Ha (HI & Hn & Hb). split; [by apply emit_Inv|]. split; [done|].
  intros o ->. destruct (Hb o eq_refl) as (? & ? & ?).
  split; [done|]. split; [done|]. by apply emit_Cur.
Qed.

Lemma call_eq op k s :
  call op k s =
  (emit (ACall (next_call s) op k)
     (set_pending (<[next_call s := k]> (pending s)) (S (next_call s)) s), Val tt).
Proof. reflexivity. Qed.

Lemma lookup_snoc_inv {A} (l : list A) (a x : A) i :
  (l ++ [a]) !! i = Some x -> l !! i = Some x \/ (i = length l /\ x = a).
Proof.
  intros Hi. apply lookup_app_Some in Hi as [Hi|[Hl Hi]]; [by left|]. right.
  destruct (i - length l)%nat eqn:Hd; cbn in Hi; [|done].
  split; [lia | congruence].
Qed.

(** A call made for the response being worked on keeps the invariant.  *)
Lemma call_Inv s op k :
  Inv s ->
  (forall ow n, belongs k ow n ->
     (n < next_response s)%nat /\ forall o, ow = Some o -> Busy s o n) ->
  Inv (call op k s).1.
Proof.
  intros HI Hk. rewrite call_eq. cbn [fst]. set (c := next_call s).
  assert (forall c' k', pending s !! c' = Some k' -> c' <> c) as Hne.
  { intros c' k' Hc' ->. apply (inv_fresh _ HI) in Hc'. unfold c in Hc'. lia. }
  split; cbn [emit set_pending pending next_call next_response trace heap].
  - intros c' k' [[-> ->]|[_ Hc']]%lookup_insert_Some; [lia|].
    apply (inv_fresh _ HI) in Hc'. lia.
  - intros c1 c2 k1 k2 o n1 n2
      [[<- <-]|[_ H1]]%lookup_insert_Some [[<- <-]|[_ H2]]%lookup_insert_Some Hb1 Hb2;
      [done| | |by eapply (inv_uniq _ HI)].
    + destruct (Hk _ _ Hb1) as [_ Hbusy]. destruct (Hbusy o eq_refl) as (_ & Hfree & _).
      by destruct (Hfree _ _ _ H2 Hb2).
    + destruct (Hk _ _ Hb2) as [_ Hbusy]. destruct (Hbusy o eq_refl) as (_ & Hfree & _).
      by destruct (Hfree _ _ _ H1 Hb1).
  - intros c' k' o n [[<- <-]|[_ Hc']]%lookup_insert_Some Hb.
    + destruct (Hk _ _ Hb) as [_ Hbusy]. by destruct (Hbusy o eq_refl) as (? & _).
    + by eapply (inv_locked _ HI).
  - apply HI.
  - apply HI.
  - intros i c' op' k' [Hi|[-> [= -> -> ->]]]%lookup_snoc_inv.
    + destruct (inv_log _ HI _ _ _ _ Hi) as (Hlt & Hrid & Hd).
      split; [lia|]. split; [done|]. destruct Hd as [Hp|(m & res & ? & Hm)].
      * left. rewrite lookup_insert_ne; [done|]. intros <-. unfold c in Hlt. lia.
      * right. exists m, res. split; [done|]. by apply lookup_app_l_Some.
    + split; [lia|]. split; [intros ow n Hb; by destruct (Hk _ _ Hb)|].
      left. apply lookup_insert_eq.
  - intros c' k' ow n [[<- <-]|[_ Hc']]%lookup_insert_Some Hb.
    + by destruct (Hk _ _ Hb).
    + by eapply (inv_pending_rid _ HI).
  - intros c' k' o n Hc' Hb. apply lookup_insert_Some in Hc' as [[<- <-]|[_ Hc']].
    + destruct (Hk _ _ Hb) as [_ Hbusy]. destruct (Hbusy o eq_refl) as (_ & _ & [Hc1 Hc2]).
      split; [|exact Hc2].
      intros i c0 op0 k0 n' [Hi|[-> [= -> -> ->]]]%lookup_snoc_inv Hb0.
      * by eapply Hc1.
      * destruct (belongs_fun _ _ _ _ _ Hb Hb0) as [_ ->]. lia.
    + destruct (inv_cur _ HI _ _ _ _ Hc' Hb) as [Hc1 Hc2]. split; [|exact Hc2].
      intros i c0 op0 k0 n' [Hi|[-> [= -> -> ->]]]%lookup_snoc_inv Hb0.
      * by eapply Hc1.
      * destruct (Hk _ _ Hb0) as [_ Hbusy]. destruct (Hbusy o eq_refl) as (_ & Hfree & _).
        by destruct (Hfree _ _ _ Hc' Hb).
  - intros i j c1 c2 op1 op2 k1 k2 o n1 n2 Hij Hi Hj Hb1 Hb2.
    apply lookup_snoc_inv in Hj as [Hj|[-> [= -> -> ->]]].
    + assert (trace s !! i = Some (ACall c1 op1 k1)) as Hi'.
      { apply lookup_snoc_inv in Hi as [Hi|[-> _]]; [done|].
        apply lookup_lt_Some in Hj. lia. }
      destruct (inv_trace _ HI _ _ _ _ _ _ _ _ _ _ _ Hij Hi' Hj Hb1 Hb2)
        as (? & m & res & ? & Hm).
      split; [done|]. exists m, res. split; [done|]. by apply lookup_app_l_Some.
    + apply lookup_snoc_inv in Hi as [Hi|[-> _]]; [|lia].
      destruct (Hk _ _ Hb2) as [_ Hbusy].
      destruct (Hbusy o eq_refl) as (_ & Hfree & [Hc1 _]).
      split; [by eapply Hc1|].
      destruct (inv_log _ HI _ _ _ _ Hi) as (_ & _ & [Hp|(m & res & ? & Hm)]).
      * by destruct (Hfree _ _ _ Hp Hb1).
      * exists m, res. split; [|by apply lookup_app_l_Some].
        apply lookup_lt_Some in Hm. lia.
  - apply (WF_ext s); [done..|apply HI].
Qed.

Lemma call_Inv_Proc s ow n op k :
  Proc s ow n -> belongs k ow n -> Inv (call op k s).1.
Proof.
  intros (HI & Hn & Hb) Hk. apply call_Inv; [done|].
  intros ow' n' Hk'. by destruct (belongs_fun _ _ _ _ _ Hk Hk') as [<- <-].
Qed.

Lemma called_back_Inv s c k res :
  Inv s -> pending s !! c = Some k -> Inv (called_back c res s).
Proof.
  intros HI Hc. unfold called_back.
  split; cbn [emit set_pending pending next_call next_response trace heap].
  - intros c' k' [_ Hc']%lookup_delete_Some. by eapply (inv_fresh _ HI).
  - intros c1 c2 k1 k2 o n1 n2 [_ H1]%lookup_delete_Some [_ H2]%lookup_delete_Some.
    by eapply (inv_uniq _ HI).
  - intros c' k' o n [_ Hc']%lookup_delete_Some. by eapply (inv_locked _ HI).
  - apply HI.
  - apply HI.
  - intros i c' op' k' Hi. apply (lookup_snoc_call (a := ADone c res) eq_refl) in Hi.
    destruct (inv_log _ HI _ _ _ _ Hi) as (Hlt & Hrid & Hd).
    split; [done|]. split; [done|]. destruct Hd as [Hp|(m & res' & ? & Hm)].
    + destruct (decide (c' = c)) as [->|Hne].
      * right. exists (length (trace s)), res. split.
        { by apply lookup_lt_Some in Hi. }
        { by rewrite lookup_app_r, Nat.sub_diag by lia. }
      * left. by rewrite lookup_delete_ne.
    + right. exists m, res'. split; [done|]. by apply lookup_app_l_Some.
  - intros c' k' ow n [_ Hc']%lookup_delete_Some. by eapply (inv_pending_rid _ HI).
  - intros c' k' o n [_ Hc']%lookup_delete_Some Hb.
    apply (emit_Cur s (ADone c res)); [done|]. by eapply (inv_cur _ HI).
  - apply TraceOK_snoc; [done | apply HI].
  - apply (WF_ext s); [done..|apply HI].
Qed.

Lemma called_back_Proc s c k res ow n :
  Inv s -> pending s !! c = Some k -> belongs k ow n ->
  Proc (called_back c res s) ow n.
Proof.
  intros HI Hc Hb. split; [by eapply called_back_Inv|]. split.
  - by eapply (inv_pending_rid _ HI).
  - intros o ->. split; [|split].
    + by eapply (inv_locked _ HI).
    + cbn. intros c' k' n' [Hne Hc']%lookup_delete_Some Hb'.
      destruct Hne. symmetry. by eapply (inv_uniq _ HI).
    + apply (emit_Cur s (ADone c res)); [done|]. by eapply (inv_cur _ HI).
Qed.

Lemma Cur_shrink s o hi hi' o' n :
  heap s !! o = Some hi ->
  (forall t, t ∈ hi_tasks hi' -> t ∈ hi_tasks hi) ->
  Cur s o' n -> Cur (set_heap (<[o := hi']> (heap s)) s) o' n.
Proof.
  intros Ho Hsub [H1 H2]. split; [exact H1|]. cbn.
  intros hi0 t [[-> ->]|[_ Hl]]%(heap_insert_lookup _ _ _ _ _ _ Ho) Ht; eauto.
Qed.

Lemma bump_Inv s : Inv s -> Inv (set_next_response (S (next_response s)) s).
Proof.
  intros HI. split; try apply HI; cbn.
  - intros o hi Hhi. destruct (inv_tasks _ HI _ _ Hhi) as [Hf Hs]. split; [|done].
    eapply Forall_impl; [exact Hf|]. cbn. intros t [? ?]. split; [done | lia].
  - intros i c op k Hi. destruct (inv_log _ HI _ _ _ _ Hi) as (? & Hr & ?).
    split; [done|]. split; [|done]. intros ow n Hb. specialize (Hr _ _ Hb). lia.
  - intros c k ow n Hc Hb. pose proof (inv_pending_rid _ HI _ _ _ _ Hc Hb). lia.
  - apply (WF_ext s); [done..|apply HI].
Qed.

Lemma bump_Proc s :
  Inv s -> Proc (set_next_response (S (next_response s)) s) None (next_response s).
Proof. intros HI. split; [by apply bump_Inv|]. split; [cbn; lia | done]. Qed.

(** [processNext] on an empty queue: the lock is released. *)
Lemma unlock_Inv s o n hi :
  Proc s (Some o) n -> heap s !! o = Some hi -> hi_tasks hi = [] ->
  Inv (set_heap (<[o := set_locked false hi]> (heap s)) s).
Proof.
  intros (HI & Hn & Hb) Ho Ht. destruct (Hb o eq_refl) as (_ & Hfree & _).
  split; try apply HI; cbn.
  - intros c k o' n' Hc Hk. destruct (decide (o' = o)) as [->|Hne].
    + by destruct (Hfree _ _ _ Hc Hk).
    + rewrite list_lookup_insert_ne by done. by eapply (inv_locked _ HI).
  - intros o' hi' [[-> ->]|[_ Hl]]%(heap_insert_lookup _ _ _ _ _ _ Ho) Hlk; [done|].
    by eapply (inv_idle _ HI).
  - intros o' hi' [[-> ->]|[_ Hl]]%(heap_insert_lookup _ _ _ _ _ _ Ho).
    + exact (inv_tasks _ HI o hi Ho).
    + exact (inv_tasks _ HI o' hi' Hl).
  - intros c k o' n' Hc Hk. apply (Cur_shrink s o hi); [done..|]. by eapply (inv_cur _ HI).
  - apply (WF_update s o hi); [done..|apply HI].
Qed.

(** [processNext] on a non-empty queue: the head task is taken off and is
    the one being worked on. *)
Lemma pop_Proc s o n hi request response rest :
  Proc s (Some o) n -> heap s !! o = Some hi ->
  hi_tasks hi = (request, response) :: rest ->
  handleInfo response = Some o /\
  Proc (set_heap (<[o := set_tasks rest hi]> (heap s)) s) (Some o) (rid response).
Proof.
  intros (HI & Hn & Hb) Ho Ht.
  destruct (Hb o eq_refl) as ((hi0 & Ho' & Hlk) & Hfree & [Hc1 Hc2]).
  assert (hi0 = hi) as -> by congruence.
  destruct (inv_tasks _ HI _ _ Ho) as [Hf Hs]. rewrite Ht in Hf, Hs.
  apply Forall_cons in Hf as [[Hh Hr] Hf]. apply StronglySorted_inv in Hs as [Hs Hlt].
  cbn in Hh, Hr. split; [done|].
  assert (forall t, t ∈ hi_tasks (set_tasks rest hi) -> t ∈ hi_tasks hi) as Hsub.
  { cbn. intros t ?. rewrite Ht. by right. }
  split; [|split; [done|]].
  - split; try apply HI; cbn.
    + intros c k o' n' Hc Hk. destruct (decide (o' = o)) as [->|Hne].
      * by destruct (Hfree _ _ _ Hc Hk).
      * rewrite list_lookup_insert_ne by done. by eapply (inv_locked _ HI).
    + intros o' hi' [[-> ->]|[_ Hl]]%(heap_insert_lookup _ _ _ _ _ _ Ho) Hlk'.
      * cbn in Hlk'. congruence.
      * by eapply (inv_idle _ HI).
    + intros o' hi' [[-> ->]|[_ Hl]]%(heap_insert_lookup _ _ _ _ _ _ Ho).
      * done.
      * exact (inv_tasks _ HI o' hi' Hl).
    + intros c k o' n' Hc Hk. apply (Cur_shrink s o hi); [done..|]. by eapply (inv_cur _ HI).
    + apply (WF_update s o hi); [done..|apply HI].
  - intros ? [= <-]. split; [|split; [done|]].
    + exists (set_tasks rest hi). split; [by eapply heap_insert_eq | done].
    + split; cbn.
      * intros i c op k n' Hi Hk. specialize (Hc1 _ _ _ _ _ Hi Hk).
        assert (n < rid response)%nat; [|lia].
        apply (Hc2 hi (request, response)); [done|]. rewrite Ht. by left.
      * intros hi' t Hhi' Htin. rewrite (heap_insert_eq _ _ _ _ Ho) in Hhi'.
        simplify_eq. cbn in Htin. rewrite Forall_forall in Hlt.
        by apply (Hlt t).
Qed.

(** [_process] on an idle handle: the lock is taken for the new response. *)
Lemma lock_Proc s o hi :
  Inv s -> heap s !! o = Some hi -> hi_locked hi = false ->
  Proc (set_heap (<[o := set_locked true hi]> (heap s))
          (set_next_response (S (next_response s)) s))
       (Some o) (next_response s).
Proof.
  intros HI Ho Hlk. pose proof (bump_Inv _ HI) as HI'.
  assert (forall c k n', pending s !! c = Some k -> ~ belongs k (Some o) n') as Hfree.
  { intros c k n' Hc Hk. destruct (inv_locked _ HI _ _ _ _ Hc Hk) as (hi0 & ? & ?).
    congruence. }
  split; [|split; [cbn; lia|]].
  - split; try apply HI'; cbn.
    + intros c k o' n' Hc Hk. destruct (decide (o' = o)) as [->|Hne].
      * by destruct (Hfree _ _ _ Hc Hk).
      * rewrite list_lookup_insert_ne by done. by eapply (inv_locked _ HI).
    + intros o' hi' [[-> ->]|[_ Hl]]%(heap_insert_lookup _ _ _ _ _ _ Ho) Hlk'; [done|].
      by eapply (inv_idle _ HI).
    + intros o' hi' [[-> ->]|[_ Hl]]%(heap_insert_lookup _ _ _ _ _ _ Ho).
      * exact (inv_tasks _ HI' o hi Ho).
      * exact (inv_tasks _ HI' o' hi' Hl).
    + intros c k o' n' Hc Hk.
      apply (Cur_shrink (set_next_response (S (next_response s)) s) o hi); [done..|].
      by eapply (inv_cur _ HI').
    + apply (WF_update (set_next_response (S (next_response s)) s) o hi);
        [done..|apply HI'].
  - intros ? [= <-]. split; [|split; [done|]].
    + exists (set_locked true hi). split; [by eapply heap_insert_eq | done].
    + split; cbn.
      * intros i c op k n' Hi Hk. destruct (inv_log _ HI _ _ _ _ Hi) as (_ & Hr & _).
        specialize (Hr _ _ Hk). lia.
      * intros hi' t Hhi' Htin. rewrite (heap_insert_eq _ _ _ _ Ho) in Hhi'.
        simplify_eq. cbn in Htin. rewrite (inv_idle _ HI _ _ Ho Hlk) in Htin.
        by apply elem_of_nil in Htin.
Qed.

Lemma StronglySorted_snoc {A} (R : A -> A -> Prop) l x :
  StronglySorted R l -> Forall (fun y => R y x) l -> StronglySorted R (l ++ [x]).
Proof.
  induction 1 as [|a l Hs IH Ha]; intros Hx; cbn.
  - repeat constructor.
  - apply Forall_cons in Hx as [Hax Hx]. constructor; [by apply IH|].
    apply Forall_app. split; [done | by constructor].
Qed.

(** [_process] on a locked handle: the task is queued. *)
Lemma push_Inv s o hi request response :
  Inv s -> heap s !! o = Some hi -> hi_locked hi = true ->
  handleInfo response = Some o -> rid response = next_response s ->
  Inv (set_heap (<[o := set_tasks (hi_tasks hi ++ [(request, response)]) hi]> (heap s))
         (set_next_response (S (next_response s)) s)).
Proof.
  intros HI Ho Hlk Hh Hr. pose proof (bump_Inv _ HI) as HI'.
  split; try apply HI'; cbn.
  - intros c k o' n' Hc Hk. destruct (decide (o' = o)) as [->|Hne].
    + exists (set_tasks (hi_tasks hi ++ [(request, response)]) hi).
      split; [by eapply heap_insert_eq | done].
    + rewrite list_lookup_insert_ne by done. by eapply (inv_locked _ HI).
  - intros o' hi' [[-> ->]|[_ Hl]]%(heap_insert_lookup _ _ _ _ _ _ Ho) Hlk'.
    + cbn in Hlk'. congruence.
    + by eapply (inv_idle _ HI).
  - intros o' hi' [[-> ->]|[_ Hl]]%(heap_insert_lookup _ _ _ _ _ _ Ho).
    + destruct (inv_tasks _ HI _ _ Ho) as [Hf Hs]. cbn. split.
      * apply Forall_app. split.
        { eapply Forall_impl; [exact Hf|]. cbn. intros t [? ?]. split; [done | lia]. }
        { constructor; [|constructor]. cbn. split; [done | lia]. }
      * apply StronglySorted_snoc; [done|].
        eapply Forall_impl; [exact Hf|]. cbn. intros t [? ?]. lia.
    + exact (inv_tasks _ HI' o' hi' Hl).
  - intros c k o' n' Hc Hk. destruct (inv_cur _ HI _ _ _ _ Hc Hk) as [H1 H2].
    split; [exact H1|]. cbn.
    intros hi' t [[-> ->]|[_ Hl]]%(heap_insert_lookup _ _ _ _ _ _ Ho) Htin.
    + cbn in Htin. apply elem_of_app in Htin as [Htin|Htin%list_elem_of_singleton].
      * by eapply H2.
      * subst t. cbn. rewrite Hr. by eapply (inv_pending_rid _ HI).
    + by eapply H2.
  - apply (WF_update (set_next_response (S (next_response s)) s) o hi);
      [done..|apply HI'].
Qed.

(** *** Handlers keep the invariant *)

Lemma shape_sound send ow n s out :
  send_good send -> Shape send ow n s out -> Proc s ow n ->
  match out.2 with
  | Val _ => Inv out.1
  | Exn => Proc out.1 ow n
  | NoFuel => True
  end.
Proof.
  intros Hsend Hsh. induction Hsh as
    [s s' res Hq Hres|s s1 op k Hq Hk|s s1 r s2 Hq Hh Hr Hs|s s1 r s2 Hq Hh Hr Hs
    |s s1 r s2 out Hq Hh Hr Hs _ _]; intros HP.
  - destruct res as [[]| |]; cbn; [|by eapply quiet_Proc|done].
    eapply quiet_Inv; [done|]. apply HP.
  - cbn. eapply call_Inv_Proc; [by eapply quiet_Proc | done].
  - cbn. subst ow n. destruct (Hsend r s1) as (s' & res & Hs' & _ & HI).
    { by eapply quiet_Proc. }
    rewrite Hs in Hs'. simplify_eq. by apply HI.
  - done.
  - subst ow n. destruct (Hsend r s1) as (s' & res & Hs' & Hne & _).
    { by eapply quiet_Proc. }
    rewrite Hs in Hs'. by simplify_eq.
Qed.

Lemma shapeQ_sound send ow n s out :
  send_good send -> ShapeQ send ow n s out -> Proc s ow n ->
  out.2 <> NoFuel -> Inv out.1.
Proof.
  intros Hsend [Hsh|(s1 & r & s2 & Hq & Hh & Hr & Hs & Hq2 & _)] HP Hout.
  - pose proof (shape_sound _ _ _ _ _ Hsend Hsh HP) as Hsound.
    destruct out as [s' [[]| |]]; cbn in *; [done| apply Hsound | done].
  - subst ow n. destruct (Hsend r s1) as (s' & res & Hs' & _ & HI).
    { by eapply quiet_Proc. }
    rewrite Hs in Hs'. simplify_eq. eapply quiet_Inv; [done|]. by apply HI.
Qed.

Lemma sendStatus_ok send r code msg s :
  send_good send -> string_size msg <= capacity - 17 ->
  Proc s (handleInfo r) (rid r) ->
  exists s' res, sendStatus send r code msg s = (s', res) /\ res <> Exn /\
                 (res <> NoFuel -> Inv s').
Proof.
  intros Hsend Hm HP. unfold sendStatus. rewrite SftpStatus_write_ok by done. msimpl.
  by apply (Hsend (status_response r code msg)).
Qed.

Lemma processRequest_ok send request response hi s :
  send_good send -> Proc s (handleInfo response) (rid response) ->
  exists s' res, processRequest send request response hi s = (s', res) /\
                 res <> Exn /\ (res <> NoFuel -> Inv s').
Proof.
  intros Hsend HP. unfold processRequest. msimpl. destruct (negb (_fs s)).
  { exists s, (Val tt). split; [done|]. split; [done|]. intros _. apply HP. }
  unfold try_catch.
  pose proof (shape_sound _ _ _ _ _ Hsend
                (shape_processRequest_body send request response hi s) HP) as Hsound.
  destruct (processRequest_body send request response hi s) as [s' [[]| |]]; cbn in Hsound.
  - exists s', (Val tt). done.
  - unfold sendError. cbn [negb]. rewrite SftpStatus_write_ok by by vm_compute. msimpl.
    by apply (Hsend (status_response response FAILURE "Internal server error")).
  - exists s', NoFuel. done.
Qed.

Lemma send_ok fuel : send_good (send fuel).
Proof.
  induction fuel as [|fuel IH]; intros r s HP.
  - destruct (handleInfo r) as [o|] eqn:Hh.
    + cbn [send]. msimpl. rewrite Hh. eexists _, NoFuel. done.
    + rewrite send_unbound by done. eexists _, (Val tt). split; [done|]. split; [done|].
      intros _. apply emit_Inv; [done | apply HP].
  - destruct (handleInfo r) as [o|] eqn:Hh.
    2:{ rewrite send_unbound by done. eexists _, (Val tt). split; [done|]. split; [done|].
        intros _. apply emit_Inv; [done | apply HP]. }
    rewrite (send_bound _ _ _ _ Hh).
    apply (emit_Proc _ (ASend (finish r))) in HP; [|done].
    set (s1 := emit (ASend (finish r)) s) in *. clearbody s1. clear s.
    destruct HP as (HI & Hn & Hb). pose proof (Hb o eq_refl) as ((hi & Ho & Hlk) & _).
    unfold processNext. rewrite (bind_val _ _ _ _ _ (deref_Some _ _ _ Ho)).
    destruct (hi_tasks hi) as [|[request response] rest] eqn:Ht.
    + rewrite (update_Some _ _ _ _ Ho). eexists _, (Val tt). split; [done|]. split; [done|].
      intros _. eapply unlock_Inv; [|done..]. by split.
    + rewrite (bind_val _ _ _ _ _ (update_Some _ _ _ _ Ho)).
      destruct (pop_Proc s1 o (rid r) hi request response rest) as [Hro HP']; [by split|done..|].
      set (s2 := set_heap _ s1) in *.
      unfold run_task.
      assert (heap s2 !! o = Some (set_tasks rest hi)) as Ho2
        by by apply (heap_insert_eq _ _ hi).
      rewrite (bind_val _ _ _ _ _ (deref_Some _ _ _ Ho2)).
      rewrite <- Hro in HP'. destruct (hi_h (set_tasks rest hi) <? 0).
      * apply sendStatus_ok; [done | by vm_compute | done].
      * by apply processRequest_ok.
Qed.

Lemma resume_ok send k err v s ow n :
  send_good send -> belongs k ow n -> Proc s ow n ->
  exists s' res, resume send k err v s = (s', res) /\ (res <> NoFuel -> Inv s').
Proof.
  intros Hsend (r & Hk & <- & <-) HP.
  destruct (resume send k err v s) as [s' res] eqn:Hres. exists s', res. split; [done|].
  intros Hne. pose proof (shape_resume send k err v r s Hk) as Hsh. rewrite Hres in Hsh.
  by apply (shapeQ_sound _ _ _ _ _ Hsend Hsh HP).
Qed.

(** *** Every step keeps the invariant *)

Lemma not_belongs_KIgnore ow n : ~ belongs KIgnore ow n.
Proof. by intros (r & ? & _). Qed.

Lemma set_fs_Inv b s : Inv s -> Inv (set_fs b s).
Proof. intros HI. split; try apply HI. apply (WF_ext s); [done..|apply HI]. Qed.

Lemma close_all_eq s : close_all s = foldl close_slot (s, Val tt) (seqZ 0 (MAX_HANDLE_COUNT + 1)).
Proof. reflexivity. Qed.

Lemma close_slot_Inv acc h : Inv acc.1 -> Inv (close_slot acc h).1.
Proof.
  destruct acc as [s [[]| |]]; cbn [close_slot fst]; [|done..]. intros HI.
  destruct (_handles s !! h) as [o|]; [|done].
  destruct (heap s !! o) as [i|] eqn:Hi.
  - rewrite (bind_val _ _ _ _ _ (deref_Some _ _ _ Hi)). apply call_Inv; [done|].
    intros ow n Hb. by destruct (not_belongs_KIgnore _ _ Hb).
  - by rewrite (bind_exn _ _ _ _ (deref_None _ _ Hi)).
Qed.

Lemma close_slot_res acc h : (close_slot acc h).2 = NoFuel -> acc.2 = NoFuel.
Proof.
  destruct acc as [s [[]| |]]; cbn [close_slot snd]; [|done..].
  destruct (_handles s !! h) as [o|]; [|done].
  destruct (heap s !! o) as [i|] eqn:Hi.
  - by rewrite (bind_val _ _ _ _ _ (deref_Some _ _ _ Hi)).
  - by rewrite (bind_exn _ _ _ _ (deref_None _ _ Hi)).
Qed.

Lemma close_all_Inv s : Inv s -> Inv (close_all s).1 /\ (close_all s).2 <> NoFuel.
Proof.
  intros HI. rewrite close_all_eq.
  assert (forall l acc, Inv acc.1 -> acc.2 <> NoFuel ->
            Inv (foldl close_slot acc l).1 /\ (foldl close_slot acc l).2 <> NoFuel) as Hfold.
  { induction l as [|h l IH]; intros acc Hacc Hres; cbn [foldl]; [done|].
    apply IH; [by apply close_slot_Inv|]. intros Hn. by apply close_slot_res in Hn. }
  by apply Hfold.
Qed.

Lemma end_ok s :
  Inv s -> exists s' res, end_ s = (s', res) /\ res <> NoFuel /\ Inv s'.
Proof.
  intros HI. unfold end_. msimpl.
  assert (Inv (emit AChannelClose s)) as HI' by by apply emit_Inv.
  cbn [emit _fs]. destruct (negb (_fs s)).
  { eexists _, (Val tt). done. }
  destruct (close_all_Inv _ HI') as [HI2 Hres].
  destruct (close_all (emit AChannelClose s)) as [s2 [[]| |]] eqn:Hc; cbn in HI2, Hres.
  - rewrite (bind_val _ _ _ _ _ Hc). eexists _, (Val tt).
    split; [done|]. split; [done|]. by apply set_fs_Inv.
  - rewrite (bind_exn _ _ _ _ Hc). eexists _, Exn. done.
  - done.
Qed.

Lemma readHandleInfo_state request s :
  exists res, readHandleInfo request s = (s, res) /\ res <> NoFuel.
Proof.
  unfold readHandleInfo. destruct (readInt32 request) as [[n request1]|]; msimpl.
  2:{ by exists Exn. }
  destruct (negb (n =? 4)); msimpl.
  { by eexists (Val _). }
  destruct (readInt32 request1) as [[h request2]|]; msimpl.
  - by eexists (Val _).
  - by exists Exn.
Qed.

Lemma _process_ok send data s :
  send_good send -> Inv s ->
  exists s' res, _process send data s = (s', res) /\ (res <> NoFuel -> Inv s').
Proof.
  intros Hsend HI. unfold _process. msimpl.
  set (n := next_response s). set (s1 := set_next_response (S n) s).
  assert (Proc s1 None n) as HP by by apply bump_Proc.
  assert (forall r, handleInfo r = None -> rid r = n ->
            exists s' res, send r s1 = (s', res) /\ (res <> NoFuel -> Inv s')) as Hsend1.
  { intros r Hh Hr. destruct (Hsend r s1) as (s' & res & ? & _ & ?).
    - by rewrite Hh, Hr.
    - by exists s', res. }
  destruct (decide (req_type data = INIT)).
  { destruct (readInt32 data) as [[version request]|]; msimpl.
    2:{ exists s1, Exn. split; [done|]. intros _. apply HP. }
    unfold writeInt32. rewrite write_ok by (cbn; unfold capacity; lia). msimpl. by apply Hsend1. }
  destruct (handle_bound (req_type data)).
  2:{ destruct (processRequest_ok send data (set_id (req_id data) (new_SftpResponse n))
                  None s1 Hsend HP) as (s' & res & ? & _ & ?).
      by exists s', res. }
  destruct (readHandleInfo_state data s1) as (res & Hrd & Hres).
  destruct res as [[slot request]| |]; [|rewrite (bind_exn _ _ _ _ Hrd)|done].
  2:{ exists s1, Exn. split; [done|]. intros _. apply HP. }
  rewrite (bind_val _ _ _ _ _ Hrd). destruct slot as [o|].
  2:{ unfold sendStatus. rewrite SftpStatus_write_ok by by vm_compute. msimpl.
      by apply Hsend1. }
  destruct (heap s1 !! o) as [hi|] eqn:Ho.
  2:{ rewrite (bind_exn _ _ _ _ (deref_None _ _ Ho)).
      exists s1, Exn. split; [done|]. intros _. apply HP. }
  rewrite (bind_val _ _ _ _ _ (deref_Some _ _ _ Ho)).
  destruct (hi_locked hi) eqn:Hlk; cbn [negb].
  - rewrite (update_Some _ _ _ _ Ho). eexists _, (Val tt). split; [done|]. intros _.
    by apply (push_Inv s o hi).
  - rewrite (bind_val _ _ _ _ _ (update_Some _ _ _ _ Ho)).
    destruct (processRequest_ok send request
                (set_handleInfo o (set_id (req_id data) (new_SftpResponse n))) (Some o)
                (set_heap (<[o:=set_locked true hi]> (heap s1)) s1) Hsend)
      as (s' & res & ? & _ & ?).
    { by apply (lock_Proc s o hi). }
    by exists s', res.
Qed.

Lemma step_Inv s ev :
  Inv s -> has_fuel (step_res s ev) -> Inv (step s ev).
Proof.
  intros HI. unfold step, has_fuel, step_res.
  pose proof (send_ok (S (total_tasks s))) as Hsend.
  destruct ev as [data|c res| |].
  - unfold on_message, try_catch.
    destruct (_process_ok _ data s Hsend HI) as (s' & r & -> & HI').
    destruct r as [[]| |]; cbn; [by auto| |by auto]. intros _.
    rewrite bind_modify. destruct (end_ok (emit (AEmit "error") s')) as (s2 & r & -> & _ & ?).
    { apply emit_Inv; [done | by apply HI']. }
    done.
  - unfold on_callback. msimpl. destruct (pending s !! c) as [k|] eqn:Hc; [|done].
    destruct (well_typed k res); [|done]. msimpl.
    change (emit (ADone c res) _) with (called_back c res s).
    unfold try_catch. destruct (kresponse k) as [r|] eqn:Hk.
    + destruct (resume_ok (send (S (total_tasks s))) k (fs_err res) (fs_value res)
                  (called_back c res s) (handleInfo r) (rid r) Hsend) as (s' & r' & -> & HI').
      { by exists r. }
      { eapply called_back_Proc; [done..|]. by exists r. }
      destruct r' as [[]| |]; cbn; [by auto| |by auto]. intros _.
      apply emit_Inv; [done | by apply HI'].
    + destruct k; try done. cbn. intros _. by eapply called_back_Inv.
  - unfold on_close. destruct (end_ok s HI) as (s' & r & Hend & Hr & HI').
    destruct r as [[]| |]; [|by rewrite (bind_exn _ _ _ _ Hend)|done].
    rewrite (bind_val _ _ _ _ _ Hend). intros _. by apply emit_Inv.
  - destruct (end_ok s HI) as (s' & r & -> & Hr & HI'). done.
Qed.

(** *** The recursion of [send] never runs out of fuel *)

Lemma total_tasks_view s : total_tasks s = tasks_in (lockview s).
Proof.
  unfold total_tasks, lockview, tasks_in. induction (heap s) as [|i l IH]; cbn; [done|].
  by rewrite IH.
Qed.

Lemma tasks_in_app v w : tasks_in (v ++ w) = (tasks_in v + tasks_in w)%nat.
Proof. unfold tasks_in. induction v as [|p v IH]; cbn; [done|]. rewrite IH. lia. Qed.

Lemma tasks_in_replicate n : tasks_in (replicate n (false, [])) = 0%nat.
Proof. unfold tasks_in. induction n as [|n IH]; cbn; [done|]. by rewrite IH. Qed.

Lemma quiet_total s s' : quiet s s' -> total_tasks s' = total_tasks s.
Proof.
  intros [_ _ _ _ _ [n Hn]].
  rewrite !total_tasks_view, Hn, tasks_in_app, tasks_in_replicate. lia.
Qed.

Lemma tasks_of_app l1 l2 : tasks_of (l1 ++ l2) = (tasks_of l1 + tasks_of l2)%nat.
Proof. unfold tasks_of. induction l1 as [|i l1 IH]; cbn; [done|]. rewrite IH. lia. Qed.

Lemma total_tasks_insert s o hi hi' :
  heap s !! o = Some hi ->
  (total_tasks (set_heap (<[o := hi']> (heap s)) s) + length (hi_tasks hi))%nat
  = (total_tasks s + length (hi_tasks hi'))%nat.
Proof.
  intros Ho. change (total_tasks s) with (tasks_of (heap s)).
  change (total_tasks (set_heap _ s)) with (tasks_of (<[o := hi']> (heap s))).
  rewrite insert_take_drop by by eapply lookup_lt_Some.
  rewrite <- (take_drop_middle _ _ _ Ho) at 3.
  rewrite !tasks_of_app.
  change (tasks_of (hi' :: ?l)) with (length (hi_tasks hi') + tasks_of l)%nat.
  change (tasks_of (hi :: ?l)) with (length (hi_tasks hi) + tasks_of l)%nat.
  lia.
Qed.

Lemma shape_fuel send ow n' n s out :
  send_fuelled n send -> Shape send ow n' s out -> (total_tasks s <= n)%nat ->
  out.2 <> NoFuel /\ (total_tasks out.1 <= total_tasks s)%nat.
Proof.
  intros Hsend Hsh. induction Hsh as
    [s s' res Hq Hres|s s1 op k Hq Hk|s s1 r s2 Hq Hh Hr Hs|s s1 r s2 Hq Hh Hr Hs
    |s s1 r s2 out Hq Hh Hr Hs _ IH]; intros Hn.
  - cbn. by rewrite (quiet_total _ _ Hq).
  - cbn. split; [done|]. by rewrite <- (quiet_total _ _ Hq).
  - cbn. split; [done|]. destruct (Hsend r s1) as [_ Hle].
    + by rewrite (quiet_total _ _ Hq).
    + rewrite Hs in Hle. cbn in Hle. by rewrite <- (quiet_total _ _ Hq).
  - destruct (Hsend r s1) as [Hne _].
    + by rewrite (quiet_total _ _ Hq).
    + by rewrite Hs in Hne.
  - destruct (Hsend r s1) as [_ Hle].
    + by rewrite (quiet_total _ _ Hq).
    + rewrite Hs in Hle. cbn in Hle. rewrite (quiet_total _ _ Hq) in Hle.
      destruct IH as [? ?]; [lia|]. split; [done | lia].
Qed.

Lemma sendStatus_fuel send n r code msg s :
  send_fuelled n send -> (total_tasks s <= n)%nat ->
  (sendStatus send r code msg s).2 <> NoFuel /\
  (total_tasks (sendStatus send r code msg s).1 <= total_tasks s)%nat.
Proof.
  intros Hsend Hn.
  by apply (shape_fuel send _ _ n s _ Hsend (shape_sendStatus send r code msg s)).
Qed.

Lemma processRequest_fuel send n request response hi s :
  send_fuelled n send -> (total_tasks s <= n)%nat ->
  (processRequest send request response hi s).2 <> NoFuel /\
  (total_tasks (processRequest send request response hi s).1 <= total_tasks s)%nat.
Proof.
  intros Hsend Hn. unfold processRequest. msimpl. destruct (negb (_fs s)); [done|].
  unfold try_catch.
  pose proof (shape_fuel send _ _ n s _ Hsend
                (shape_processRequest_body send request response hi s) Hn) as [Hne Hle].
  destruct (processRequest_body send request response hi s) as [s' [[]| |]];
    cbn in Hne, Hle; [done| |done].
  destruct (shape_fuel send _ _ n s' _ Hsend
              (shape_sendError send response caught true s')) as [? ?]; [lia|].
  split; [done | lia].
Qed.

Lemma send_fuel fuel n : (n < fuel)%nat -> send_fuelled n (send fuel).
Proof.
  revert n. induction fuel as [|fuel IH]; intros n Hlt r s Hn; [lia|].
  destruct (handleInfo r) as [o|] eqn:Hh; [|by rewrite send_unbound].
  rewrite (send_bound _ _ _ _ Hh). set (s1 := emit (ASend (finish r)) s).
  change (total_tasks s) with (total_tasks s1) in *. clearbody s1.
  unfold processNext. destruct (heap s1 !! o) as [hi|] eqn:Ho.
  2:{ by rewrite (bind_exn _ _ _ _ (deref_None _ _ Ho)). }
  rewrite (bind_val _ _ _ _ _ (deref_Some _ _ _ Ho)).
  destruct (hi_tasks hi) as [|[request response] rest] eqn:Ht.
  - rewrite (update_Some _ _ _ _ Ho). cbn [fst snd]. split; [done|].
    pose proof (total_tasks_insert s1 o hi (set_locked false hi) Ho) as Heq.
    cbn [hi_tasks set_locked set_tasks] in Heq. lia.
  - rewrite (bind_val _ _ _ _ _ (update_Some _ _ _ _ Ho)).
    pose proof (total_tasks_insert s1 o hi (set_tasks rest hi) Ho) as Heq.
    rewrite Ht in Heq. cbn [hi_tasks set_locked set_tasks length] in Heq.
    set (s2 := set_heap _ s1) in *.
    assert (heap s2 !! o = Some (set_tasks rest hi)) as Ho2
      by by apply (heap_insert_eq _ _ hi).
    assert (send_fuelled (n - 1) (send fuel)) as Hsend by (apply IH; lia).
    assert (total_tasks s2 <= n - 1)%nat as Hn2 by lia.
    unfold run_task. rewrite (bind_val _ _ _ _ _ (deref_Some _ _ _ Ho2)).
    destruct (hi_h (set_tasks rest hi) <? 0).
    + destruct (sendStatus_fuel _ _ response FAILURE "Invalid handle" s2 Hsend Hn2).
      split; [done | lia].
    + destruct (processRequest_fuel _ _ request response (Some o) s2 Hsend Hn2).
      split; [done | lia].
Qed.

Lemma close_all_fuel s : (close_all s).2 <> NoFuel.
Proof.
  rewrite close_all_eq.
  assert (forall l acc, acc.2 <> NoFuel -> (foldl close_slot acc l).2 <> NoFuel) as Hfold.
  { induction l as [|h l IH]; intros acc Hres; cbn [foldl]; [done|].
    apply IH. intros Hn. by apply close_slot_res in Hn. }
  by apply Hfold.
Qed.

Lemma end_fuel s : (end_ s).2 <> NoFuel.
Proof.
  unfold end_. msimpl. destruct (negb (_fs _)); [done|].
  pose proof (close_all_fuel (emit AChannelClose s)) as Hc.
  destruct (close_all (emit AChannelClose s)) as [s2 [[]| |]] eqn:Hcl; cbn in Hc.
  - by rewrite (bind_val _ _ _ _ _ Hcl).
  - by rewrite (bind_exn _ _ _ _ Hcl).
  - done.
Qed.

Lemma _process_fuel send n data s :
  send_fuelled n send -> (total_tasks s <= n)%nat ->
  (_process send data s).2 <> NoFuel.
Proof.
  intros Hsend Hn. unfold _process. msimpl.
  set (s1 := set_next_response _ s).
  change (total_tasks s) with (total_tasks s1) in Hn. clearbody s1.
  destruct (decide (req_type data = INIT)).
  { destruct (readInt32 data) as [[version request]|]; msimpl; [|done].
    destruct (writeInt32 3 _) as [r|]; msimpl; [|done]. by apply Hsend. }
  destruct (handle_bound (req_type data)).
  2:{ by apply (processRequest_fuel send n). }
  destruct (readHandleInfo_state data s1) as (res & Hrd & Hres).
  destruct res as [[slot request]| |]; [|by rewrite (bind_exn _ _ _ _ Hrd)|done].
  rewrite (bind_val _ _ _ _ _ Hrd). destruct slot as [o|].
  2:{ by apply (sendStatus_fuel send n). }
  destruct (heap s1 !! o) as [hi|] eqn:Ho.
  2:{ by rewrite (bind_exn _ _ _ _ (deref_None _ _ Ho)). }
  rewrite (bind_val _ _ _ _ _ (deref_Some _ _ _ Ho)).
  destruct (hi_locked hi) eqn:Hlk; cbn [negb].
  - by rewrite (update_Some _ _ _ _ Ho).
  - rewrite (bind_val _ _ _ _ _ (update_Some _ _ _ _ Ho)).
    apply (processRequest_fuel send n); [done|].
    pose proof (total_tasks_insert s1 o hi (set_locked true hi) Ho) as Heq.
    cbn [hi_tasks set_locked set_tasks] in Heq. lia.
Qed.

Lemma resume_fuel send n k err v s :
  send_fuelled n send -> (total_tasks s <= n)%nat ->
  (resume send k err v s).2 <> NoFuel.
Proof.
  intros Hsend Hn. destruct (kresponse k) as [r|] eqn:Hk.
  - destruct (shape_resume send k err v r s Hk) as [Hsh|(_ & _ & _ & _ & _ & _ & _ & _ & ?)];
      [|done].
    by apply (shape_fuel send _ _ n s _ Hsend Hsh).
  - by destruct k.
Qed.

(** The fuel handed out by [step_res] always suffices. *)
Lemma step_has_fuel s ev : has_fuel (step_res s ev).
Proof.
  unfold has_fuel, step_res.
  assert (send_fuelled (total_tasks s) (send (S (total_tasks s)))) as Hsend
    by (apply send_fuel; lia).
  destruct ev as [data|c res| |].
  - unfold on_message, try_catch.
    pose proof (_process_fuel _ _ data s Hsend (le_n _)) as Hp.
    destruct (_process _ data s) as [s' [[]| |]]; cbn in Hp; [done| |done].
    rewrite bind_modify. apply end_fuel.
  - unfold on_callback. msimpl. destruct (pending s !! c) as [k|]; [|done].
    destruct (well_typed k res); [|done]. msimpl. unfold try_catch.
    pose proof (resume_fuel _ _ k (fs_err res) (fs_value res)
                  (emit (ADone c res) (set_pending (delete c (pending s)) (next_call s) s))
                  Hsend (le_n _)) as Hr.
    by destruct (resume _ k _ _ _) as [s' [[]| |]].
  - unfold on_close. pose proof (end_fuel s) as He.
    destruct (end_ s) as [s' [[]| |]] eqn:Hend; cbn in He.
    + by rewrite (bind_val _ _ _ _ _ Hend).
    + by rewrite (bind_exn _ _ _ _ Hend).
    + done.
  - apply end_fuel.
Qed.

(** *** Reachable states *)

Lemma init_Inv : Inv new_SftpServerSession.
Proof.
  split; cbn; done.
Qed.

Lemma run_Inv evs s : Inv s -> Inv (run evs s).
Proof.
  revert s. induction evs as [|ev evs IH]; intros s HI; cbn; [done|].
  apply IH. apply step_Inv; [done | apply step_has_fuel].
Qed.

Lemma reachable_Inv evs : Inv (run evs new_SftpServerSession).
Proof. apply run_Inv, init_Inv. Qed.

Lemma processNext_eq send o hi s :
  heap s !! o = Some hi ->
  processNext send o s =
  match hi_tasks hi with
  | task :: rest => run_task send o task (set_heap (<[o := set_tasks rest hi]> (heap s)) s)
  | [] => (set_heap (<[o := set_locked false hi]> (heap s)) s, Val tt)
  end.
Proof.
  intros Ho. unfold processNext. rewrite (bind_val _ _ _ _ _ (deref_Some _ _ _ Ho)).
  destruct (hi_tasks hi) as [|task rest].
  - by rewrite (update_Some _ _ _ _ Ho).
  - by rewrite (bind_val _ _ _ _ _ (update_Some _ _ _ _ Ho)).
Qed.


(** ** Errno mapping *)

Lemma errno_switch_table err n :
  errno_switch err n = ((spec_status err n).2, (spec_status err n).1).
Proof.
  unfold errno_switch, spec_status.
  repeat match goal with
  | |- context [Z.eqb n ?k] => destruct (Z.eqb_spec n k) as [->|?]; [reflexivity|]
  end; cbn [orb].
  cbn [status_table table_lookup]. repeat (case_decide; [lia|]). reflexivity.
Qed.

Lemma toInt32_small n : - 2 ^ 31 <= n < 2 ^ 31 -> toInt32 n = n.
Proof. intros Hn. unfold toInt32. rewrite Z.mod_small; lia. Qed.

(** C6 (as amended). Errno mapping.  The exception built from a backend
    error carries the error's errno converted to a signed 32-bit integer
    ([errno | 0]; an absent errno counts as 0), and its code and message
    are those the status table gives for that number: the listed errnos
    get their row, every other number is [FAILURE] with the generic
    message, or with the error's own message when the error is marked
    public.  An errno within the 32-bit range is taken as it is. *)
Theorem errno_mapping (err : ErrnoException) :
  let e := new_SftpException err in
  exn_errno e = toInt32 (default 0 (err_errno err)) /\
  (exn_code e, exn_message e) = spec_status err (exn_errno e) /\
  (forall n, err_errno err = Some n -> - 2 ^ 31 <= n < 2 ^ 31 -> exn_errno e = n).
Proof.
  cbv zeta. unfold new_SftpException. rewrite errno_switch_table. cbn.
  split; [done|]. split; [by destruct (spec_status _ _)|].
  intros n -> Hn. by apply toInt32_small.
Qed.

(** ** Rejection at dispatch *)

(** C10. A handle-bound request whose handle length is not 4, or whose
    handle names an empty slot, is answered with [FAILURE] "Invalid handle"
    and nothing else happens: the handle infos (locks, queues and all), the
    handle table and the pending callbacks are what they were, and the only
    thing added to the trace is the status packet. *)
Theorem invalid_handle_frame (s : SftpServerSession) (data : SftpPacketReader)
    (n : Z) (rest : list Field) :
  handle_bound (req_type data) = true ->
  req_fields data = FInt32 n :: rest ->
  (n <> 4 \/ exists h rest', rest = FInt32 h :: rest' /\ _handles s !! h = None) ->
  let s' := step s (EvMessage data) in
  let response := set_id (req_id data) (new_SftpResponse (next_response s)) in
  heap s' = heap s /\ _handles s' = _handles s /\ pending s' = pending s /\
  nextHandle s' = nextHandle s /\ _fs s' = _fs s /\
  handleInfo (status_response response FAILURE "Invalid handle") = None /\
  trace s' = trace s ++ [ASend (finish (status_response response FAILURE "Invalid handle"))].
Proof.
  intros Hb Hf Hn.
  assert (step s (EvMessage data) =
          emit (ASend (finish (status_response
                 (set_id (req_id data) (new_SftpResponse (next_response s)))
                 FAILURE "Invalid handle")))
               (set_next_response (S (next_response s)) s)) as Hstep.
  { unfold step, step_res, on_message, try_catch, _process. msimpl.
    destruct (decide (req_type data = INIT)) as [Hi|_].
    { rewrite Hi in Hb. done. }
    rewrite Hb. unfold readHandleInfo, readInt32. rewrite Hf. msimpl.
    assert (forall s0, sendStatus (send (S (total_tasks s)))
              (set_id (req_id data) (new_SftpResponse (next_response s)))
              FAILURE "Invalid handle" s0
            = (emit (ASend (finish (status_response
                 (set_id (req_id data) (new_SftpResponse (next_response s)))
                 FAILURE "Invalid handle"))) s0, Val tt)) as Hsend.
    { intros s0. unfold sendStatus. rewrite SftpStatus_write_ok by by vm_compute.
      msimpl. by rewrite send_unbound. }
    destruct Hn as [Hn|(h & rest' & -> & Hh)].
    - destruct (Z.eqb_spec n 4); [done|]. cbn [negb]. msimpl. by rewrite Hsend.
    - destruct (Z.eqb_spec n 4); cbn [negb]; msimpl.
      + cbn [advance req_fields]. msimpl.
        change (_handles (set_next_response _ s)) with (_handles s). rewrite Hh.
        by rewrite Hsend.
      + by rewrite Hsend. }
  cbv zeta. rewrite Hstep. done.
Qed.

(** ** Handle allocation *)

Lemma createHandleInfo_loop_scan n h s :
  createHandleInfo_loop n h s =
  match scan n h (_handles s) with
  | Some h' => (allocate h' s, Val (Some (length (heap s))))
  | None => (s, Val None)
  end.
Proof.
  revert h. induction n as [|n IH]; intros h; cbn [createHandleInfo_loop scan]; [done|].
  msimpl. destruct (_handles s !! h); [apply IH | done].
Qed.

Lemma scan_Some n h m h' :
  scan n h m = Some h' ->
  exists k, (k < n)%nat /\ h' = Nat.iter k next_slot h /\ m !! h' = None /\
            forall j, (j < k)%nat -> is_Some (m !! Nat.iter j next_slot h).
Proof.
  revert h. induction n as [|n IH]; intros h; cbn [scan]; [done|].
  destruct (m !! h) eqn:Hh.
  - intros (k & Hk & -> & Hfree & Hocc)%IH. exists (S k).
    pose proof (fun j => eq_sym (Nat.iter_succ_r j next_slot h)) as Hit.
    split; [lia|]. split; [by rewrite Hit|]. split; [done|].
    intros [|j] Hj; [cbn; by rewrite Hh|].
    rewrite <- (Hit j). apply Hocc. lia.
  - intros [= <-]. exists 0%nat. split; [lia|]. split; [done|]. split; [done|].
    intros j Hj. lia.
Qed.

Lemma scan_None n h m :
  scan n h m = None ->
  forall k, (k < n)%nat -> is_Some (m !! Nat.iter k next_slot h).
Proof.
  revert h. induction n as [|n IH]; intros h; cbn [scan]; [intros _ k Hk; lia|].
  destruct (m !! h) eqn:Hh; [|done]. intros Hs [|k] Hk; [cbn; by rewrite Hh|].
  pose proof (fun j => eq_sym (Nat.iter_succ_r j next_slot h)) as Hit.
  rewrite <- (Hit k). apply IH; [done | lia].
Qed.

Lemma next_slot_mod h :
  1 <= h <= MAX_HANDLE_COUNT -> next_slot h = h mod MAX_HANDLE_COUNT + 1.
Proof.
  intros Hh. unfold next_slot. rewrite Z.rem_mod_nonneg; [done | lia | done].
Qed.

Lemma iter_next_slot k h :
  1 <= h <= MAX_HANDLE_COUNT ->
  Nat.iter k next_slot h = (h - 1 + Z.of_nat k) mod MAX_HANDLE_COUNT + 1.
Proof.
  intros Hh. induction k as [|k IH].
  - change (Nat.iter 0 next_slot h) with h. change (Z.of_nat 0) with 0.
    rewrite Z.add_0_r, Z.mod_small; unfold MAX_HANDLE_COUNT in *; lia.
  - change (Nat.iter (S k) next_slot h) with (next_slot (Nat.iter k next_slot h)).
    rewrite IH.
    assert (0 <= (h - 1 + Z.of_nat k) mod MAX_HANDLE_COUNT < MAX_HANDLE_COUNT) as Hm
      by (apply Z.mod_pos_bound; done).
    rewrite next_slot_mod by lia.
    replace (h - 1 + Z.of_nat (S k)) with ((h - 1 + Z.of_nat k) + 1) by lia.
    set (x := h - 1 + Z.of_nat k) in *.
    rewrite (Z.add_mod x 1) by done.
    rewrite (Z.mod_small 1) by done.
    destruct (decide (x mod MAX_HANDLE_COUNT + 1 = MAX_HANDLE_COUNT)) as [Heq|Hne].
    + rewrite Heq, Z.mod_same by done. done.
    + rewrite (Z.mod_small (x mod MAX_HANDLE_COUNT + 1)) by lia. done.
Qed.

Lemma iter_next_slot_range k h :
  1 <= h <= MAX_HANDLE_COUNT -> 1 <= Nat.iter k next_slot h <= MAX_HANDLE_COUNT.
Proof.
  intros Hh. rewrite iter_next_slot by done.
  pose proof (Z.mod_pos_bound (h - 1 + Z.of_nat k) MAX_HANDLE_COUNT). lia.
Qed.

(** From any cursor, the scan meets every slot of the table. *)
Lemma scan_reaches h x :
  1 <= h <= MAX_HANDLE_COUNT -> 1 <= x <= MAX_HANDLE_COUNT ->
  exists k, (k < Z.to_nat MAX_HANDLE_COUNT)%nat /\ Nat.iter k next_slot h = x.
Proof.
  intros Hh Hx. exists (Z.to_nat ((x - h) mod MAX_HANDLE_COUNT)).
  pose proof (Z.mod_pos_bound (x - h) MAX_HANDLE_COUNT) as Hb. split; [lia|].
  rewrite iter_next_slot by done. rewrite Z2Nat.id by lia.
  rewrite Zplus_mod_idemp_r. replace (h - 1 + (x - h)) with (x - 1) by lia.
  rewrite Z.mod_small; unfold MAX_HANDLE_COUNT in *; lia.
Qed.

(** What [createHandleInfo] does.  With a free slot in the table it fills
    the first free slot met from the cursor on (index within 1..512, fresh
    unlocked info, cursor moved to the slot after it); with all slots taken
    it returns [null] and changes nothing. *)
Lemma createHandleInfo_spec s :
  1 <= nextHandle s <= MAX_HANDLE_COUNT ->
  (exists h k,
      (k < Z.to_nat MAX_HANDLE_COUNT)%nat /\ h = Nat.iter k next_slot (nextHandle s) /\
      1 <= h <= MAX_HANDLE_COUNT /\ _handles s !! h = None /\
      (forall j, (j < k)%nat -> is_Some (_handles s !! Nat.iter j next_slot (nextHandle s))) /\
      createHandleInfo s = (allocate h s, Val (Some (length (heap s)))))
  \/ ((forall x, 1 <= x <= MAX_HANDLE_COUNT -> is_Some (_handles s !! x)) /\
      createHandleInfo s = (s, Val None)).
Proof.
  intros Hn. unfold createHandleInfo. msimpl. rewrite createHandleInfo_loop_scan.
  destruct (scan _ _ _) as [h|] eqn:Hs.
  - left. apply scan_Some in Hs as (k & Hk & -> & Hfree & Hocc).
    exists (Nat.iter k next_slot (nextHandle s)), k.
    split; [done|]. split; [done|]. split; [by apply iter_next_slot_range|]. done.
  - right. split; [|done]. intros x Hx.
    destruct (scan_reaches _ _ Hn Hx) as (k & Hk & <-). by eapply scan_None.
Qed.

Lemma createHandleInfo_full s :
  1 <= nextHandle s <= MAX_HANDLE_COUNT ->
  (forall x, 1 <= x <= MAX_HANDLE_COUNT -> is_Some (_handles s !! x)) ->
  createHandleInfo s = (s, Val None).
Proof.
  intros Hn Hfull. destruct (createHandleInfo_spec s Hn) as [(h & k & _ & _ & Hh & Hfree & _)|[_ ?]];
    [|done].
  destruct (Hfull h Hh) as [o Ho]. congruence.
Qed.

Lemma createHandleInfo_free s x :
  1 <= nextHandle s <= MAX_HANDLE_COUNT ->
  1 <= x <= MAX_HANDLE_COUNT -> _handles s !! x = None ->
  exists h, 1 <= h <= MAX_HANDLE_COUNT /\ _handles s !! h = None /\
            createHandleInfo s = (allocate h s, Val (Some (length (heap s)))).
Proof.
  intros Hn Hx Hfree.
  destruct (createHandleInfo_spec s Hn) as [(h & k & _ & _ & Hh & Hf & _ & Hc)|[Hfull _]].
  - by exists h.
  - destruct (Hfull x Hx) as [o Ho]. congruence.
Qed.

(** ** Teardown *)

Lemma slots_of_cons s h l :
  slots_of s (h :: l) =
  match _handles s !! h ≫= (fun o => hi_handle <$> heap s !! o) with
  | Some b => b :: slots_of s l
  | None => slots_of s l
  end.
Proof. reflexivity. Qed.

Lemma close_fold l s :
  (forall h o, _handles s !! h = Some o -> is_Some (heap s !! o)) ->
  exists s',
    foldl close_slot (s, Val tt) l = (s', Val tt) /\
    heap s' = heap s /\ _handles s' = _handles s /\ nextHandle s' = nextHandle s /\
    _fs s' = _fs s /\ next_response s' = next_response s /\
    trace s' = trace s ++ close_calls (next_call s) (slots_of s l).
Proof.
  revert s. induction l as [|h l IH]; intros s Hvalid; cbn [foldl].
  - exists s. rewrite app_nil_r. done.
  - cbn [close_slot]. rewrite slots_of_cons.
    destruct (_handles s !! h) as [o|] eqn:Hslot; cbn [mbind option_bind].
    + destruct (Hvalid _ _ Hslot) as [hi Ho]. rewrite Ho. cbn [fmap option_fmap option_map].
      rewrite (bind_val _ _ _ _ _ (deref_Some _ _ _ Ho)). rewrite call_eq.
      set (s1 := emit _ _).
      destruct (IH s1) as (s' & -> & Hh & Ht & Hn & Hf & Hr & Htr); [done|].
      exists s'. split; [done|]. rewrite Hh, Ht, Hn, Hf, Hr, Htr.
      repeat (split; [done|]). cbn [close_calls]. unfold s1. cbn [emit trace next_call set_pending].
      rewrite <- app_assoc. done.
    + apply IH. done.
Qed.

Lemma close_all_spec s :
  WF s ->
  exists s',
    close_all s = (s', Val tt) /\
    heap s' = heap s /\ _handles s' = _handles s /\ nextHandle s' = nextHandle s /\
    _fs s' = _fs s /\ next_response s' = next_response s /\
    trace s' = trace s ++ close_calls (next_call s) (open_slots s).
Proof.
  intros Hwf. rewrite close_all_eq. apply close_fold.
  intros h o Hslot. destruct (wf_slot _ Hwf _ _ Hslot) as (_ & hi & ? & _). by exists hi.
Qed.

Lemma end_spec s :
  WF s ->
  exists s1,
    end_ s = (s1, Val tt) /\
    _fs s1 = false /\ heap s1 = heap s /\ _handles s1 = _handles s /\
    nextHandle s1 = nextHandle s /\
    trace s1 = trace s ++ AChannelClose ::
                 (if _fs s then close_calls (next_call s) (open_slots s) else []).
Proof.
  intros Hwf. unfold end_. rewrite bind_modify, bind_gets.
  change (_fs (emit AChannelClose s)) with (_fs s).
  destruct (_fs s) eqn:Hfs; cbn [negb].
  2:{ eexists. split; [reflexivity|]. done. }
  destruct (close_all_spec (emit AChannelClose s)) as (s' & Hc & Hh & Ht & Hn & Hf & Hr & Htr).
  { by apply (WF_ext s). }
  rewrite (bind_val _ _ _ _ _ Hc). eexists. split; [reflexivity|].
  change (trace (set_fs false s')) with (trace s').
  change (heap (set_fs false s')) with (heap s').
  change (_handles (set_fs false s')) with (_handles s').
  change (nextHandle (set_fs false s')) with (nextHandle s').
  rewrite Hh, Ht, Hn, Htr.
  change (trace (emit AChannelClose s)) with (trace s ++ [AChannelClose]).
  rewrite <- app_assoc. done.
Qed.

Lemma processRequest_disposed send request response hi s :
  _fs s = false -> processRequest send request response hi s = (s, Val tt).
Proof. intros Hfs. unfold processRequest. msimpl. by rewrite Hfs. Qed.

Lemma end_disposed s : _fs s = false -> end_ s = (emit AChannelClose s, Val tt).
Proof. intros Hfs. unfold end_. msimpl. cbn [emit _fs]. by rewrite Hfs. Qed.

(** Once the filesystem reference is gone, a message makes no backend
    call: it may still be answered ([VERSION], "Invalid handle"), lock a
    handle or be queued. *)
Lemma process_disposed s data :
  _fs s = false ->
  let s' := step s (EvMessage data) in
  exists acts,
    trace s' = trace s ++ acts /\ Forall (fun a => is_call a = false) acts /\
    pending s' = pending s /\ _fs s' = false.
Proof.
  intros Hfs. unfold step, step_res, on_message, try_catch, _process. msimpl.
  set (n := next_response s). set (s1 := set_next_response (S n) s).
  set (fuel := S (total_tasks s)).
  assert (forall s0, _fs s0 = false -> trace s0 = trace s -> pending s0 = pending s ->
            exists acts, trace ((modify (emit (AEmit "error")) ≫= fun _ => end_) s0).1
                         = trace s ++ acts /\
                         Forall (fun a => is_call a = false) acts /\
                         pending ((modify (emit (AEmit "error")) ≫= fun _ => end_) s0).1
                         = pending s /\
                         _fs ((modify (emit (AEmit "error")) ≫= fun _ => end_) s0).1 = false)
    as Hcatch.
  { intros s0 Hf0 Ht0 Hp0. rewrite bind_modify, end_disposed by done. cbn.
    exists [AEmit "error"; AChannelClose]. rewrite Ht0, <- app_assoc.
    split; [done|]. split; [by repeat constructor|]. done. }
  assert (forall r, handleInfo r = None ->
            exists acts, trace (send fuel r s1).1 = trace s ++ acts /\
                         Forall (fun a => is_call a = false) acts /\
                         pending (send fuel r s1).1 = pending s /\
                         _fs (send fuel r s1).1 = false /\ (send fuel r s1).2 = Val tt)
    as Hsend.
  { intros r Hr. rewrite send_unbound by done. cbn. exists [ASend (finish r)].
    split; [done|]. split; [by repeat constructor|]. done. }
  assert (exists acts, trace s1 = trace s ++ acts /\
            Forall (fun a => is_call a = false) acts /\ pending s1 = pending s /\
            _fs s1 = false) as Hsame.
  { exists []. rewrite app_nil_r. done. }
  destruct (decide (req_type data = INIT)).
  { destruct (readInt32 data) as [[version request]|]; msimpl; [|by apply Hcatch].
    destruct (writeInt32 3 _) as [r|] eqn:Hw; msimpl; [|by apply Hcatch].
    destruct (Hsend r) as (acts & ? & ? & ? & ? & Hres).
    { apply write_meta in Hw as (_ & -> & _). done. }
    destruct (send fuel r s1) as [s' res]. cbn in *. subst res. by exists acts. }
  destruct (handle_bound (req_type data)).
  2:{ by rewrite processRequest_disposed. }
  destruct (readHandleInfo_state data s1) as (res & Hrd & Hres).
  destruct res as [[slot request]| |]; [|rewrite (bind_exn _ _ _ _ Hrd); by apply Hcatch|done].
  rewrite (bind_val _ _ _ _ _ Hrd). destruct slot as [o|].
  2:{ unfold sendStatus. rewrite SftpStatus_write_ok by by vm_compute. msimpl.
      destruct (Hsend (status_response (set_id (req_id data) (new_SftpResponse n))
                         FAILURE "Invalid handle")) as (acts & ? & ? & ? & ? & Hres'); [done|].
      destruct (send fuel _ s1) as [s' res]. cbn in *. subst res. by exists acts. }
  destruct (heap s1 !! o) as [hi|] eqn:Ho.
  2:{ rewrite (bind_exn _ _ _ _ (deref_None _ _ Ho)). by apply Hcatch. }
  rewrite (bind_val _ _ _ _ _ (deref_Some _ _ _ Ho)).
  destruct (hi_locked hi); cbn [negb].
  - rewrite (update_Some _ _ _ _ Ho). cbn. exists []. rewrite app_nil_r. done.
  - rewrite (bind_val _ _ _ _ _ (update_Some _ _ _ _ Ho)).
    rewrite processRequest_disposed by done. cbn. exists []. rewrite app_nil_r. done.
Qed.

(** ** Oversize packets *)

Lemma finish_status r code msg :
  finish (status_response r code msg) = status_packet (res_id r) code msg.
Proof. reflexivity. Qed.

Lemma set_locked_round hi :
  hi_locked hi = false -> set_locked false (set_locked true hi) = hi.
Proof. destruct hi. cbn. by intros ->. Qed.

Lemma readHandleInfo_read data h rest s :
  req_fields data = FInt32 4 :: FInt32 h :: rest ->
  readHandleInfo data s =
  (s, Val (_handles s !! h, advance (advance data 4 (FInt32 h :: rest)) 4 rest)).
Proof.
  intros Hf. unfold readHandleInfo, readInt32. rewrite Hf. msimpl.
  change (4 =? 4) with true. cbn [negb advance req_fields]. by msimpl.
Qed.

Lemma oversize_body send request response hi s :
  req_length request > 66000 ->
  processRequest_body send request response hi s =
  send (status_response response BAD_MESSAGE "Packet too long") s.
Proof.
  intros Hlen. unfold processRequest_body.
  destruct (Z.gtb_spec (req_length request) 66000); [|lia].
  unfold sendStatus. by rewrite SftpStatus_write_ok by by vm_compute.
Qed.

(** ** READ *)

Lemma try_catch_val (m handler : M unit) s s' :
  m s = (s', Val tt) -> try_catch m handler s = (s', Val tt).
Proof. unfold try_catch. by intros ->. Qed.

(** ** READDIR *)



Lemma writeItem_Some r item r' :
  writeItem r item = Some r' ->
  res_position r + item_size item <= capacity /\
  r' = set_buffer (res_position r + item_size item) (res_fields r ++ item_fields item) r.
Proof.
  unfold writeItem, writeString, writeAttributes.
  destruct (write (FString (filename item)) r) as [r1|] eqn:H1; [|done].
  apply write_Some in H1 as [_ ->]. cbn [mbind option_bind].
  destruct (write (FString (item_longname item)) _) as [r2|] eqn:H2; [|done].
  apply write_Some in H2 as [_ ->]. cbn [mbind option_bind].
  intros [Hc ->]%write_Some. cbn in Hc |- *. unfold item_size, item_fields.
  split; [lia|]. unfold set_buffer. cbn. f_equal; [lia|]. by rewrite <- !app_assoc.
Qed.


Lemma fits_fields r l r' :
  fits r l r' ->
  res_fields r' = res_fields r ++ flat_map item_fields l /\
  rid r' = rid r /\ handleInfo r' = handleInfo r /\ res_type r' = res_type r /\
  res_id r' = res_id r /\ (l <> [] -> res_position r' <= 0x7000).
Proof.
  revert r. induction l as [|item l IH]; intros r; cbn [fits flat_map].
  - intros ->. by rewrite app_nil_r.
  - intros (r1 & Hw & Hp & Hfit). apply writeItem_Some in Hw as [_ ->].
    destruct (IH _ Hfit) as (-> & -> & -> & -> & -> & Hpos). cbn.
    rewrite <- app_assoc. repeat (split; [done|]). intros _.
    destruct l; [|by apply Hpos]. cbn in Hfit. by subst r'.
Qed.


Lemma patchInt32_head pos v z fs :
  patchInt32 pos (FInt32 z :: fs) pos v = FInt32 v :: fs.
Proof. cbn. by rewrite Z.eqb_refl. Qed.



(** ** Capacity of the response buffer *)



(** ** OPEN *)

Lemma sendStatus_unbound fuel r code msg s :
  handleInfo r = None -> string_size msg <= capacity - 17 ->
  sendStatus (send fuel) r code msg s =
  (emit (ASend (status_packet (res_id r) code msg)) s, Val tt).
Proof.
  intros Hr Hm. unfold sendStatus. rewrite SftpStatus_write_ok by done. msimpl.
  by rewrite send_unbound.
Qed.

Lemma sendError_unbound fuel r e s :
  handleInfo r = None ->
  string_size (exn_message (new_SftpException e)) <= capacity - 17 ->
  sendError (send fuel) r e false s =
  (emit (ASend (status_packet (res_id r) (exn_code (new_SftpException e))
                  (exn_message (new_SftpException e)))) s, Val tt).
Proof.
  intros Hr Hm. unfold sendError. cbn [negb]. rewrite SftpStatus_write_ok by done. msimpl.
  by rewrite send_unbound.
Qed.

Lemma sendHandle_unbound fuel r o hi s :
  handleInfo r = None -> heap s !! o = Some hi ->
  sendHandle (send fuel) r o s =
  (emit (ASend (handle_packet (res_id r) (hi_h hi))) s, Val tt).
Proof.
  intros Hr Ho. unfold sendHandle, writeInt32.
  rewrite write_ok by (cbn; unfold capacity; lia). msimpl.
  rewrite (bind_val _ _ _ _ _ (deref_Some _ _ _ Ho)).
  rewrite write_ok by (cbn; unfold capacity; lia). msimpl.
  by rewrite send_unbound.
Qed.

(** * Further properties of the session *)

(** ** The handle table in reachable states *)

(** X1. The handle table of every reachable state is well-formed: the
    cursor [nextHandle] lies within 1..512; every filled slot has an index
    within 1..512 and holds a handle info that carries that index, so at
    most 512 handles are open at a time; a handle info is either a
    tombstone ([h = -1]) or sits in the slot it names; and no handle info
    sits in two slots. *)
Theorem handle_table_invariant (evs : list Event) :
  let s := run evs new_SftpServerSession in
  1 <= nextHandle s <= MAX_HANDLE_COUNT /\
  (forall h o, _handles s !! h = Some o ->
     1 <= h <= MAX_HANDLE_COUNT /\ exists hi, heap s !! o = Some hi /\ hi_h hi = h) /\
  (size (_handles s) <= 512)%nat /\
  (forall o hi, heap s !! o = Some hi ->
     hi_h hi = -1 \/ _handles s !! hi_h hi = Some o) /\
  (forall h1 h2 o, _handles s !! h1 = Some o -> _handles s !! h2 = Some o -> h1 = h2).
Proof.
  cbv zeta. destruct (inv_wf _ (reachable_Inv evs)) as [Hslot Hinfo Hnext].
  split; [done|]. split; [done|]. split; [|split; [done|]].
  - rewrite <- size_dom.
    transitivity (size (list_to_set (C := gset Z) (seqZ 1 512))).
    + apply subseteq_size. intros h [o Ho]%elem_of_dom.
      destruct (Hslot _ _ Ho) as [Hr _]. unfold MAX_HANDLE_COUNT in Hr.
      apply elem_of_list_to_set, elem_of_seqZ. lia.
    + rewrite size_list_to_set by apply NoDup_seqZ. by rewrite length_seqZ.
  - intros h1 h2 o H1 H2.
    destruct (Hslot _ _ H1) as (_ & hi1 & Ho1 & <-).
    destruct (Hslot _ _ H2) as (_ & hi2 & Ho2 & <-). congruence.
Qed.

(** X2. Lock and queue of a handle info in every reachable state: an
    unlocked handle info has an empty queue; the queued tasks carry
    responses bound to the handle info they are queued on, in the order
    the requests arrived; a pending backend callback for a handle-bound
    response means the handle info is locked; and at most one such callback
    is pending per handle info. *)
Theorem lock_discipline (evs : list Event) :
  let s := run evs new_SftpServerSession in
  (forall o hi, heap s !! o = Some hi -> hi_locked hi = false -> hi_tasks hi = []) /\
  (forall o hi, heap s !! o = Some hi ->
     Forall (fun t => handleInfo t.2 = Some o) (hi_tasks hi) /\
     StronglySorted (fun t1 t2 => (rid t1.2 < rid t2.2)%nat) (hi_tasks hi)) /\
  (forall c k o n, pending s !! c = Some k -> belongs k (Some o) n ->
     exists hi, heap s !! o = Some hi /\ hi_locked hi = true) /\
  (forall c1 c2 k1 k2 o n1 n2,
     pending s !! c1 = Some k1 -> pending s !! c2 = Some k2 ->
     belongs k1 (Some o) n1 -> belongs k2 (Some o) n2 -> c1 = c2).
Proof.
  cbv zeta. pose proof (reachable_Inv evs) as HI. split; [|split; [|split]].
  - apply HI.
  - intros o hi Ho. destruct (inv_tasks _ HI o hi Ho) as [Hall Hsort]. split; [|done].
    eapply Forall_impl; [exact Hall|]. by intros t [? _].
  - apply HI.
  - apply HI.
Qed.

(** X3. [createHandleInfo] with the cursor within 1..512: it takes the
    first free slot met from the cursor on, going round from 512 to 1
    (every slot met before it is filled), puts a fresh handle info there and
    moves the cursor to the slot after it; when all 512 slots are filled it
    returns [null] and changes nothing. *)
Theorem allocation_scans_from_cursor (s : SftpServerSession) :
  1 <= nextHandle s <= MAX_HANDLE_COUNT ->
  (exists h k,
      (k < 512)%nat /\ h = Nat.iter k next_slot (nextHandle s) /\
      1 <= h <= MAX_HANDLE_COUNT /\ _handles s !! h = None /\
      (forall j, (j < k)%nat -> is_Some (_handles s !! Nat.iter j next_slot (nextHandle s))) /\
      createHandleInfo s =
        (set_nextHandle (next_slot h)
           (set_handles (<[h := length (heap s)]> (_handles s))
              (set_heap (heap s ++ [new_SftpHandleInfo h]) s)),
         Val (Some (length (heap s)))))
  \/ ((forall x, 1 <= x <= MAX_HANDLE_COUNT -> is_Some (_handles s !! x)) /\
      createHandleInfo s = (s, Val None)).
Proof.
  intros Hn. destruct (createHandleInfo_spec s Hn) as [(h & k & Hk & ? & ? & ? & ? & ?)|?];
    [left|by right].
  exists h, k. split; [|done].
  change 512%nat with (Z.to_nat MAX_HANDLE_COUNT). exact Hk.
Qed.

Lemma iter_back k h :
  1 <= h <= MAX_HANDLE_COUNT -> (k < Z.to_nat MAX_HANDLE_COUNT)%nat ->
  Nat.iter k next_slot (next_slot h) = h -> k = 511%nat.
Proof.
  intros Hh Hk. rewrite iter_next_slot by by apply next_in_range.
  unfold next_slot. unfold MAX_HANDLE_COUNT in *.
  rewrite Z.rem_mod_nonneg by lia. intros Heq.
  Z.to_euclidean_division_equations. lia.
Qed.

(** X4. Allocating a handle and freeing it again, from a reachable state:
    the table is what it was, the handle info stays behind as a tombstone,
    and the cursor has moved past the freed slot.  Freeing it a second time
    does nothing.  The next allocation therefore does not hand out the
    index just freed as long as another slot is free. *)
Theorem allocate_then_free (evs : list Event) (s1 : SftpServerSession) (o : nat) :
  let s := run evs new_SftpServerSession in
  createHandleInfo s = (s1, Val (Some o)) ->
  exists h s2,
    1 <= h <= MAX_HANDLE_COUNT /\ _handles s !! h = None /\ _handles s1 !! h = Some o /\
    deleteHandleInfo o s1 = (s2, Val tt) /\
    _handles s2 = _handles s /\
    heap s2 = heap s ++ [set_h (-1) (new_SftpHandleInfo h)] /\
    nextHandle s2 = next_slot h /\
    deleteHandleInfo o s2 = (s2, Val tt) /\
    ((exists x, 1 <= x <= MAX_HANDLE_COUNT /\ x <> h /\ _handles s !! x = None) ->
     exists h' s3 o', h' <> h /\ createHandleInfo s2 = (s3, Val (Some o')) /\
                      _handles s3 !! h' = Some o').
Proof.
  cbv zeta. set (s := run evs new_SftpServerSession). intros Hc.
  pose proof (inv_wf _ (reachable_Inv evs)) as Hwf. fold s in Hwf.
  destruct (createHandleInfo_spec s (wf_next _ Hwf))
    as [(h & k & _ & _ & Hh & Hfree & _ & Hc')|[_ Hc']]; rewrite Hc' in Hc; [|done].
  injection Hc as <- <-.
  assert (heap (allocate h s) !! length (heap s) = Some (new_SftpHandleInfo h)) as Ho.
  { cbn. rewrite lookup_app_r by done. by rewrite Nat.sub_diag. }
  assert (_handles (allocate h s) !! h = Some (length (heap s))) as Hslot.
  { cbn. apply lookup_insert_eq. }
  pose proof (deleteHandleInfo_live _ _ _ Ho ltac:(cbn; lia) Hslot) as Hd.
  set (s2 := release (length (heap s)) (new_SftpHandleInfo h) (allocate h s)) in *.
  assert (_handles s2 = _handles s) as Htab.
  { cbn. rewrite delete_insert_eq. by apply delete_id. }
  assert (heap s2 = heap s ++ [set_h (-1) (new_SftpHandleInfo h)]) as Hheap.
  { cbn. rewrite insert_app_r_alt by done. by rewrite Nat.sub_diag. }
  assert (nextHandle s2 = next_slot h) as Hcur by done.
  exists h, s2. repeat split; try done; try apply Hh.
  - eapply deleteHandleInfo_tombstone; [|].
    + rewrite Hheap. rewrite lookup_app_r by done. by rewrite Nat.sub_diag.
    + cbn. lia.
  - intros (x & Hx & Hne & Hxfree).
    assert (1 <= nextHandle s2 <= MAX_HANDLE_COUNT) as Hn2.
    { rewrite Hcur. by apply next_in_range. }
    destruct (createHandleInfo_spec s2 Hn2)
      as [(h' & k' & Hk' & Hh'eq & Hh' & Hfree' & Hocc & Hc2)|[Hfull _]].
    + exists h', (allocate h' s2), (length (heap s2)). split; [|split; [done|]].
      * intros Heq. rewrite Hcur, Heq in Hh'eq. symmetry in Hh'eq.
        pose proof Hh'eq as Hit. apply iter_back in Hh'eq; [|done..]. subst k'.
        destruct (scan_reaches (next_slot h) x) as (j & Hj & Hjx);
          [by apply next_in_range | done |].
        assert (j <> 511%nat) as Hj511.
        { intros ->. rewrite Hit in Hjx. congruence. }
        destruct (Hocc j) as [? Hsome].
        { unfold MAX_HANDLE_COUNT in Hj. lia. }
        rewrite Hcur, Hjx, Htab in Hsome. congruence.
      * cbn. apply lookup_insert_eq.
    + destruct (Hfull x Hx) as [? Hsome]. rewrite Htab in Hsome. congruence.
Qed.

(** X5. [deleteHandleInfo] in a reachable state never throws ("Handle not
    found" is not reached): it turns the handle info into a tombstone and
    empties its slot, the other slots staying as they are, and a second
    call on the same handle info does nothing. *)
Theorem deleteHandleInfo_total (evs : list Event) (o : nat) (hi : SftpHandleInfo) :
  let s := run evs new_SftpServerSession in
  heap s !! o = Some hi ->
  exists s',
    deleteHandleInfo o s = (s', Val tt) /\
    heap s' !! o = Some (set_h (-1) hi) /\
    (forall h, _handles s' !! h = if decide (h = hi_h hi) then None else _handles s !! h) /\
    deleteHandleInfo o s' = (s', Val tt).
Proof.
  cbv zeta. set (s := run evs new_SftpServerSession). intros Ho.
  pose proof (inv_wf _ (reachable_Inv evs)) as Hwf. fold s in Hwf.
  destruct (wf_info _ Hwf _ _ Ho) as [Hdead|Hlive].
  - exists s. rewrite (deleteHandleInfo_tombstone _ _ _ Ho) by lia.
    repeat split; try done.
    + rewrite Ho. f_equal. destruct hi. cbn in *. by subst.
    + intros h. case_decide as Hh; [|done]. subst h.
      destruct (_handles s !! hi_h hi) as [o'|] eqn:Hs; [|done].
      destruct (wf_slot _ Hwf _ _ Hs) as [? _]. lia.
  - destruct (wf_slot _ Hwf _ _ Hlive) as [Hr _].
    exists (release o hi s). rewrite (deleteHandleInfo_live _ _ _ Ho) by (done || lia).
    assert (heap (release o hi s) !! o = Some (set_h (-1) hi)) as Ho'.
    { cbn. by apply (heap_insert_eq _ _ hi). }
    repeat split; try done.
    + intros h. cbn. case_decide as Hh.
      * subst. apply lookup_delete_eq.
      * by rewrite lookup_delete_ne.
    + by apply (deleteHandleInfo_tombstone _ _ _ Ho').
Qed.

(** ** Errno conversion *)

(** X16. [err.errno | 0]: the exception built from a backend error depends
    on the errno only through its value as a signed 32-bit integer, so
    errnos that differ by a multiple of 2^32 are reported alike; an error
    without errno is treated as errno 0, which no [case] matches. *)
Theorem errno_wraps (err : ErrnoException) (n k : Z) :
  new_SftpException
    {| err_errno := Some (n + k * 2 ^ 32); err_message := err_message err;
       err_isPublic := err_isPublic err |} =
  new_SftpException
    {| err_errno := Some n; err_message := err_message err;
       err_isPublic := err_isPublic err |} /\
  new_SftpException
    {| err_errno := None; err_message := err_message err;
       err_isPublic := err_isPublic err |} =
  {| exn_message := if err_isPublic err then err_message err else "Unknown error (0)";
     exn_code := FAILURE; exn_errno := 0 |}.
Proof.
  split; [|by destruct (err_isPublic err)].
  assert (toInt32 (n + k * 2 ^ 32) = toInt32 n) as Hw.
  { unfold toInt32. f_equal. replace (n + k * 2 ^ 32 + 2 ^ 31) with (n + 2 ^ 31 + k * 2 ^ 32) by lia.
    apply Z_mod_plus_full. }
  unfold new_SftpException.
  cbn -[toInt32 Z.pow Z.mul Z.add errno_switch]. rewrite Hw. reflexivity.
Qed.

(** ** Dispatch *)

Lemma reject_step s data h rest :
  handle_bound (req_type data) = true ->
  req_fields data = FInt32 4 :: FInt32 h :: rest -> _handles s !! h = None ->
  step s (EvMessage data) =
  emit (ASend (status_packet (req_id data) FAILURE "Invalid handle"))
       (set_next_response (S (next_response s)) s).
Proof.
  intros Hb Hf Hh. unfold step, step_res, on_message, try_catch, _process. msimpl.
  destruct (decide (req_type data = INIT)) as [Hi|_].
  { rewrite Hi in Hb. done. }
  rewrite Hb. rewrite (bind_val _ _ _ _ _ (readHandleInfo_read _ _ _ _ Hf)).
  change (_handles (set_next_response _ s)) with (_handles s). rewrite Hh.
  by rewrite sendStatus_unbound by (done || by vm_compute).
Qed.

(** X6. A request whose type has no [case] in [processRequest] (and is not
    INIT) is answered at once, while the session is active: with
    OP_UNSUPPORTED "Not supported", or with BAD_MESSAGE "Packet too long"
    when its declared length exceeds 66000.  No backend call is made and
    nothing else changes. *)
Theorem unsupported_request (s : SftpServerSession) (data : SftpPacketReader) :
  _fs s = true -> req_type data <> INIT -> has_case (req_type data) = false ->
  step s (EvMessage data) =
  emit (ASend (if req_length data >? 66000
               then status_packet (req_id data) BAD_MESSAGE "Packet too long"
               else status_packet (req_id data) OP_UNSUPPORTED "Not supported"))
       (set_next_response (S (next_response s)) s).
Proof.
  intros Hfs Hi Hc. unfold step, step_res, on_message, try_catch, _process. msimpl.
  destruct (decide (req_type data = INIT)); [done|].
  assert (handle_bound (req_type data) = false) as -> by by destruct (req_type data).
  unfold processRequest. msimpl.
  change (_fs (set_next_response _ s)) with (_fs s). rewrite Hfs. cbn [negb].
  unfold try_catch, processRequest_body.
  destruct (req_length data >? 66000).
  - by rewrite sendStatus_unbound by (done || by vm_compute).
  - destruct (req_type data); try done;
      by rewrite sendStatus_unbound by (done || by vm_compute).
Qed.

(** X7. INIT is answered with a VERSION packet that announces version 3,
    whatever version the client announces, whatever the declared length of
    the packet and whether or not the session has ended; nothing else
    changes. *)
Theorem init_version (s : SftpServerSession) (data : SftpPacketReader)
    (version : Z) (rest : list Field) :
  req_type data = INIT -> req_fields data = FInt32 version :: rest ->
  step s (EvMessage data) =
  emit (ASend version_packet) (set_next_response (S (next_response s)) s).
Proof.
  intros Hi Hf. unfold step, step_res, on_message, try_catch, _process. msimpl.
  destruct (decide (req_type data = INIT)); [|done].
  unfold readInt32. rewrite Hf. msimpl.
  unfold writeInt32. rewrite write_ok by by vm_compute. msimpl.
  by rewrite send_unbound.
Qed.

(** X10. A request that names a handle whose handle info is locked is
    queued: the closure is appended to the handle info's queue and nothing
    else happens (no packet, no backend call), whatever the request's
    length and whether or not the session has ended. *)
Theorem queue_when_locked (s : SftpServerSession) (data : SftpPacketReader)
    (h : Z) (rest : list Field) (o : nat) (hi : SftpHandleInfo) :
  handle_bound (req_type data) = true ->
  req_fields data = FInt32 4 :: FInt32 h :: rest ->
  _handles s !! h = Some o -> heap s !! o = Some hi -> hi_locked hi = true ->
  let request := advance (advance data 4 (FInt32 h :: rest)) 4 rest in
  let response :=
    set_handleInfo o (set_id (req_id data) (new_SftpResponse (next_response s))) in
  step s (EvMessage data) =
  set_heap (<[o := set_tasks (hi_tasks hi ++ [(request, response)]) hi]> (heap s))
    (set_next_response (S (next_response s)) s).
Proof.
  intros Hb Hf Hh Ho Hl. cbv zeta.
  unfold step, step_res, on_message, try_catch, _process. msimpl.
  destruct (decide (req_type data = INIT)) as [Hi|_].
  { rewrite Hi in Hb. done. }
  rewrite Hb. rewrite (bind_val _ _ _ _ _ (readHandleInfo_read _ _ _ _ Hf)).
  change (_handles (set_next_response _ s)) with (_handles s). rewrite Hh.
  pose proof (Ho : heap (set_next_response (S (next_response s)) s) !! o = Some hi) as Ho1.
  rewrite (bind_val _ _ _ _ _ (deref_Some _ _ _ Ho1)). rewrite Hl. cbn [negb].
  by rewrite (update_Some _ _ _ _ Ho1).
Qed.

(** X8. CLOSE on a handle whose handle info is idle, in a reachable state
    of an active session: the slot is emptied and the handle info turned
    into a tombstone before the backend is asked to close the stored
    backend handle.  A handle-bound request naming that index that arrives
    next, before the backend has answered and before anything else
    happens, is answered with FAILURE "Invalid handle". *)
Theorem close_invalidates (evs : list Event) (data : SftpPacketReader)
    (h : Z) (rest : list Field) (o : nat) (hi : SftpHandleInfo) :
  let s := run evs new_SftpServerSession in
  _fs s = true -> req_type data = CLOSE -> req_length data <= 66000 ->
  req_fields data = FInt32 4 :: FInt32 h :: rest ->
  _handles s !! h = Some o -> heap s !! o = Some hi -> hi_locked hi = false ->
  let response :=
    set_handleInfo o (set_id (req_id data) (new_SftpResponse (next_response s))) in
  let s' := step s (EvMessage data) in
  trace s' = trace s ++ [ACall (next_call s) (FsClose (hi_handle hi)) (KSuccess response)] /\
  pending s' = <[next_call s := KSuccess response]> (pending s) /\
  _handles s' = delete h (_handles s) /\
  heap s' = <[o := set_h (-1) (set_locked true hi)]> (heap s) /\
  (forall data2 rest2,
     handle_bound (req_type data2) = true ->
     req_fields data2 = FInt32 4 :: FInt32 h :: rest2 ->
     step s' (EvMessage data2) =
     emit (ASend (status_packet (req_id data2) FAILURE "Invalid handle"))
          (set_next_response (S (next_response s')) s')).
Proof.
  cbv zeta. set (s := run evs new_SftpServerSession). intros Hfs Ht Hlen Hf Hh Ho Hl.
  pose proof (inv_wf _ (reachable_Inv evs)) as Hwf. fold s in Hwf.
  destruct (wf_slot _ Hwf _ _ Hh) as (Hr & hi' & Ho' & Hhi). simplify_eq.
  set (response := set_handleInfo o (set_id (req_id data) (new_SftpResponse (next_response s)))).
  set (s1 := set_next_response (S (next_response s)) s).
  set (s2 := set_heap (<[o := set_locked true hi]> (heap s1)) s1).
  assert (heap s2 !! o = Some (set_locked true hi)) as Ho2.
  { cbn. by apply (heap_insert_eq _ _ hi). }
  assert (step s (EvMessage data) =
          (call (FsClose (hi_handle hi)) (KSuccess response)
             (release o (set_locked true hi) s2)).1) as Hstep.
  { unfold step, step_res, on_message, try_catch, _process. msimpl.
    rewrite Ht. destruct (decide (CLOSE = INIT)); [done|]. cbn [handle_bound].
    rewrite (bind_val _ _ _ _ _ (readHandleInfo_read _ _ _ _ Hf)).
    change (_handles (set_next_response _ s)) with (_handles s). rewrite Hh.
    fold s1. pose proof (Ho : heap s1 !! o = Some hi) as Ho1.
    rewrite (bind_val _ _ _ _ _ (deref_Some _ _ _ Ho1)). rewrite Hl. cbn [negb].
    rewrite (bind_val _ _ _ _ _ (update_Some _ _ _ _ Ho1)).
    fold s2 response. unfold processRequest. msimpl.
    change (_fs s2) with (_fs s). rewrite Hfs. cbn [negb].
    unfold try_catch, processRequest_body.
    destruct (Z.gtb_spec (req_length (advance (advance data 4 (FInt32 (hi_h hi) :: rest)) 4 rest)) 66000)
      as [Hgt|_]; [cbn in Hgt; lia|].
    cbn [req_type advance]. rewrite Ht. msimpl.
    rewrite (bind_val _ _ _ _ _ (deleteHandleInfo_live _ _ _ Ho2 ltac:(cbn; lia) Hh)).
    assert (heap (release o (set_locked true hi) s2) !! o
            = Some (set_h (-1) (set_locked true hi))) as Ho3.
    { cbn. apply (heap_insert_eq _ _ (set_locked true hi)). by apply (heap_insert_eq _ _ hi). }
    rewrite (bind_val _ _ _ _ _ (deref_Some _ _ _ Ho3)). done. }
  rewrite Hstep. split; [done|]. split; [done|]. split; [done|]. split.
  - cbn. by rewrite list_insert_insert_eq.
  - intros data2 rest2 Hb2 Hf2. apply (reject_step _ _ _ _ Hb2 Hf2).
    cbn. apply lookup_delete_eq.
Qed.

(** ** Tasks queued on a closed handle *)

(** X9. Sending a response bound to a handle info that has been closed
    (a tombstone) drains its queue: after the packet itself, every queued
    task is answered with FAILURE "Invalid handle", in the order of the
    queue and within the same call of [send]; no task reaches the backend,
    and the lock is cleared at the end. *)
Theorem tombstone_drain (fuel : nat) (r : SftpResponse) (o : nat)
    (hi : SftpHandleInfo) (s : SftpServerSession) :
  handleInfo r = Some o -> heap s !! o = Some hi -> hi_h hi < 0 ->
  Forall (fun t => handleInfo t.2 = Some o) (hi_tasks hi) ->
  (length (hi_tasks hi) < fuel)%nat ->
  send fuel r s =
  (set_heap (<[o := set_locked false (set_tasks [] hi)]> (heap s))
     (emits (ASend (finish r) :: map rejection (hi_tasks hi)) s), Val tt).
Proof.
  remember (hi_tasks hi) as tasks eqn:Ht.
  revert fuel r hi s Ht. induction tasks as [|[request response] tasks IH];
    intros fuel r hi s Ht Hr Ho Hdead Hall Hfuel.
  - destruct fuel as [|fuel]; [cbn in Hfuel; lia|].
    rewrite (send_bound _ _ _ _ Hr).
    rewrite (processNext_eq _ _ hi) by done. rewrite <- Ht.
    f_equal. cbn [map]. destruct hi; cbn in *; subst. done.
  - destruct fuel as [|fuel]; [cbn in Hfuel; lia|].
    rewrite (send_bound _ _ _ _ Hr).
    rewrite (processNext_eq _ _ hi) by done. rewrite <- Ht.
    set (s1 := emit (ASend (finish r)) s).
    set (s2 := set_heap (<[o := set_tasks tasks hi]> (heap s1)) s1).
    assert (heap s2 !! o = Some (set_tasks tasks hi)) as Ho2.
    { cbn. by apply (heap_insert_eq _ _ hi). }
    unfold run_task. rewrite (bind_val _ _ _ _ _ (deref_Some _ _ _ Ho2)).
    cbn [hi_h set_tasks]. destruct (Z.ltb_spec (hi_h hi) 0) as [_|?]; [|lia].
    unfold sendStatus. rewrite SftpStatus_write_ok by by vm_compute. msimpl.
    apply Forall_cons in Hall as [Hresp Hall]. cbn [snd] in Hresp.
    assert (handleInfo (status_response response FAILURE "Invalid handle") = Some o) as Hr'.
    { by rewrite (proj2 (status_meta _ _ _)). }
    assert (length tasks < fuel)%nat as Hfuel' by (cbn in Hfuel; lia).
    rewrite (IH fuel _ (set_tasks tasks hi) s2 eq_refl Hr' Ho2 Hdead Hall Hfuel').
    f_equal. unfold set_heap, emits, s2, s1, emit. cbn.
    rewrite list_insert_insert_eq. rewrite <- app_assoc. done.
Qed.

(** ** Exceptions that reach the message handler *)

Lemma process_truncated send data s :
  truncated data = true ->
  _process send data s = (set_next_response (S (next_response s)) s, Exn).
Proof.
  unfold truncated, _process. intros Ht. msimpl.
  destruct (decide (req_type data = INIT)) as [Hi|Hi].
  { destruct (readInt32 data); [done|]. by msimpl. }
  destruct (handle_bound (req_type data)); [|done].
  unfold readHandleInfo. destruct (readInt32 data) as [[k request]|]; msimpl; [|done].
  apply andb_true_iff in Ht as [Hk Hr]. rewrite Hk. cbn [negb].
  destruct (readInt32 request); [done|]. by msimpl.
Qed.

Lemma process_returns send data s :
  send_good send -> Inv s -> truncated data = false ->
  (_process send data s).2 <> Exn.
Proof.
  intros Hsend HI Ht. unfold truncated in Ht. unfold _process. msimpl.
  set (n := next_response s). set (s1 := set_next_response (S n) s).
  assert (Proc s1 None n) as HP by by apply bump_Proc.
  assert (forall r, handleInfo r = None -> rid r = n -> (send r s1).2 <> Exn) as Hsend1.
  { intros r Hh Hr. destruct (Hsend r s1) as (s' & res & -> & ? & _); [|done].
    by rewrite Hh, Hr. }
  destruct (decide (req_type data = INIT)) as [Hi|Hi].
  { destruct (readInt32 data) as [[version request]|]; [|done]. msimpl.
    unfold writeInt32. rewrite write_ok by (cbn; unfold capacity; lia). msimpl.
    by apply Hsend1. }
  destruct (handle_bound (req_type data)).
  2:{ destruct (processRequest_ok send data (set_id (req_id data) (new_SftpResponse n))
                  None s1 Hsend HP) as (s' & res & -> & ? & _). done. }
  unfold readHandleInfo. destruct (readInt32 data) as [[k request]|]; [|done]. msimpl.
  assert (forall s0 : SftpServerSession, s0 = s1 ->
            (sendStatus send (set_id (req_id data) (new_SftpResponse n)) FAILURE
               "Invalid handle" s0).2 <> Exn) as Hrej.
  { intros s0 ->. unfold sendStatus. rewrite SftpStatus_write_ok by by vm_compute. msimpl.
    by apply Hsend1. }
  destruct (Z.eqb_spec k 4) as [->|Hk]; cbn [negb andb] in *; msimpl.
  2:{ by apply Hrej. }
  destruct (readInt32 request) as [[h request']|]; [|done]. msimpl.
  change (_handles s1) with (_handles s).
  destruct (_handles s !! h) as [o|] eqn:Hh; [|by apply Hrej].
  destruct (wf_slot _ (inv_wf _ HI) _ _ Hh) as (_ & hi & Ho & _).
  pose proof (Ho : heap s1 !! o = Some hi) as Ho1.
  rewrite (bind_val _ _ _ _ _ (deref_Some _ _ _ Ho1)).
  destruct (hi_locked hi) eqn:Hlk; cbn [negb].
  - by rewrite (update_Some _ _ _ _ Ho1).
  - rewrite (bind_val _ _ _ _ _ (update_Some _ _ _ _ Ho1)).
    destruct (processRequest_ok send request'
                (set_handleInfo o (set_id (req_id data) (new_SftpResponse n))) (Some o)
                (set_heap (<[o:=set_locked true hi]> (heap s1)) s1) Hsend)
      as (s' & res & -> & ? & _); [|done].
    by apply (lock_Proc s o hi).
Qed.

(** X11. What a message can do to the session.  In every reachable state
    [_process] throws only on a truncated packet: an INIT without a version,
    or a handle-bound request whose handle cannot be read.  Then the message
    handler emits "error" and ends the session: the channel is closed, the
    backend handles of the table are closed and the filesystem reference is
    dropped.  On every other packet, whatever its payload, [_process]
    returns normally: what goes wrong inside [processRequest] is answered
    there and never reaches the message handler. *)
Theorem message_error_only_when_truncated (evs : list Event) (data : SftpPacketReader) :
  let s := run evs new_SftpServerSession in
  if truncated data
  then _fs (step s (EvMessage data)) = false /\
       trace (step s (EvMessage data)) =
         trace s ++ AEmit "error" :: AChannelClose ::
           (if _fs s then close_calls (next_call s) (open_slots s) else [])
  else step_res s (EvMessage data) = _process (send (S (total_tasks s))) data s /\
       (step_res s (EvMessage data)).2 = Val tt.
Proof.
  cbv zeta. set (s := run evs new_SftpServerSession).
  pose proof (reachable_Inv evs) as HI. fold s in HI.
  destruct (truncated data) eqn:Ht.
  - unfold step, step_res, on_message, try_catch.
    rewrite (process_truncated _ _ _ Ht). rewrite bind_modify.
    set (s1 := set_next_response (S (next_response s)) s).
    destruct (end_spec (emit (AEmit "error") s1)) as (s2 & -> & Hfs & _ & _ & _ & Htr).
    { apply (WF_ext s); [done..|apply HI]. }
    split; [done|]. cbn [fst]. rewrite Htr. cbn. by rewrite <- app_assoc.
  - assert ((_process (send (S (total_tasks s))) data s).2 = Val tt) as Hval.
    { pose proof (process_returns _ data s (send_ok (S (total_tasks s))) HI Ht) as Hne.
      pose proof (_process_fuel (send (S (total_tasks s))) (total_tasks s) data s
                    (send_fuel (S (total_tasks s)) (total_tasks s) ltac:(lia))
                    ltac:(lia)) as Hnf.
      destruct (_process _ data s) as [s' [[]| |]]; done. }
    unfold step_res, on_message, try_catch.
    destruct (_process (send (S (total_tasks s))) data s) as [s' res]. cbn in Hval.
    subst res. done.
Qed.

(** ** The filesystem reference *)

Lemma shape_fs send ow n s out :
  (forall r s0, _fs (send r s0).1 = _fs s0) ->
  Shape send ow n s out -> _fs out.1 = _fs s.
Proof.
  intros Hsend Hsh. induction Hsh as [s s' res Hq _|s s1 op k Hq _|s s1 r s2 Hq _ _ Hs
                                     |s s1 r s2 Hq _ _ Hs|s s1 r s2 out Hq _ _ Hs _ IH].
  - apply (q_fs _ _ Hq).
  - cbn. apply (q_fs _ _ Hq).
  - cbn. rewrite <- (q_fs _ _ Hq). specialize (Hsend r s1). by rewrite Hs in Hsend.
  - cbn. rewrite <- (q_fs _ _ Hq). specialize (Hsend r s1). by rewrite Hs in Hsend.
  - rewrite IH. rewrite <- (q_fs _ _ Hq). specialize (Hsend r s1). by rewrite Hs in Hsend.
Qed.

Lemma shapeQ_fs send ow n s out :
  (forall r s0, _fs (send r s0).1 = _fs s0) ->
  ShapeQ send ow n s out -> _fs out.1 = _fs s.
Proof.
  intros Hsend [Hsh|(s1 & r & s2 & Hq1 & _ & _ & Hs & Hq2 & _)]; [by eapply shape_fs|].
  rewrite (q_fs _ _ Hq2). rewrite <- (q_fs _ _ Hq1).
  specialize (Hsend r s1). by rewrite Hs in Hsend.
Qed.

Lemma processRequest_fs send request response hi s :
  (forall r s0, _fs (send r s0).1 = _fs s0) ->
  _fs (processRequest send request response hi s).1 = _fs s.
Proof.
  intros Hsend. unfold processRequest. msimpl. destruct (_fs s) eqn:Hfs; cbn [negb]; [|done].
  unfold try_catch.
  pose proof (shape_fs _ _ _ _ _ Hsend
                (shape_processRequest_body send request response hi s)) as Hb.
  destruct (processRequest_body send request response hi s) as [s' [[]| |]];
    cbn in Hb; cbv beta iota; try (cbn; congruence).
  rewrite (shape_fs _ _ _ _ _ Hsend (shape_sendError send response caught true s')).
  congruence.
Qed.

Lemma send_fs fuel r s : _fs (send fuel r s).1 = _fs s.
Proof.
  revert r s. induction fuel as [|fuel IH]; intros r s; cbn [send]; msimpl.
  { by destruct (handleInfo r). }
  destruct (handleInfo r) as [o|]; [|done].
  unfold processNext. set (s1 := emit _ s).
  destruct (heap s1 !! o) as [hi|] eqn:Ho.
  2:{ by rewrite (bind_exn _ _ _ _ (deref_None _ _ Ho)). }
  rewrite (bind_val _ _ _ _ _ (deref_Some _ _ _ Ho)).
  destruct (hi_tasks hi) as [|[request response] rest].
  { by rewrite (update_Some _ _ _ _ Ho). }
  rewrite (bind_val _ _ _ _ _ (update_Some _ _ _ _ Ho)).
  set (s2 := set_heap _ s1). change (_fs s) with (_fs s2).
  unfold run_task. destruct (heap s2 !! o) as [hi2|] eqn:Ho2.
  2:{ by rewrite (bind_exn _ _ _ _ (deref_None _ _ Ho2)). }
  rewrite (bind_val _ _ _ _ _ (deref_Some _ _ _ Ho2)).
  destruct (hi_h hi2 <? 0).
  - apply (shape_fs _ _ _ _ _ IH (shape_sendStatus _ _ _ _ _)).
  - by apply processRequest_fs.
Qed.

Lemma end_fs s : _fs s = false -> _fs (end_ s).1 = false.
Proof. intros Hfs. by rewrite end_disposed. Qed.

(** X17. Only [end()] drops the filesystem reference, and nothing brings
    it back.  A backend callback leaves it as it is, whatever the callback
    does; a message leaves it as it is unless [_process] throws, in which
    case the session is ended; and once it is gone it stays gone, whatever
    messages, callbacks and close events follow. *)
Theorem fs_reference_dropped_for_good (s : SftpServerSession) :
  (forall c res, _fs (step s (EvCallback c res)) = _fs s) /\
  (forall data, (_process (send (S (total_tasks s))) data s).2 <> Exn ->
                _fs (step s (EvMessage data)) = _fs s) /\
  (forall evs, _fs s = false -> _fs (run evs s) = false).
Proof.
  assert (forall s0 c res, _fs (step s0 (EvCallback c res)) = _fs s0) as Hcb.
  { intros s0 c res. unfold step, step_res, on_callback. msimpl.
    destruct (pending s0 !! c) as [k|]; [|done].
    destruct (well_typed k res); [|done]. msimpl.
    set (s1 := emit _ _). change (_fs s0) with (_fs s1). unfold try_catch.
    assert (_fs (resume (send (S (total_tasks s0))) k (fs_err res) (fs_value res) s1).1
            = _fs s1) as Hr.
    { destruct (kresponse k) as [r|] eqn:Hk.
      - apply (shapeQ_fs _ _ _ _ _ (send_fs _) (shape_resume _ k _ _ r s1 Hk)).
      - by destruct k. }
    destruct (resume _ k _ _ s1) as [s2 [[]| |]]; cbn in Hr |- *; congruence. }
  assert (forall s0 data, (_process (send (S (total_tasks s0))) data s0).2 <> Exn ->
            _fs (step s0 (EvMessage data)) = _fs s0) as Hmsg.
  { intros s0 data Hne. unfold step, step_res, on_message, try_catch.
    assert (_fs (_process (send (S (total_tasks s0))) data s0).1 = _fs s0) as Hp.
    { unfold _process. msimpl. set (s1 := set_next_response _ s0).
      change (_fs s0) with (_fs s1).
      destruct (decide (req_type data = INIT)) as [Hi|Hi].
      { destruct (readInt32 data) as [[v request]|]; msimpl; [|done].
        destruct (writeInt32 3 _); msimpl; [|done]. apply send_fs. }
      destruct (handle_bound (req_type data)); [|apply processRequest_fs, send_fs].
      destruct (readHandleInfo_state data s1) as (res & Hrd & _).
      destruct res as [[slot request]| |];
        [rewrite (bind_val _ _ _ _ _ Hrd)|by rewrite (bind_exn _ _ _ _ Hrd)
        |by rewrite (bind_nofuel _ _ _ _ Hrd)].
      destruct slot as [o|].
      2:{ apply (shape_fs _ _ _ _ _ (send_fs _) (shape_sendStatus _ _ _ _ _)). }
      destruct (heap s1 !! o) as [hi|] eqn:Ho.
      2:{ by rewrite (bind_exn _ _ _ _ (deref_None _ _ Ho)). }
      rewrite (bind_val _ _ _ _ _ (deref_Some _ _ _ Ho)).
      destruct (hi_locked hi); cbn [negb].
      - by rewrite (update_Some _ _ _ _ Ho).
      - rewrite (bind_val _ _ _ _ _ (update_Some _ _ _ _ Ho)).
        rewrite processRequest_fs by apply send_fs. done. }
    destruct (_process _ data s0) as [s' [[]| |]]; cbn in *; done. }
  split; [apply Hcb|]. split; [apply Hmsg|].
  intros evs. revert s. induction evs as [|ev evs IH]; intros s Hfs; [done|].
  cbn [run foldl]. apply IH. destruct ev as [data|c res| |].
  - destruct (process_disposed s data Hfs) as (_ & _ & _ & _ & ?). done.
  - by rewrite Hcb.
  - unfold step, step_res, on_close. rewrite (bind_val _ _ _ _ _ (end_disposed _ Hfs)). done.
  - unfold step, step_res. by rewrite end_disposed.
Qed.

(** ** OPENDIR and the handles handed out *)

Lemma handle_stored fuel k response o hi handle s :
  (k = KOpendir response o \/
   exists path attrs, k = KOpen response path attrs [] o) ->
  handleInfo response = None -> heap s !! o = Some hi ->
  resume (send fuel) k None (VHandle handle) s =
  (emit (ASend (handle_packet (res_id response) (hi_h hi)))
     (set_heap (<[o := set_handle (Some handle) hi]> (heap s)) s), Val tt).
Proof.
  intros Hk Hr Ho.
  assert (resume (send fuel) k None (VHandle handle) s =
          (update o (set_handle (Some handle));; sendHandle (send fuel) response o) s) as ->.
  { destruct Hk as [->|(path & attrs & ->)]; cbn [resume sendIfError]; msimpl;
      cbn [as_handle]; by msimpl. }
  rewrite (bind_val _ _ _ _ _ (update_Some _ _ _ _ Ho)).
  rewrite (sendHandle_unbound _ _ _ (set_handle (Some handle) hi)); [done..|].
  by apply (heap_insert_eq _ _ hi).
Qed.

(** X13. The index handed out resolves back.  When the backend reports
    that a file or a directory has been opened, in a reachable state, the
    HANDLE packet sent carries the index the handle info has at that moment.
    That index is -1 when the handle has been closed in the meantime;
    otherwise it lies within 1..512, and a request that names it is
    resolved by [readHandleInfo] to this handle info, which now holds the
    backend handle. *)
Theorem handle_resolves (evs : list Event) (fuel : nat) (k : Callback)
    (response : SftpResponse) (o : nat) (hi : SftpHandleInfo) (handle : Z) :
  let s := run evs new_SftpServerSession in
  (k = KOpendir response o \/ exists path attrs, k = KOpen response path attrs [] o) ->
  handleInfo response = None -> heap s !! o = Some hi ->
  exists s',
    resume (send fuel) k None (VHandle handle) s = (s', Val tt) /\
    trace s' = trace s ++ [ASend (handle_packet (res_id response) (hi_h hi))] /\
    heap s' !! o = Some (set_handle (Some handle) hi) /\
    (hi_h hi = -1 \/
     1 <= hi_h hi <= MAX_HANDLE_COUNT /\
     forall request rest,
       req_fields request = FInt32 4 :: FInt32 (hi_h hi) :: rest ->
       exists request', readHandleInfo request s' = (s', Val (Some o, request'))).
Proof.
  cbv zeta. set (s := run evs new_SftpServerSession). intros Hk Hr Ho.
  pose proof (inv_wf _ (reachable_Inv evs)) as Hwf. fold s in Hwf.
  eexists. split; [by apply handle_stored|]. split; [done|]. split.
  { cbn. by apply (heap_insert_eq _ _ hi). }
  destruct (wf_info _ Hwf _ _ Ho) as [Hdead|Hlive]; [by left|right].
  destruct (wf_slot _ Hwf _ _ Hlive) as [Hrange _]. split; [done|].
  intros request rest Hf. eexists.
  rewrite (readHandleInfo_read _ _ _ _ Hf). cbn [_handles emit set_heap]. by rewrite Hlive.
Qed.

(** ** Requests by path *)

Lemma sendError_fatal fuel r e s :
  handleInfo r = None ->
  sendError (send fuel) r e true s =
  (emit (ASend (status_packet (res_id r) FAILURE "Internal server error")) s, Val tt).
Proof.
  intros Hr. unfold sendError. cbn [negb].
  rewrite SftpStatus_write_ok by by vm_compute. msimpl. by rewrite send_unbound.
Qed.

(** X15. A request by path (LSTAT, STAT, SETSTAT, REMOVE, MKDIR, RMDIR,
    REALPATH, READLINK, RENAME, SYMLINK, HARDLINK) of accepted length, on
    an active session, has one of two outcomes: exactly one call into the
    backend, whose callback holds the response of this request, and no
    packet; or, when its payload cannot be read, the answer FAILURE
    "Internal server error" and no call.  Nothing else changes. *)
Theorem path_request_outcome (s : SftpServerSession) (data : SftpPacketReader) :
  _fs s = true -> req_length data <= 66000 -> path_request (req_type data) = true ->
  let s1 := set_next_response (S (next_response s)) s in
  let response := set_id (req_id data) (new_SftpResponse (next_response s)) in
  (exists op k, kresponse k = Some response /\
                step s (EvMessage data) = (call op k s1).1) \/
  step s (EvMessage data) =
    emit (ASend (status_packet (req_id data) FAILURE "Internal server error")) s1.
Proof.
  intros Hfs Hlen Hp. cbv zeta.
  unfold step, step_res, on_message, try_catch, _process. msimpl.
  destruct (decide (req_type data = INIT)) as [Hi|Hi].
  { rewrite Hi in Hp. done. }
  assert (handle_bound (req_type data) = false) as -> by by destruct (req_type data).
  set (s1 := set_next_response _ s).
  set (response := set_id (req_id data) (new_SftpResponse (next_response s))).
  unfold processRequest. msimpl. change (_fs s1) with (_fs s). rewrite Hfs. cbn [negb].
  unfold try_catch, processRequest_body.
  destruct (Z.gtb_spec (req_length data) 66000); [lia|].
  destruct (req_type data); try done.
  all: unfold readString, readAttributes.
  all: destruct (req_fields data) as [|[] fields]; msimpl;
         try (right; by rewrite sendError_fatal).
  all: cbn [advance req_fields]; msimpl.
  all: try (left; eexists _, _; split; [|reflexivity]; reflexivity).
  all: destruct fields as [|[] fields']; msimpl; try (right; by rewrite sendError_fatal).
  all: left; eexists _, _; split; [|reflexivity]; reflexivity.
Qed.

(** ** Request and reply *)

Lemma pending_fresh s : Inv s -> pending s !! next_call s = None.
Proof.
  intros HI. destruct (pending s !! next_call s) as [k|] eqn:Hk; [|done].
  pose proof (inv_fresh _ HI _ _ Hk). lia.
Qed.

Lemma callback_step s c k res :
  pending s !! c = Some k -> well_typed k res = true ->
  step_res s (EvCallback c res) =
  try_catch (resume (send (S (total_tasks s))) k (fs_err res) (fs_value res))
            (modify (emit AUncaught))
            (emit (ADone c res) (set_pending (delete c (pending s)) (next_call s) s)).
Proof.
  intros Hc Hw. unfold step_res, on_callback. msimpl. rewrite Hc, Hw. by msimpl.
Qed.

Lemma sendPath_unbound fuel r path s :
  handleInfo r = None -> string_size path <= capacity - 21 ->
  sendPath (send fuel) r None (Some path) s =
  (emit (ASend (path_packet (res_id r) path)) s, Val tt).
Proof.
  intros Hr Hp. unfold sendPath. cbn [sendIfError]. msimpl. unfold writeInt32, writeString.
  rewrite write_ok by (cbn; unfold capacity in *; lia). msimpl.
  rewrite write_ok
    by (cbn -[string_size]; try change (string_size "") with 4; unfold capacity in *; lia).
  msimpl.
  rewrite write_ok
    by (cbn -[string_size]; try change (string_size "") with 4; unfold capacity in *; lia).
  msimpl.
  rewrite write_ok
    by (cbn -[string_size]; try change (string_size "") with 4; unfold capacity in *; lia).
  msimpl.
  by rewrite send_unbound.
Qed.

(** X14. REALPATH and READLINK end to end, from a reachable state of an
    active session: the request makes one backend call with the path it
    carries, and when the backend answers with a path, that path goes back
    in a NAME packet with the id of the request: one entry, an empty long
    name and an attribute block without attributes.  Afterwards nothing is
    pending for the request and the handle table is untouched. *)
Theorem path_round_trip (evs : list Event) (data : SftpPacketReader)
    (path resolved : string) (rest : list Field) :
  let s := run evs new_SftpServerSession in
  _fs s = true -> req_length data <= 66000 ->
  req_type data = REALPATH \/ req_type data = READLINK ->
  req_fields data = FString path :: rest ->
  string_size resolved <= capacity - 21 ->
  let c := next_call s in
  let response := set_id (req_id data) (new_SftpResponse (next_response s)) in
  let answer := {| fs_err := None; fs_value := VPath resolved |} in
  let s' := run [EvMessage data; EvCallback c answer] s in
  trace s' = trace s ++
    [ACall c (if decide (req_type data = REALPATH) then FsRealpath path
              else FsReadlink path) (KPath response);
     ADone c answer;
     ASend (path_packet (req_id data) resolved)] /\
  pending s' = pending s /\ heap s' = heap s /\ _handles s' = _handles s.
Proof.
  cbv zeta. set (s := run evs new_SftpServerSession). intros Hfs Hlen Ht Hf Hres.
  pose proof (reachable_Inv evs) as HI. fold s in HI.
  set (response := set_id (req_id data) (new_SftpResponse (next_response s))).
  set (op := if decide (req_type data = REALPATH) then FsRealpath path else FsReadlink path).
  set (s1 := set_next_response (S (next_response s)) s).
  assert (step s (EvMessage data) = (call op (KPath response) s1).1) as Hstep.
  { unfold step, step_res, on_message, try_catch, _process. msimpl.
    destruct (decide (req_type data = INIT)) as [Hi|_].
    { destruct Ht as [Ht|Ht]; rewrite Ht in Hi; done. }
    assert (handle_bound (req_type data) = false) as ->
      by by destruct Ht as [-> | ->].
    unfold processRequest. msimpl. change (_fs (set_next_response _ s)) with (_fs s).
    rewrite Hfs. cbn [negb]. unfold try_catch, processRequest_body.
    destruct (Z.gtb_spec (req_length data) 66000); [lia|]. unfold op.
    destruct Ht as [Ht|Ht]; rewrite Ht; unfold readString; rewrite Hf; msimpl; done. }
  cbn [run foldl]. rewrite Hstep. set (s2 := (call op (KPath response) s1).1).
  unfold step. rewrite (callback_step s2 (next_call s) (KPath response)); [| |done].
  2:{ cbn. apply lookup_insert_eq. }
  unfold try_catch. cbn [resume fs_err fs_value as_path].
  rewrite sendPath_unbound by done. cbn.
  split; [by rewrite <- !app_assoc|]. split; [|done].
  rewrite delete_insert_eq. apply delete_id. by apply pending_fresh.
Qed.

(** ** Requests on a handle, from request to reply *)

Lemma dispatch_idle s data h rest o hi s3 :
  _fs s = true -> handle_bound (req_type data) = true ->
  req_fields data = FInt32 4 :: FInt32 h :: rest ->
  _handles s !! h = Some o -> heap s !! o = Some hi -> hi_locked hi = false ->
  let request := advance (advance data 4 (FInt32 h :: rest)) 4 rest in
  let response :=
    set_handleInfo o (set_id (req_id data) (new_SftpResponse (next_response s))) in
  processRequest_body (send (S (total_tasks s))) request response (Some o)
    (set_heap (<[o := set_locked true hi]> (heap s))
       (set_next_response (S (next_response s)) s)) = (s3, Val tt) ->
  step s (EvMessage data) = s3.
Proof.
  intros Hfs Hb Hf Hh Ho Hl request response Hbody.
  unfold step, step_res, on_message, try_catch, _process. msimpl.
  destruct (decide (req_type data = INIT)) as [Hi|_].
  { rewrite Hi in Hb. done. }
  rewrite Hb. rewrite (bind_val _ _ _ _ _ (readHandleInfo_read _ _ _ _ Hf)).
  change (_handles (set_next_response _ s)) with (_handles s). rewrite Hh.
  pose proof (Ho : heap (set_next_response (S (next_response s)) s) !! o = Some hi) as Ho1.
  rewrite (bind_val _ _ _ _ _ (deref_Some _ _ _ Ho1)). rewrite Hl. cbn [negb].
  rewrite (bind_val _ _ _ _ _ (update_Some _ _ _ _ Ho1)).
  unfold processRequest. msimpl.
  change (_fs (set_heap _ _)) with (_fs s). rewrite Hfs. cbn [negb].
  unfold try_catch.
  match goal with
  | |- context [processRequest_body ?a ?b ?c ?d ?e] =>
      change (processRequest_body a b c d e) with
        (processRequest_body (send (S (total_tasks s))) request response (Some o)
           (set_heap (<[o := set_locked true hi]> (heap s))
              (set_next_response (S (next_response s)) s)))
  end.
  by rewrite Hbody.
Qed.

Lemma complete_idle fuel r o hi s :
  handleInfo r = Some o -> heap s !! o = Some hi -> hi_tasks hi = [] ->
  send (S fuel) r s =
  (set_heap (<[o := set_locked false hi]> (heap s)) (emit (ASend (finish r)) s), Val tt).
Proof.
  intros Hr Ho Ht. rewrite (send_bound _ _ _ _ Hr).
  rewrite (processNext_eq _ _ hi) by done. by rewrite Ht.
Qed.

Lemma relock_heap (l : list SftpHandleInfo) o hi :
  l !! o = Some hi -> hi_locked hi = false ->
  <[o := set_locked false (set_locked true hi)]> (<[o := set_locked true hi]> l) = l.
Proof.
  intros Ho Hl. rewrite list_insert_insert_eq, set_locked_round by done.
  by apply list_insert_id.
Qed.

(** X18. FSTAT on an idle handle, from request to reply, in a reachable
    state of an active session.  The request takes the lock of the handle
    info and asks the backend for the attributes of the stored backend
    handle; nothing is sent yet.  When the backend answers, with attributes
    or with an error, exactly one packet goes out with the id of the
    request (ATTRS, or the status mapped from the error), the lock is
    released and the handle infos are what they were before the request. *)
Theorem fstat_round_trip (evs : list Event) (data : SftpPacketReader)
    (h : Z) (rest : list Field) (o : nat) (hi : SftpHandleInfo) :
  let s := run evs new_SftpServerSession in
  _fs s = true -> req_type data = FSTAT -> req_length data <= 66000 ->
  req_fields data = FInt32 4 :: FInt32 h :: rest ->
  _handles s !! h = Some o -> heap s !! o = Some hi -> hi_locked hi = false ->
  let c := next_call s in
  let response :=
    set_handleInfo o (set_id (req_id data) (new_SftpResponse (next_response s))) in
  let s1 := step s (EvMessage data) in
  trace s1 = trace s ++ [ACall c (FsFstat (hi_handle hi)) (KAttribs response)] /\
  heap s1 = <[o := set_locked true hi]> (heap s) /\
  (forall stats,
     let answer := {| fs_err := None; fs_value := VStats stats |} in
     let s2 := step s1 (EvCallback c answer) in
     trace s2 = trace s1 ++ [ADone c answer; ASend (attrs_packet (req_id data) stats)] /\
     heap s2 = heap s /\ pending s2 = pending s) /\
  (forall e v,
     string_size (exn_message (new_SftpException e)) <= capacity - 17 ->
     let answer := {| fs_err := Some e; fs_value := v |} in
     let s2 := step s1 (EvCallback c answer) in
     trace s2 = trace s1 ++
       [ADone c answer;
        ASend (status_packet (req_id data) (exn_code (new_SftpException e))
                 (exn_message (new_SftpException e)))] /\
     heap s2 = heap s /\ pending s2 = pending s).
Proof.
  cbv zeta. set (s := run evs new_SftpServerSession). intros Hfs Ht Hlen Hf Hh Ho Hl.
  pose proof (reachable_Inv evs) as HI. fold s in HI.
  pose proof (inv_idle _ HI _ _ Ho Hl) as Hq.
  set (response := set_handleInfo o (set_id (req_id data) (new_SftpResponse (next_response s)))).
  set (s0 := set_heap (<[o := set_locked true hi]> (heap s))
               (set_next_response (S (next_response s)) s)).
  assert (heap s0 !! o = Some (set_locked true hi)) as Ho0.
  { cbn. by apply (heap_insert_eq _ _ hi). }
  assert (step s (EvMessage data) =
          (call (FsFstat (hi_handle hi)) (KAttribs response) s0).1) as Hstep.
  { apply (dispatch_idle s data h rest o hi); try done; [by rewrite Ht|].
    unfold processRequest_body. cbn [req_length req_type advance].
    destruct (Z.gtb_spec (req_length data) 66000); [lia|]. rewrite Ht. msimpl.
    fold s0. rewrite (bind_val _ _ _ _ _ (deref_Some _ _ _ Ho0)). done. }
  rewrite Hstep. set (s1 := (call (FsFstat (hi_handle hi)) (KAttribs response) s0).1).
  assert (heap s1 !! o = Some (set_locked true hi)) as Ho1 by exact Ho0.
  assert (forall s2 : SftpServerSession,
            heap s2 = <[o := set_locked false (set_locked true hi)]> (heap s1) ->
            heap s2 = heap s) as Hheap.
  { intros s2 ->. by apply relock_heap. }
  assert (delete (next_call s) (pending s1) = pending s) as Hpend.
  { cbn. rewrite delete_insert_eq. apply delete_id. by apply pending_fresh. }
  split; [done|]. split; [done|]. split.
  - intros stats. unfold step.
    rewrite (callback_step s1 (next_call s) (KAttribs response)); [| |done].
    2:{ cbn. apply lookup_insert_eq. }
    unfold try_catch. cbn [resume fs_err fs_value as_stats]. unfold sendAttribs.
    cbn [sendIfError]. msimpl. unfold writeAttributes. rewrite write_ok.
    2:{ cbn. unfold attrs_size, opt_size, capacity.
        destruct (attr_size stats), (attr_uidgid stats), (attr_permissions stats),
          (attr_times stats); lia. }
    msimpl. rewrite (complete_idle _ _ o (set_locked true hi)); [|done..].
    cbn [fst]. split; [|split].
    + cbn. by rewrite <- !app_assoc.
    + by apply Hheap.
    + exact Hpend.
  - intros e v Hm. unfold step.
    rewrite (callback_step s1 (next_call s) (KAttribs response)); [| |done].
    2:{ cbn. apply lookup_insert_eq. }
    unfold try_catch. cbn [resume fs_err fs_value]. unfold sendAttribs.
    rewrite sendIfError_bind.
    unfold sendError. cbn [negb]. rewrite SftpStatus_write_ok by done. msimpl.
    erewrite bind_val.
    2:{ apply (complete_idle _ _ o (set_locked true hi));
          [by rewrite (proj2 (status_meta _ _ _))|done..]. }
    cbn [fst]. split; [|split].
    + cbn. by rewrite <- !app_assoc.
    + by apply Hheap.
    + exact Hpend.
Qed.

(** X19. WRITE on an idle handle, from request to reply, in a reachable
    state of an active session, for a request that carries the bytes it
    announces.  The request takes the lock of the handle info and hands the
    backend the stored backend handle, the file position, the byte count
    and the offset in the request's own buffer at which the data starts
    (right after the count).  Nothing is sent until the backend answers;
    then the status OK goes out with the id of the request, the lock is
    released and the handle infos are what they were before. *)
Theorem write_round_trip (evs : list Event) (data : SftpPacketReader)
    (h position count : Z) (payload : list Field) (o : nat) (hi : SftpHandleInfo) :
  let s := run evs new_SftpServerSession in
  _fs s = true -> req_type data = WRITE -> req_length data <= 66000 ->
  req_fields data = FInt32 4 :: FInt32 h :: FInt64 position :: FInt32 count :: payload ->
  count <= remaining payload ->
  _handles s !! h = Some o -> heap s !! o = Some hi -> hi_locked hi = false ->
  let c := next_call s in
  let response :=
    set_handleInfo o (set_id (req_id data) (new_SftpResponse (next_response s))) in
  let offset := req_position data + 4 + 4 + 8 + 4 in
  let answer := {| fs_err := None; fs_value := VNone |} in
  let s1 := step s (EvMessage data) in
  let s2 := step s1 (EvCallback c answer) in
  trace s1 = trace s ++
    [ACall c (FsWrite (hi_handle hi) offset count position) (KSuccess response)] /\
  heap s1 = <[o := set_locked true hi]> (heap s) /\
  trace s2 = trace s1 ++ [ADone c answer; ASend (status_packet (req_id data) OK "OK")] /\
  heap s2 = heap s /\ pending s2 = pending s.
Proof.
  cbv zeta. set (s := run evs new_SftpServerSession).
  intros Hfs Ht Hlen Hf Hcount Hh Ho Hl.
  pose proof (reachable_Inv evs) as HI. fold s in HI.
  pose proof (inv_idle _ HI _ _ Ho Hl) as Hq.
  set (response := set_handleInfo o (set_id (req_id data) (new_SftpResponse (next_response s)))).
  set (s0 := set_heap (<[o := set_locked true hi]> (heap s))
               (set_next_response (S (next_response s)) s)).
  assert (heap s0 !! o = Some (set_locked true hi)) as Ho0.
  { cbn. by apply (heap_insert_eq _ _ hi). }
  set (op := FsWrite (hi_handle hi) (req_position data + 4 + 4 + 8 + 4) count position).
  assert (step s (EvMessage data) = (call op (KSuccess response) s0).1) as Hstep.
  { apply (dispatch_idle s data h (FInt64 position :: FInt32 count :: payload) o hi);
      try done; [by rewrite Ht|].
    unfold processRequest_body. cbn [req_length req_type advance].
    destruct (Z.gtb_spec (req_length data) 66000); [lia|]. rewrite Ht.
    unfold readInt64, readInt32, reader_skip.
    repeat (cbn [req_fields req_position advance]; msimpl).
    destruct (Z.leb_spec count (remaining payload)); [|lia]. msimpl.
    fold s0. rewrite (bind_val _ _ _ _ _ (deref_Some _ _ _ Ho0)). done. }
  rewrite Hstep. set (s1 := (call op (KSuccess response) s0).1).
  assert (heap s1 !! o = Some (set_locked true hi)) as Ho1 by exact Ho0.
  split; [done|]. split; [done|]. unfold step.
  rewrite (callback_step s1 (next_call s) (KSuccess response)); [| |done].
  2:{ cbn. apply lookup_insert_eq. }
  unfold try_catch. cbn [resume fs_err fs_value]. unfold sendSuccess.
  cbn [sendIfError]. msimpl. unfold SftpStatus_writeSuccess.
  rewrite SftpStatus_write_ok by by vm_compute. msimpl.
  rewrite (complete_idle _ _ o (set_locked true hi));
    [|by rewrite (proj2 (status_meta _ _ _))|done..].
  cbn [fst]. split; [|split].
  - cbn. by rewrite <- !app_assoc.
  - cbn. by apply relock_heap.
  - cbn. rewrite delete_insert_eq. apply delete_id. by apply pending_fresh.
Qed.

(** ** No request is dropped *)

Lemma extends_refl s : extends s s.
Proof. exists []. by rewrite app_nil_r. Qed.

Lemma extends_same s s' : trace s' = trace s -> extends s s'.
Proof. intros Ht. exists []. by rewrite app_nil_r. Qed.

Lemma extends_trans s1 s2 s3 : extends s1 s2 -> extends s2 s3 -> extends s1 s3.
Proof. intros [a1 H1] [a2 H2]. exists (a1 ++ a2). by rewrite H2, H1, app_assoc. Qed.

Lemma acted_extends s1 s2 s3 : acted s1 s2 -> extends s2 s3 -> acted s1 s3.
Proof.
  intros (a & a1 & H1) [a2 H2]. exists a, (a1 ++ a2). by rewrite H2, H1, <- app_assoc.
Qed.

Lemma extends_acted s1 s2 s3 : extends s1 s2 -> acted s2 s3 -> acted s1 s3.
Proof.
  intros [a1 H1] (a & a2 & H2). destruct a1 as [|b a1].
  - exists a, a2. by rewrite H2, H1, app_nil_r.
  - exists b, (a1 ++ a :: a2). by rewrite H2, H1, <- app_assoc.
Qed.

Lemma acted_weaken s s' : acted s s' -> extends s s'.
Proof. intros (a & acts & ?). by exists (a :: acts). Qed.

Lemma quiet_extends s s' : quiet s s' -> extends s s'.
Proof. intros Hq. exists []. by rewrite app_nil_r, (q_trace _ _ Hq). Qed.

Lemma acts_pre send s0 s out : quiet s0 s -> Acts send s out -> Acts send s0 out.
Proof.
  intros Hq [(s1 & ? & ?)|[(s1 & op & k & ? & ?)|(s1 & r & ? & ?)]].
  - left. exists s1. split; [by eapply quiet_trans|done].
  - right; left. exists s1, op, k. split; [by eapply quiet_trans|done].
  - right; right. exists s1, r. split; [by eapply quiet_trans|done].
Qed.

Lemma acts_throw send s : Acts send s (s, Exn).
Proof. left. exists s. split; [apply quiet_refl|done]. Qed.

Lemma acts_call send op k s : Acts send s (call op k s).
Proof. right; left. exists s, op, k. split; [apply quiet_refl|done]. Qed.

Lemma acts_send send r s : Acts send s (send r s).
Proof. right; right. exists s, r. split; [apply quiet_refl|done]. Qed.

Lemma acts_sendStatus send r code msg s : Acts send s (sendStatus send r code msg s).
Proof.
  unfold sendStatus. destruct (SftpStatus_write r code msg); msimpl;
    [apply acts_send | apply acts_throw].
Qed.

Lemma acts_sendError send r e fatal s : Acts send s (sendError send r e fatal s).
Proof.
  unfold sendError.
  destruct (if negb fatal then _ else _) as [code message].
  destruct (SftpStatus_write r code message); msimpl; [apply acts_send | apply acts_throw].
Qed.

Lemma acts_readdir_done send r count offset s :
  Acts send s (readdir_done send r count offset s).
Proof.
  unfold readdir_done. destruct (count =? 0); [apply acts_sendStatus | apply acts_send].
Qed.

Lemma acts_readdir send r o count offset s : Acts send s (readdir r o count offset s).
Proof.
  unfold readdir. destruct (heap s !! o) as [i|] eqn:Hi.
  - rewrite (bind_val _ _ _ _ _ (deref_Some _ _ _ Hi)). apply acts_call.
  - rewrite (bind_exn _ _ _ _ (deref_None _ _ Hi)). apply acts_throw.
Qed.

Lemma acts_readdir_loop send r o count offset l s :
  Acts send s (readdir_loop send r o count offset l s).
Proof.
  revert r count s. induction l as [|item l IH]; intros r count s; cbn [readdir_loop].
  - apply acts_readdir.
  - destruct (writeItem r item) as [r'|]; msimpl; [|apply acts_throw].
    destruct (res_position r' >? 28672); [|apply IH].
    destruct (heap s !! o) as [i|] eqn:Hi.
    + rewrite (bind_val _ _ _ _ _ (update_Some _ _ _ _ Hi)).
      eapply acts_pre; [by apply (quiet_update o (set_items (Some l)) i)|].
      apply acts_readdir_done.
    + rewrite (bind_exn _ _ _ _ (update_None _ _ _ Hi)). apply acts_throw.
Qed.

Lemma acts_readdir_next send r o count offset items s :
  Acts send s (readdir_next send r o count offset items s).
Proof. destruct items; [apply acts_readdir_loop | apply acts_readdir_done]. Qed.

(** One step of symbolic execution of a handler, for [Acts]. *)
Ltac ac_step :=
  msimpl;
  lazymatch goal with
  | |- Acts _ _ ((lift ?x ≫= _) _) =>
      let v := fresh "v" in
      destruct x as [v|] eqn:?; msimpl;
      [lazymatch type of v with prod _ _ => destruct v as [? ?] | _ => idtac end
      | apply acts_throw]
  | |- Acts _ _ ((deref ?o ≫= _) ?s) =>
      let Hi := fresh "Hi" in
      destruct (heap s !! o) eqn:Hi;
      [ rewrite (bind_val _ _ _ _ _ (deref_Some _ _ _ Hi))
      | rewrite (bind_exn _ _ _ _ (deref_None _ _ Hi)); apply acts_throw ]
  | |- Acts _ _ ((update ?o ?f ≫= _) ?s) =>
      let Hi := fresh "Hi" in
      destruct (heap s !! o) eqn:Hi;
      [ rewrite (bind_val _ _ _ _ _ (update_Some _ _ _ _ Hi));
        eapply acts_pre; [by eapply (quiet_update o f)|]
      | rewrite (bind_exn _ _ _ _ (update_None _ _ _ Hi)); apply acts_throw ]
  | |- Acts _ _ ((createHandleInfo ≫= _) ?s) =>
      let Hc := fresh "Hc" in let Hq := fresh "Hq" in
      destruct (createHandleInfo_quiet s) as (? & ? & Hc & Hq);
      rewrite (bind_val _ _ _ _ _ Hc); eapply acts_pre; [exact Hq|]
  | |- Acts _ _ ((deleteHandleInfo ?o ≫= _) ?s) =>
      let Hd := fresh "Hd" in let Hq := fresh "Hq" in let res := fresh "res" in
      destruct (deleteHandleInfo_quiet o s) as (? & res & Hd & ? & Hq);
      destruct res as [[]| |];
      [ rewrite (bind_val _ _ _ _ _ Hd); eapply acts_pre; [exact Hq|]
      | rewrite (bind_exn _ _ _ _ Hd); left; eexists; split; [exact Hq|done]
      | done ]
  | |- Acts _ _ (sendStatus _ _ _ _ _) => apply acts_sendStatus
  | |- Acts _ _ (call _ _ _) => apply acts_call
  | |- Acts _ _ (throw _) => apply acts_throw
  | |- Acts _ _ (openFile _ _ _ _ _ _) => apply acts_call
  | |- Acts ?snd _ (?snd _ _) => apply acts_send
  | |- Acts _ _ (readdir_next _ _ _ _ _ _ _) => apply acts_readdir_next
  | |- Acts _ _ (readdir _ _ _ _ _) => apply acts_readdir
  | |- Acts _ _ (if ?b then _ else _) => destruct b eqn:?
  | |- Acts _ _ ((if ?b then _ else _) _) => destruct b eqn:?
  | |- Acts _ _ (match ?x with _ => _ end _) => destruct x eqn:?
  | |- Acts _ _ (match ?x with _ => _ end) => destruct x eqn:?
  end.

Lemma acts_processRequest_body send request response ow s :
  Acts send s (processRequest_body send request response ow s).
Proof.
  unfold processRequest_body.
  destruct (req_length request >? 66000); [apply acts_sendStatus|].
  destruct (req_type request).
  all: try apply acts_sendStatus.
  all: repeat ac_step.
Qed.

Lemma send_acted send r s : send_emits send -> acted s (send r s).1.
Proof. intros Hs. destruct (Hs r s) as [acts ?]. by exists (ASend (finish r)), acts. Qed.

Lemma acts_outcome send s out :
  send_emits send -> Acts send s out ->
  (out.2 = Exn /\ trace out.1 = trace s) \/ acted s out.1.
Proof.
  intros Hs [(s1 & Hq & ->)|[(s1 & op & k & Hq & ->)|(s1 & r & Hq & ->)]].
  - left. split; [done|]. apply (q_trace _ _ Hq).
  - right. eapply extends_acted; [by apply quiet_extends|]. by exists (ACall (next_call s1) op k), [].
  - right. eapply extends_acted; [by apply quiet_extends|]. by apply send_acted.
Qed.

Lemma fatal_acted send r s : send_emits send -> acted s (sendError send r caught true s).1.
Proof.
  intros Hs. unfold sendError. cbn [negb].
  rewrite SftpStatus_write_ok by by vm_compute. msimpl. by apply send_acted.
Qed.

Lemma processRequest_acted send request response ow s :
  send_emits send -> _fs s = true ->
  acted s (processRequest send request response ow s).1.
Proof.
  intros Hs Hfs. unfold processRequest. msimpl. rewrite Hfs. cbn [negb]. unfold try_catch.
  destruct (acts_outcome _ _ _ Hs (acts_processRequest_body send request response ow s))
    as [[Hexn Htr]|Hact].
  - destruct (processRequest_body send request response ow s) as [s' res].
    cbn in Hexn, Htr. subst res.
    destruct (fatal_acted send response s' Hs) as (a & acts & Ha).
    exists a, acts. by rewrite Ha, Htr.
  - destruct (processRequest_body send request response ow s) as [s' [[]| |]];
      cbn in Hact |- *; try done.
    eapply acted_extends; [exact Hact|]. apply acted_weaken. by apply fatal_acted.
Qed.

Lemma processRequest_extends send request response ow s :
  send_emits send -> extends s (processRequest send request response ow s).1.
Proof.
  intros Hs. destruct (_fs s) eqn:Hfs.
  - apply acted_weaken. by apply processRequest_acted.
  - rewrite processRequest_disposed by done. apply extends_refl.
Qed.

Lemma sendStatus_acted send r code msg s :
  send_emits send -> string_size msg <= capacity - 17 ->
  acted s (sendStatus send r code msg s).1.
Proof.
  intros Hs Hm. unfold sendStatus. rewrite SftpStatus_write_ok by done. msimpl.
  by apply send_acted.
Qed.

Lemma send_emits_fuel fuel : send_emits (send fuel).
Proof.
  induction fuel as [|fuel IH]; intros r s; cbn [send]; msimpl.
  { destruct (handleInfo r); by exists []. }
  destruct (handleInfo r) as [o|]; [|by exists []].
  set (s1 := emit (ASend (finish r)) s).
  assert (extends s1 (processNext (send fuel) o s1).1) as [acts Hacts].
  { unfold processNext. destruct (heap s1 !! o) as [hi|] eqn:Ho.
    2:{ rewrite (bind_exn _ _ _ _ (deref_None _ _ Ho)). apply extends_refl. }
    rewrite (bind_val _ _ _ _ _ (deref_Some _ _ _ Ho)).
    destruct (hi_tasks hi) as [|[request response] rest].
    { rewrite (update_Some _ _ _ _ Ho). by apply extends_same. }
    rewrite (bind_val _ _ _ _ _ (update_Some _ _ _ _ Ho)).
    set (s2 := set_heap _ s1). apply (extends_trans _ s2); [by apply extends_same|].
    unfold run_task. destruct (heap s2 !! o) as [hi2|] eqn:Ho2.
    2:{ rewrite (bind_exn _ _ _ _ (deref_None _ _ Ho2)). apply extends_refl. }
    rewrite (bind_val _ _ _ _ _ (deref_Some _ _ _ Ho2)).
    destruct (hi_h hi2 <? 0).
    - apply acted_weaken. apply sendStatus_acted; [done|by vm_compute].
    - by apply processRequest_extends. }
  exists acts. rewrite Hacts. cbn. by rewrite <- app_assoc.
Qed.

Lemma close_slot_extends acc h : extends acc.1 (close_slot acc h).1.
Proof.
  destruct acc as [s [[]| |]]; cbn [close_slot fst]; try apply extends_refl.
  destruct (_handles s !! h) as [o|]; [|apply extends_refl].
  destruct (heap s !! o) as [hi|] eqn:Ho.
  - rewrite (bind_val _ _ _ _ _ (deref_Some _ _ _ Ho)). by eexists [_].
  - rewrite (bind_exn _ _ _ _ (deref_None _ _ Ho)). apply extends_refl.
Qed.

Lemma close_all_extends s : extends s (close_all s).1.
Proof.
  rewrite close_all_eq. generalize (seqZ 0 (MAX_HANDLE_COUNT + 1)).
  change s with (s, Val tt : Res unit).1 at 1. generalize (s, Val tt : Res unit).
  intros acc l. revert acc. induction l as [|h l IH]; intros acc; [apply extends_refl|].
  cbn [foldl]. eapply extends_trans; [apply close_slot_extends | apply IH].
Qed.

Lemma end_extends s : extends s (end_ s).1.
Proof.
  unfold end_. msimpl. apply (extends_trans _ (emit AChannelClose s)); [by exists [AChannelClose]|].
  change (_fs (emit AChannelClose s)) with (_fs s). destruct (_fs s); cbn [negb];
    [|apply extends_refl].
  pose proof (close_all_extends (emit AChannelClose s)) as Hc.
  destruct (close_all (emit AChannelClose s)) as [s' [[]| |]] eqn:Hcl.
  - rewrite (bind_val _ _ _ _ _ Hcl). exact Hc.
  - rewrite (bind_exn _ _ _ _ Hcl). exact Hc.
  - rewrite (bind_nofuel _ _ _ _ Hcl). exact Hc.
Qed.

Lemma process_outcome send s data :
  send_emits send -> _fs s = true ->
  let out := _process send data s in
  acted s out.1 \/
  (out.2 = Exn /\ trace out.1 = trace s) \/
  (out.2 = Val tt /\
   exists h rest o hi,
     req_fields data = FInt32 4 :: FInt32 h :: rest /\
     _handles s !! h = Some o /\ heap s !! o = Some hi /\ hi_locked hi = true /\
     exists task, heap out.1 !! o = Some (set_tasks (hi_tasks hi ++ [task]) hi)).
Proof.
  intros Hs Hfs. cbv zeta. unfold _process. msimpl.
  set (s1 := set_next_response (S (next_response s)) s).
  assert (forall s' : SftpServerSession, acted s1 s' -> acted s s') as Hwrap.
  { intros s' Hact. eapply extends_acted; [|exact Hact]. by apply extends_same. }
  destruct (decide (req_type data = INIT)) as [Hi|Hi].
  { destruct (readInt32 data) as [[version request]|]; msimpl; [|by right; left].
    unfold writeInt32. rewrite write_ok by by vm_compute. msimpl.
    left. apply Hwrap. by apply send_acted. }
  destruct (handle_bound (req_type data)).
  2:{ left. apply Hwrap. by apply processRequest_acted. }
  unfold readHandleInfo.
  destruct (readInt32 data) as [[k request]|] eqn:Hk; msimpl; [|by right; left].
  destruct (Z.eqb_spec k 4) as [->|Hk4]; cbn [negb]; msimpl.
  2:{ left. apply Hwrap. apply sendStatus_acted; [done|by vm_compute]. }
  destruct (readInt32 request) as [[h request']|] eqn:Hh; msimpl; [|by right; left].
  change (_handles s1) with (_handles s).
  destruct (_handles s !! h) as [o|] eqn:Hslot.
  2:{ left. apply Hwrap. apply sendStatus_acted; [done|by vm_compute]. }
  destruct (heap s !! o) as [hi|] eqn:Ho.
  2:{ right; left. by rewrite (bind_exn _ _ _ _ (deref_None o s1 Ho)). }
  rewrite (bind_val _ _ _ _ _ (deref_Some o hi s1 Ho)).
  destruct (hi_locked hi) eqn:Hl; cbn [negb].
  - right; right. unfold readInt32 in Hk, Hh.
    destruct (req_fields data) as [|[] rest] eqn:Hf; try done. simplify_eq.
    cbn [advance req_fields] in Hh. destruct rest as [|[] rest]; try done. simplify_eq.
    rewrite (update_Some o _ hi s1 Ho). split; [done|].
    exists h, rest, o, hi. repeat split; try done.
    eexists. cbn. by apply (heap_insert_eq _ _ hi).
  - left. rewrite (bind_val _ _ _ _ _ (update_Some o _ hi s1 Ho)).
    apply Hwrap. eapply extends_acted; [|apply processRequest_acted; done].
    by apply extends_same.
Qed.

(** X20. An active session drops no request.  Whatever the state and
    whatever the packet, a message has an effect that can be observed: at
    least one action is added to the trace (a packet sent, a call into the
    backend, or the "error" event when [_process] throws), or the request
    names a handle whose handle info is locked and is appended to its
    queue. *)
Theorem request_not_dropped (s : SftpServerSession) (data : SftpPacketReader) :
  _fs s = true ->
  acted s (step s (EvMessage data)) \/
  exists h rest o hi,
    req_fields data = FInt32 4 :: FInt32 h :: rest /\
    _handles s !! h = Some o /\ heap s !! o = Some hi /\ hi_locked hi = true /\
    exists task,
      heap (step s (EvMessage data)) !! o =
      Some (set_tasks (hi_tasks hi ++ [task]) hi).
Proof.
  intros Hfs. unfold step, step_res, on_message, try_catch.
  destruct (process_outcome _ s data (send_emits_fuel (S (total_tasks s))) Hfs)
    as [Hact|[[Hexn Htr]|[Hval Hq]]];
    destruct (_process (send (S (total_tasks s))) data s) as [s' res];
    cbn [fst snd] in *.
  - left. destruct res as [[]| |]; try done.
    rewrite bind_modify. eapply acted_extends; [exact Hact|].
    apply (extends_trans _ (emit (AEmit "error") s')); [by exists [AEmit "error"]|].
    apply end_extends.
  - left. subst res. rewrite bind_modify.
    eapply acted_extends; [|apply end_extends].
    exists (AEmit "error"), []. cbn. by rewrite Htr.
  - right. subst res. exact Hq.
Qed.

(** ** No backend answer is dropped *)

Lemma acts_result send s out :
  send_emits send -> Acts send s out ->
  extends s out.1 /\ (out.2 = Exn \/ acted s out.1).
Proof.
  intros Hs Ha. destruct (acts_outcome _ _ _ Hs Ha) as [[Hexn Htr]|Hact].
  - split; [by apply extends_same | by left].
  - split; [by apply acted_weaken | by right].
Qed.

Lemma error_branch send r e (cleanup : M unit) s :
  send_emits send -> (forall s2, trace (cleanup s2).1 = trace s2) ->
  let out := (sendError send r e false ≫= fun _ => cleanup) s in
  extends s out.1 /\ (out.2 = Exn \/ acted s out.1).
Proof.
  intros Hs Hc. cbv zeta. unfold sendError. cbn [negb].
  destruct (SftpStatus_write r _ _) as [r'|]; msimpl.
  2:{ split; [apply extends_refl | by left]. }
  pose proof (send_acted send r' s Hs) as Hact.
  assert (acted s ((send r' ≫= fun _ => cleanup) s).1) as Hres.
  { destruct (send r' s) as [s2 [[]| |]] eqn:Hsend.
    - rewrite (bind_val _ _ _ _ _ Hsend). destruct Hact as (a & acts & Ha).
      exists a, acts. by rewrite Hc.
    - by rewrite (bind_exn _ _ _ _ Hsend).
    - by rewrite (bind_nofuel _ _ _ _ Hsend). }
  split; [by apply acted_weaken | by right].
Qed.

Lemma deleteHandleInfo_trace o s : trace (deleteHandleInfo o s).1 = trace s.
Proof.
  destruct (deleteHandleInfo_quiet o s) as (s' & r & -> & _ & Hq). apply (q_trace _ _ Hq).
Qed.

Lemma resume_outcome send k err v r s :
  send_emits send -> kresponse k = Some r ->
  let out := resume send k err v s in
  extends s out.1 /\ (out.2 = Exn \/ acted s out.1).
Proof.
  intros Hs Hk. cbv zeta.
  destruct k; cbn in Hk; simplify_eq; cbn [resume];
    unfold sendSuccess, sendAttribs, sendPath; rewrite sendIfError_bind.
  all: destruct err as [e|];
         [ apply error_branch; [done|]; intros s2; first [done | apply deleteHandleInfo_trace]
         | apply (acts_result send); [done|]; unfold sendHandle; repeat ac_step ].
Qed.

(** X21. No answer of the backend is dropped.  When the backend fires a
    pending callback other than the one [end()] passes along, with
    arguments of the kind the callback expects, the callback always does
    something that can be observed: it sends a packet, calls into the
    backend again, or throws an exception that nothing catches. *)
Theorem answer_not_dropped (s : SftpServerSession) (c : nat) (k : Callback)
    (res : FsResult) :
  pending s !! c = Some k -> k <> KIgnore -> well_typed k res = true ->
  exists a acts, trace (step s (EvCallback c res)) = trace s ++ ADone c res :: a :: acts.
Proof.
  intros Hc Hk Hw. unfold step. rewrite (callback_step _ _ _ _ Hc Hw).
  set (s1 := emit (ADone c res) _). unfold try_catch.
  destruct (kresponse k) as [r|] eqn:Hr; [|by destruct k].
  destruct (resume_outcome (send (S (total_tasks s))) k (fs_err res) (fs_value res) r s1
              (send_emits_fuel _) Hr) as [[acts Hext] Hout].
  assert (forall s' : SftpServerSession, acted s1 s' ->
            exists a acts, trace s' = trace s ++ ADone c res :: a :: acts) as Hfin.
  { intros s' (a & acts' & Ha). exists a, acts'. rewrite Ha. cbn. by rewrite <- app_assoc. }
  destruct (resume _ k _ _ s1) as [s' [[]| |]]; cbn [fst snd] in *.
  - destruct Hout as [?|Hact]; [done|]. by apply Hfin.
  - apply Hfin. destruct acts as [|a acts].
    + exists AUncaught, []. cbn. by rewrite Hext, app_nil_r.
    + exists a, (acts ++ [AUncaught]). cbn. by rewrite Hext, <- app_assoc.
  - destruct Hout as [?|Hact]; [done|]. by apply Hfin.
Qed.

(** ** Requests from arrival to reply *)

(** A callback that ends in [send r] puts the packet of [r] on the channel
    right after it has been entered. *)
Lemma callback_sends s c k res r :
  pending s !! c = Some k -> well_typed k res = true ->
  (forall s0, resume (send (S (total_tasks s))) k (fs_err res) (fs_value res) s0 =
              send (S (total_tasks s)) r s0) ->
  exists acts,
    trace (step s (EvCallback c res)) = trace s ++ ADone c res :: ASend (finish r) :: acts.
Proof.
  intros Hc Hw Hres. unfold step. rewrite (callback_step s c k) by done.
  unfold try_catch. rewrite Hres.
  destruct (send_emits_fuel (S (total_tasks s)) r
              (emit (ADone c res) (set_pending (delete c (pending s)) (next_call s) s)))
    as [acts Hacts].
  destruct (send _ r _) as [s' [[]| |]]; cbn [fst] in *.
  - exists acts. rewrite Hacts. cbn. by rewrite <- app_assoc.
  - exists (acts ++ [AUncaught]). cbn. rewrite Hacts. cbn.
    by rewrite <- !app_assoc.
  - exists acts. rewrite Hacts. cbn. by rewrite <- app_assoc.
Qed.

(** The READ case of [processRequest] on a handle info that is there. *)
Lemma read_body fuel request r position count rest o hi s :
  req_type request = READ -> req_length request <= 66000 ->
  req_fields request = FInt64 position :: FInt32 count :: rest ->
  heap s !! o = Some hi ->
  let len := if count >? 0x8000 then 0x8000 else count in
  processRequest_body (send fuel) request r (Some o) s =
  (emit (ACall (next_call s)
           (FsRead (hi_handle hi) (rid r) (9 + 4) len position)
           (KRead (start (set_type DATA r))))
     (set_pending (<[next_call s := KRead (start (set_type DATA r))]> (pending s))
        (S (next_call s)) s), Val tt).
Proof.
  intros Ht Hlen Hf Ho len.
  assert (len <= 0x8000) as Hcap.
  { unfold len. destruct (Z.gtb_spec count 0x8000); lia. }
  unfold processRequest_body.
  destruct (Z.gtb_spec (req_length request) 66000); [lia|]. rewrite Ht.
  unfold readInt64. rewrite Hf. msimpl. unfold readInt32. cbn [advance req_fields]. msimpl.
  fold len. set (data := start (set_type DATA r)). unfold check.
  destruct (Z.leb_spec (4 + len) (capacity - res_position data)) as [_|Hbad].
  2:{ unfold capacity in Hbad. change (res_position data) with 9 in Hbad. lia. }
  cbn [negb]. msimpl. rewrite (bind_val _ _ _ _ _ (deref_Some _ _ _ Ho)). done.
Qed.

(** A handler whose [try] block returns: [processRequest] on an active
    session, and the queued task of a handle that is still open. *)
Lemma processRequest_active send request response ow s s' :
  _fs s = true -> processRequest_body send request response ow s = (s', Val tt) ->
  processRequest send request response ow s = (s', Val tt).
Proof.
  intros Hfs Hbody. unfold processRequest. msimpl. rewrite Hfs. cbn [negb].
  by apply try_catch_val.
Qed.

Lemma run_task_live send o hi request response s :
  heap s !! o = Some hi -> 0 <= hi_h hi ->
  run_task send o (request, response) s = processRequest send request response (Some o) s.
Proof.
  intros Ho Hlive. unfold run_task. rewrite (bind_val _ _ _ _ _ (deref_Some _ _ _ Ho)).
  destruct (Z.ltb_spec (hi_h hi) 0); [lia|done].
Qed.

(** The callback of READ, up to its [send]. *)
Lemma read_done fuel r bytesRead s :
  bytesRead <= capacity - (9 + 4) ->
  resume (send fuel) (KRead (start (set_type DATA r))) None (VBytesRead bytesRead) s =
  send fuel
    (if bytesRead =? 0 then status_response (start (set_type DATA r)) EOF "EOF"
     else set_buffer (9 + 4 + bytesRead) [FInt32 bytesRead; FData bytesRead]
            (start (set_type DATA r))) s.
Proof.
  intros Hle. cbn [resume sendIfError]. msimpl. cbn [as_bytesRead]. msimpl.
  destruct (Z.eqb_spec bytesRead 0) as [->|Hnz].
  { unfold sendStatus. by rewrite SftpStatus_write_ok by by vm_compute. }
  unfold writeInt32. rewrite write_ok by (cbn; unfold capacity; lia). msimpl.
  unfold skip, check. cbn [set_buffer res_position res_fields field_size].
  destruct (Z.leb_spec bytesRead (capacity - (res_position (start (set_type DATA r)) + 4)))
    as [_|Hbad].
  2:{ unfold capacity in *. change (res_position (start (set_type DATA r))) with 9 in Hbad.
      lia. }
  msimpl. done.
Qed.

(** C7. READ, from request to reply.  A READ that names an idle handle,
    in a reachable state of an active session, takes the lock and asks the
    backend to read [len] bytes, the requested count capped at 0x8000, at
    the requested file position into the buffer of the response itself, at
    offset 13: past the header (9 bytes) and the 4 bytes kept for the
    length field.  Nothing is sent yet.  When the backend reports zero
    bytes the status EOF goes out; when it reports [bytesRead] bytes (a
    count the buffer has room for, so in particular any count up to [len])
    a DATA packet goes out whose length field holds [bytesRead], followed
    by the [bytesRead] bytes the backend has placed.  A READ that had to
    wait for the handle makes the same call when its task is run, and
    whatever the state its callback runs in, the same packet is the first
    thing the callback sends. *)
Theorem read_behaviour (evs : list Event) (data : SftpPacketReader)
    (h position count : Z) (rest : list Field) (o : nat) (hi : SftpHandleInfo) :
  let s := run evs new_SftpServerSession in
  _fs s = true -> req_type data = READ -> req_length data <= 66000 ->
  req_fields data = FInt32 4 :: FInt32 h :: FInt64 position :: FInt32 count :: rest ->
  _handles s !! h = Some o -> heap s !! o = Some hi -> hi_locked hi = false ->
  let len := if count >? 0x8000 then 0x8000 else count in
  let c := next_call s in
  let request :=
    advance (advance data 4 (FInt32 h :: FInt64 position :: FInt32 count :: rest)) 4
      (FInt64 position :: FInt32 count :: rest) in
  let response :=
    set_handleInfo o (set_id (req_id data) (new_SftpResponse (next_response s))) in
  let s1 := step s (EvMessage data) in
  len <= 0x8000 /\ 9 + 4 + len <= capacity /\
  trace s1 = trace s ++
    [ACall c (FsRead (hi_handle hi) (rid response) (9 + 4) len position)
       (KRead (start (set_type DATA response)))] /\
  pending s1 = <[c := KRead (start (set_type DATA response))]> (pending s) /\
  heap s1 = <[o := set_locked true hi]> (heap s) /\
  (forall bytesRead, 0 <= bytesRead <= capacity - (9 + 4) ->
     let answer := {| fs_err := None; fs_value := VBytesRead bytesRead |} in
     let s2 := step s1 (EvCallback c answer) in
     trace s2 = trace s1 ++
       [ADone c answer;
        ASend (if bytesRead =? 0 then status_packet (req_id data) EOF "EOF"
               else data_packet (req_id data) bytesRead)] /\
     heap s2 = heap s /\ pending s2 = pending s) /\
  (forall fuel r s0 hi0,
     _fs s0 = true -> heap s0 !! o = Some hi0 -> 0 <= hi_h hi0 ->
     let out := run_task (send fuel) o (request, r) s0 in
     out.2 = Val tt /\
     trace out.1 = trace s0 ++
       [ACall (next_call s0) (FsRead (hi_handle hi0) (rid r) (9 + 4) len position)
          (KRead (start (set_type DATA r)))] /\
     pending out.1 = <[next_call s0 := KRead (start (set_type DATA r))]> (pending s0)) /\
  (forall s' c' r bytesRead,
     pending s' !! c' = Some (KRead (start (set_type DATA r))) ->
     0 <= bytesRead <= capacity - (9 + 4) ->
     let answer := {| fs_err := None; fs_value := VBytesRead bytesRead |} in
     exists acts,
       trace (step s' (EvCallback c' answer)) = trace s' ++
         ADone c' answer ::
         ASend (if bytesRead =? 0 then status_packet (res_id r) EOF "EOF"
                else data_packet (res_id r) bytesRead) :: acts).
Proof.
  cbv zeta. set (s := run evs new_SftpServerSession). intros Hfs Ht Hlen Hf Hh Ho Hl.
  set (len := if count >? 0x8000 then 0x8000 else count).
  assert (len <= 0x8000) as Hcap.
  { unfold len. destruct (Z.gtb_spec count 0x8000); lia. }
  pose proof (reachable_Inv evs) as HI. fold s in HI.
  pose proof (inv_idle _ HI _ _ Ho Hl) as Hq.
  set (response := set_handleInfo o (set_id (req_id data) (new_SftpResponse (next_response s)))).
  set (request := advance (advance data 4 _) 4 _).
  set (s0 := set_heap (<[o := set_locked true hi]> (heap s))
               (set_next_response (S (next_response s)) s)).
  assert (heap s0 !! o = Some (set_locked true hi)) as Ho0.
  { cbn. by apply (heap_insert_eq _ _ hi). }
  assert (step s (EvMessage data) =
          (emit (ACall (next_call s)
                   (FsRead (hi_handle hi) (rid response) (9 + 4) len position)
                   (KRead (start (set_type DATA response))))
             (set_pending (<[next_call s := KRead (start (set_type DATA response))]>
                             (pending s)) (S (next_call s)) s0))) as Hstep.
  { apply (dispatch_idle s data h (FInt64 position :: FInt32 count :: rest) o hi);
      try done; [by rewrite Ht|].
    exact (read_body _ request response position count rest o (set_locked true hi) s0
             Ht Hlen eq_refl Ho0). }
  rewrite Hstep. set (s1 := emit _ _).
  assert (heap s1 !! o = Some (set_locked true hi)) as Ho1 by exact Ho0.
  split; [done|]. split; [unfold capacity; lia|].
  split; [done|]. split; [done|]. split; [done|]. split; [|split].
  - intros bytesRead [_ Hle]. unfold step.
    rewrite (callback_step s1 (next_call s) (KRead (start (set_type DATA response))));
      [| |done].
    2:{ cbn. apply lookup_insert_eq. }
    unfold try_catch. cbn [fs_err fs_value]. rewrite read_done by done.
    rewrite (complete_idle _ _ o (set_locked true hi)); [|by destruct (bytesRead =? 0)|done..].
    cbn [fst]. split; [|split].
    + cbn. rewrite <- !app_assoc. by destruct (bytesRead =? 0).
    + cbn. by apply relock_heap.
    + cbn. rewrite delete_insert_eq. apply delete_id. by apply pending_fresh.
  - intros fuel r s' hi0 Hfs' Ho' Hlive.
    rewrite (run_task_live _ _ hi0) by done.
    rewrite (processRequest_active _ _ _ _ _ _ Hfs'
               (read_body fuel request r position count rest o hi0 s' Ht Hlen eq_refl Ho')).
    done.
  - intros s' c' r bytesRead Hc [_ Hle].
    destruct (callback_sends s' c' (KRead (start (set_type DATA r)))
                {| fs_err := None; fs_value := VBytesRead bytesRead |}
                (if bytesRead =? 0 then status_response (start (set_type DATA r)) EOF "EOF"
                 else set_buffer (9 + 4 + bytesRead) [FInt32 bytesRead; FData bytesRead]
                        (start (set_type DATA r)))) as [acts Hacts]; [done..| |].
    { intros s2. by apply read_done. }
    exists acts. rewrite Hacts. by destruct (bytesRead =? 0).
Qed.

(** ** READDIR, from request to reply *)














(** ** OPEN and OPENDIR, from request to reply *)

(** A request that names no handle, on an active session. *)
Lemma dispatch_unbound s data s3 :
  _fs s = true -> req_type data <> INIT -> handle_bound (req_type data) = false ->
  processRequest_body (send (S (total_tasks s))) data
    (set_id (req_id data) (new_SftpResponse (next_response s))) None
    (set_next_response (S (next_response s)) s) = (s3, Val tt) ->
  step s (EvMessage data) = s3.
Proof.
  intros Hfs Hi Hb Hbody.
  unfold step, step_res, on_message, try_catch, _process. msimpl.
  destruct (decide (req_type data = INIT)); [done|]. rewrite Hb.
  unfold processRequest. msimpl.
  change (_fs (set_next_response _ s)) with (_fs s). rewrite Hfs. cbn [negb].
  unfold try_catch. by rewrite Hbody.
Qed.

(** The allocation of [createHandleInfo], read off the table. *)
Lemma createHandleInfo_scan s :
  createHandleInfo s =
  match scan (Z.to_nat MAX_HANDLE_COUNT) (nextHandle s) (_handles s) with
  | Some h => (allocate h s, Val (Some (length (heap s))))
  | None => (s, Val None)
  end.
Proof. unfold createHandleInfo. msimpl. by rewrite createHandleInfo_loop_scan. Qed.

Lemma scan_free s h :
  1 <= nextHandle s <= MAX_HANDLE_COUNT ->
  scan (Z.to_nat MAX_HANDLE_COUNT) (nextHandle s) (_handles s) = Some h ->
  1 <= h <= MAX_HANDLE_COUNT /\ _handles s !! h = None.
Proof.
  intros Hn (k & _ & -> & Hfree & _)%scan_Some. split; [|done].
  by apply iter_next_slot_range.
Qed.

Lemma scan_full s :
  1 <= nextHandle s <= MAX_HANDLE_COUNT ->
  scan (Z.to_nat MAX_HANDLE_COUNT) (nextHandle s) (_handles s) = None ->
  forall x, 1 <= x <= MAX_HANDLE_COUNT -> is_Some (_handles s !! x).
Proof.
  intros Hn Hs x Hx. destruct (scan_reaches _ _ Hn Hx) as (k & Hk & <-).
  by eapply scan_None.
Qed.

(** The OPEN case of [processRequest]. *)
Lemma open_body fuel request r path pflags attrs rest s :
  req_type request = OPEN -> req_length request <= 66000 ->
  req_fields request = FString path :: FInt32 pflags :: FAttrs attrs :: rest ->
  handleInfo r = None ->
  processRequest_body (send fuel) request r None s =
  match SftpFlags_fromNumber pflags with
  | [] => (emit (ASend (status_packet (res_id r) FAILURE "Unsupported flags")) s, Val tt)
  | mode :: ms =>
      match scan (Z.to_nat MAX_HANDLE_COUNT) (nextHandle s) (_handles s) with
      | Some h =>
          call (FsOpen path (Some mode) attrs) (KOpen r path attrs ms (length (heap s)))
               (allocate h s)
      | None =>
          (emit (ASend (status_packet (res_id r) FAILURE "Too many open handles")) s, Val tt)
      end
  end.
Proof.
  intros Ht Hlen Hf Hr. unfold processRequest_body.
  destruct (Z.gtb_spec (req_length request) 66000); [lia|]. rewrite Ht.
  unfold readString. rewrite Hf. msimpl. unfold readInt32. cbn [advance req_fields]. msimpl.
  unfold readAttributes. cbn [advance req_fields]. msimpl.
  destruct (SftpFlags_fromNumber pflags) as [|mode ms]; cbn [length Nat.eqb].
  { by apply sendStatus_unbound. }
  unfold mbind, M_bind, bind. rewrite createHandleInfo_scan.
  destruct (scan _ _ _) as [h|]; [done|]. by apply sendStatus_unbound.
Qed.

(** The OPENDIR case of [processRequest]. *)
Lemma opendir_body fuel request r path rest s :
  req_type request = OPENDIR -> req_length request <= 66000 ->
  req_fields request = FString path :: rest -> handleInfo r = None ->
  processRequest_body (send fuel) request r None s =
  match scan (Z.to_nat MAX_HANDLE_COUNT) (nextHandle s) (_handles s) with
  | Some h => call (FsOpendir path) (KOpendir r (length (heap s))) (allocate h s)
  | None =>
      (emit (ASend (status_packet (res_id r) FAILURE "Too many open handles")) s, Val tt)
  end.
Proof.
  intros Ht Hlen Hf Hr. unfold processRequest_body.
  destruct (Z.gtb_spec (req_length request) 66000); [lia|]. rewrite Ht.
  unfold readString. rewrite Hf. msimpl.
  unfold mbind, M_bind, bind. rewrite createHandleInfo_scan.
  destruct (scan _ _ _) as [h|]; [done|]. by apply sendStatus_unbound.
Qed.

(** Freeing a handle info in a well-formed table: a live info leaves its
    slot, a tombstone stays as it is; either way the table loses the index
    the info carried and the info carries -1. *)
Lemma deleteHandleInfo_WF o hi s :
  WF s -> heap s !! o = Some hi ->
  deleteHandleInfo o s = (release o hi s, Val tt).
Proof.
  intros Hwf Ho. destruct (wf_info _ Hwf _ _ Ho) as [Hdead|Hslot].
  - rewrite (deleteHandleInfo_tombstone _ hi) by (done || lia). f_equal.
    unfold release. rewrite delete_id.
    2:{ destruct (_handles s !! hi_h hi) as [o'|] eqn:Hs; [|done].
        destruct (wf_slot _ Hwf _ _ Hs) as [? _]. lia. }
    replace (set_h (-1) hi) with hi by (destruct hi; cbn in *; by subst).
    rewrite list_insert_id by done. by destruct s.
  - destruct (wf_slot _ Hwf _ _ Hslot) as [? _].
    apply deleteHandleInfo_live; [done|lia|done].
Qed.

(** A backend error reported to one of the callbacks of OPEN or OPENDIR. *)
Lemma open_failed fuel k response o hi e v s :
  (exists path attrs modes,
      k = KOpen response path attrs modes o \/ k = KOpenClose response path attrs modes o) \/
  k = KOpendir response o ->
  WF s -> handleInfo response = None -> heap s !! o = Some hi ->
  string_size (exn_message (new_SftpException e)) <= capacity - 17 ->
  resume (send fuel) k (Some e) v s =
  (release o hi
     (emit (ASend (status_packet (res_id response) (exn_code (new_SftpException e))
                     (exn_message (new_SftpException e)))) s), Val tt).
Proof.
  intros Hk Hwf Hr Ho Hm.
  set (status := ASend _).
  assert (resume (send fuel) k (Some e) v s = deleteHandleInfo o (emit status s)) as ->.
  { destruct Hk as [(path & attrs & modes & [-> | ->]) | ->]; cbn [resume];
      rewrite sendIfError_bind;
      by rewrite (bind_val _ _ _ _ _ (sendError_unbound _ _ _ _ Hr Hm)). }
  apply deleteHandleInfo_WF; [|done]. by apply (WF_ext s).
Qed.

(** A status whose message does not fit the buffer cannot be written. *)
Lemma SftpStatus_write_overflow r code msg :
  string_size msg > capacity - 17 -> SftpStatus_write r code msg = None.
Proof.
  intros Hm. unfold SftpStatus_write, writeInt32, writeString.
  destruct (write (FInt32 _) _) as [r1|] eqn:H1; [|done].
  apply write_Some in H1 as [_ ->]. cbn [mbind option_bind].
  destruct (write (FString msg) _) as [r2|] eqn:H2; [|done].
  apply write_Some in H2 as [_ ->]. cbn [mbind option_bind].
  destruct (write (FString "") _) as [r3|] eqn:H3; [|done].
  apply write_Some in H3 as [Hc _]. cbn in Hc.
  unfold capacity, string_size in *. cbn in Hc. lia.
Qed.

(** A backend error whose mapped message does not fit: the callback of
    OPEN or OPENDIR throws before it has sent or freed anything. *)
Lemma open_failed_loudly s c k response o e v :
  pending s !! c = Some k ->
  (exists path attrs modes,
      k = KOpen response path attrs modes o \/ k = KOpenClose response path attrs modes o) \/
  k = KOpendir response o ->
  string_size (exn_message (new_SftpException e)) > capacity - 17 ->
  step s (EvCallback c {| fs_err := Some e; fs_value := v |}) =
  emit AUncaught (called_back c {| fs_err := Some e; fs_value := v |} s).
Proof.
  intros Hc Hk Hm. unfold step. rewrite (callback_step s c k); [|done|done].
  unfold try_catch. cbn [fs_err fs_value].
  assert (forall s0, resume (send (S (total_tasks s))) k (Some e) v s0 = (s0, Exn)) as ->.
  { intros s0.
    destruct Hk as [(path & attrs & modes & [-> | ->]) | ->]; cbn [resume];
      rewrite sendIfError_bind; unfold sendError; cbn [negb];
      rewrite SftpStatus_write_overflow by done; by msimpl. }
  done.
Qed.

(** C2 (as amended). OPEN with fallback modes, in any reachable state.
    (1) The request, on an active session and of accepted length.  An
        empty list of decoded modes is answered with FAILURE "Unsupported
        flags" and nothing is allocated.  Otherwise the first free slot
        met from the cursor is filled with a fresh handle info and the
        backend is asked to open the file with the first mode, the other
        modes being left to the callback; nothing is sent yet.  With all
        512 slots filled the answer is FAILURE "Too many open handles".
    (2) An error of the backend, from [open] or from the [close] between
        two attempts, whose mapped message fits the response buffer: the
        status mapped from it goes out and the handle is freed (the slot
        the handle info names is emptied, the info carries -1).  When the
        message does not fit, writing the status throws: the exception
        leaves the callback, nothing is sent and the handle stays as it
        is.
    (3) A successful [open] with modes left asks the backend to close the
        descriptor just opened.
    (4) Once that is closed, the backend is asked to open the file with
        the next mode.
    (5) A successful [open] with no mode left stores the backend handle in
        the handle info and sends a HANDLE packet with the info's index. *)
Theorem open_fallback (evs : list Event) :
  let s := run evs new_SftpServerSession in
  (forall data path pflags attrs rest,
     _fs s = true -> req_type data = OPEN -> req_length data <= 66000 ->
     req_fields data = FString path :: FInt32 pflags :: FAttrs attrs :: rest ->
     let response := set_id (req_id data) (new_SftpResponse (next_response s)) in
     let s0 := set_next_response (S (next_response s)) s in
     let s1 := step s (EvMessage data) in
     match SftpFlags_fromNumber pflags with
     | [] => s1 = emit (ASend (status_packet (req_id data) FAILURE "Unsupported flags")) s0
     | mode :: ms =>
         match scan (Z.to_nat MAX_HANDLE_COUNT) (nextHandle s) (_handles s) with
         | Some h =>
             let k := KOpen response path attrs ms (length (heap s)) in
             1 <= h <= MAX_HANDLE_COUNT /\ _handles s !! h = None /\
             trace s1 = trace s ++ [ACall (next_call s) (FsOpen path (Some mode) attrs) k] /\
             pending s1 = <[next_call s := k]> (pending s) /\
             _handles s1 = <[h := length (heap s)]> (_handles s) /\
             heap s1 = heap s ++ [new_SftpHandleInfo h]
         | None =>
             (forall x, 1 <= x <= MAX_HANDLE_COUNT -> is_Some (_handles s !! x)) /\
             s1 = emit (ASend (status_packet (req_id data) FAILURE "Too many open handles")) s0
         end
     end) /\
  (forall c k response path attrs modes o hi e v,
     pending s !! c = Some k ->
     k = KOpen response path attrs modes o \/ k = KOpenClose response path attrs modes o ->
     handleInfo response = None -> heap s !! o = Some hi ->
     string_size (exn_message (new_SftpException e)) <= capacity - 17 ->
     let answer := {| fs_err := Some e; fs_value := v |} in
     let s2 := step s (EvCallback c answer) in
     trace s2 = trace s ++
       [ADone c answer;
        ASend (status_packet (res_id response) (exn_code (new_SftpException e))
                 (exn_message (new_SftpException e)))] /\
     pending s2 = delete c (pending s) /\
     _handles s2 = delete (hi_h hi) (_handles s) /\
     heap s2 = <[o := set_h (-1) hi]> (heap s)) /\
  (forall c k response path attrs modes o e v,
     pending s !! c = Some k ->
     k = KOpen response path attrs modes o \/ k = KOpenClose response path attrs modes o ->
     string_size (exn_message (new_SftpException e)) > capacity - 17 ->
     let answer := {| fs_err := Some e; fs_value := v |} in
     let s2 := step s (EvCallback c answer) in
     trace s2 = trace s ++ [ADone c answer; AUncaught] /\
     pending s2 = delete c (pending s) /\
     _handles s2 = _handles s /\ heap s2 = heap s) /\
  (forall c response path attrs mode ms o handle,
     pending s !! c = Some (KOpen response path attrs (mode :: ms) o) ->
     let answer := {| fs_err := None; fs_value := VHandle handle |} in
     let s2 := step s (EvCallback c answer) in
     let k := KOpenClose response path attrs (mode :: ms) o in
     trace s2 = trace s ++ [ADone c answer; ACall (next_call s) (FsClose (Some handle)) k] /\
     pending s2 = <[next_call s := k]> (delete c (pending s)) /\
     _handles s2 = _handles s /\ heap s2 = heap s) /\
  (forall c response path attrs mode ms o v,
     pending s !! c = Some (KOpenClose response path attrs (mode :: ms) o) ->
     let answer := {| fs_err := None; fs_value := v |} in
     let s2 := step s (EvCallback c answer) in
     let k := KOpen response path attrs ms o in
     trace s2 = trace s ++
       [ADone c answer; ACall (next_call s) (FsOpen path (Some mode) attrs) k] /\
     pending s2 = <[next_call s := k]> (delete c (pending s)) /\
     _handles s2 = _handles s /\ heap s2 = heap s) /\
  (forall c response path attrs o hi handle,
     pending s !! c = Some (KOpen response path attrs [] o) ->
     handleInfo response = None -> heap s !! o = Some hi ->
     let answer := {| fs_err := None; fs_value := VHandle handle |} in
     let s2 := step s (EvCallback c answer) in
     trace s2 = trace s ++
       [ADone c answer; ASend (handle_packet (res_id response) (hi_h hi))] /\
     pending s2 = delete c (pending s) /\
     _handles s2 = _handles s /\
     heap s2 = <[o := set_handle (Some handle) hi]> (heap s)).
Proof.
  cbv zeta. set (s := run evs new_SftpServerSession).
  pose proof (inv_wf _ (reachable_Inv evs)) as Hwf. fold s in Hwf.
  split; [|split; [|split; [|split; [|split]]]].
  - intros data path pflags attrs rest Hfs Ht Hlen Hf.
    set (response := set_id (req_id data) (new_SftpResponse (next_response s))).
    set (s0 := set_next_response (S (next_response s)) s).
    pose proof (open_body (S (total_tasks s)) data response path pflags attrs rest s0
                  Ht Hlen Hf eq_refl) as Hbody.
    assert (forall s3, processRequest_body (send (S (total_tasks s))) data response None s0
                       = (s3, Val tt) -> step s (EvMessage data) = s3) as Hstep.
    { intros s3. apply dispatch_unbound; [done| |]; by rewrite Ht. }
    destruct (SftpFlags_fromNumber pflags) as [|mode ms]; [by apply Hstep|].
    change (nextHandle s0) with (nextHandle s) in Hbody.
    change (_handles s0) with (_handles s) in Hbody.
    destruct (scan _ _ _) as [h|] eqn:Hscan.
    + destruct (scan_free s h (wf_next _ Hwf) Hscan) as [Hh Hfree].
      rewrite call_eq in Hbody. rewrite (Hstep _ Hbody). done.
    + split; [by apply scan_full; [apply (wf_next _ Hwf)|]|]. by apply Hstep.
  - intros c k response path attrs modes o hi e v Hc Hk Hr Ho Hm. unfold step.
    rewrite (callback_step s c k); [|done|done]. unfold try_catch. cbn [fs_err fs_value].
    rewrite (open_failed _ k response o hi); [|left; by exists path, attrs, modes| |done..].
    2:{ by apply (WF_ext s). }
    cbn. by rewrite <- app_assoc.
  - intros c k response path attrs modes o e v Hc Hk Hm.
    rewrite (open_failed_loudly s c k response o e v);
      [|done|left; by exists path, attrs, modes|done].
    cbn. by rewrite <- app_assoc.
  - intros c response path attrs mode ms o handle Hc. unfold step.
    rewrite (callback_step s c (KOpen response path attrs (mode :: ms) o)); [|done|done].
    unfold try_catch. cbn [resume fs_err fs_value sendIfError]. msimpl.
    cbn [as_handle]. msimpl. cbn [length Nat.eqb]. rewrite call_eq.
    cbn. by rewrite <- app_assoc.
  - intros c response path attrs mode ms o v Hc. unfold step.
    rewrite (callback_step s c (KOpenClose response path attrs (mode :: ms) o)); [|done|done].
    unfold try_catch. cbn [resume fs_err fs_value sendIfError]. msimpl.
    unfold openFile. rewrite call_eq. cbn. by rewrite <- app_assoc.
  - intros c response path attrs o hi handle Hc Hr Ho. unfold step.
    rewrite (callback_step s c (KOpen response path attrs [] o)); [|done|done].
    unfold try_catch. cbn [fs_err fs_value].
    rewrite (handle_stored _ _ response o hi handle); [|right; by exists path, attrs|done..].
    cbn. by rewrite <- app_assoc.
Qed.

(** X12. OPENDIR, in any reachable state.
    (1) The request, on an active session and of accepted length: the
        first free slot met from the cursor is filled with a fresh handle
        info and the backend is asked to open the directory; nothing is
        sent yet.  With all 512 slots filled the answer is FAILURE "Too
        many open handles" and nothing else changes.
    (2) An error of the backend whose mapped message fits the response
        buffer: the status mapped from it goes out and the handle is freed
        (the slot the handle info names is emptied, the info carries -1).
        When the message does not fit, writing the status throws: the
        exception leaves the callback, nothing is sent and the handle
        stays as it is.
    (3) On success the backend handle is stored in the handle info and a
        HANDLE packet goes out with the index of the handle info. *)
Theorem opendir_behaviour (evs : list Event) :
  let s := run evs new_SftpServerSession in
  (forall data path rest,
     _fs s = true -> req_type data = OPENDIR -> req_length data <= 66000 ->
     req_fields data = FString path :: rest ->
     let response := set_id (req_id data) (new_SftpResponse (next_response s)) in
     let s0 := set_next_response (S (next_response s)) s in
     let s1 := step s (EvMessage data) in
     match scan (Z.to_nat MAX_HANDLE_COUNT) (nextHandle s) (_handles s) with
     | Some h =>
         let k := KOpendir response (length (heap s)) in
         1 <= h <= MAX_HANDLE_COUNT /\ _handles s !! h = None /\
         trace s1 = trace s ++ [ACall (next_call s) (FsOpendir path) k] /\
         pending s1 = <[next_call s := k]> (pending s) /\
         _handles s1 = <[h := length (heap s)]> (_handles s) /\
         heap s1 = heap s ++ [new_SftpHandleInfo h]
     | None =>
         (forall x, 1 <= x <= MAX_HANDLE_COUNT -> is_Some (_handles s !! x)) /\
         s1 = emit (ASend (status_packet (req_id data) FAILURE "Too many open handles")) s0
     end) /\
  (forall c response o hi e v,
     pending s !! c = Some (KOpendir response o) ->
     handleInfo response = None -> heap s !! o = Some hi ->
     string_size (exn_message (new_SftpException e)) <= capacity - 17 ->
     let answer := {| fs_err := Some e; fs_value := v |} in
     let s2 := step s (EvCallback c answer) in
     trace s2 = trace s ++
       [ADone c answer;
        ASend (status_packet (res_id response) (exn_code (new_SftpException e))
                 (exn_message (new_SftpException e)))] /\
     pending s2 = delete c (pending s) /\
     _handles s2 = delete (hi_h hi) (_handles s) /\
     heap s2 = <[o := set_h (-1) hi]> (heap s)) /\
  (forall c response o e v,
     pending s !! c = Some (KOpendir response o) ->
     string_size (exn_message (new_SftpException e)) > capacity - 17 ->
     let answer := {| fs_err := Some e; fs_value := v |} in
     let s2 := step s (EvCallback c answer) in
     trace s2 = trace s ++ [ADone c answer; AUncaught] /\
     pending s2 = delete c (pending s) /\
     _handles s2 = _handles s /\ heap s2 = heap s) /\
  (forall c response o hi handle,
     pending s !! c = Some (KOpendir response o) ->
     handleInfo response = None -> heap s !! o = Some hi ->
     let answer := {| fs_err := None; fs_value := VHandle handle |} in
     let s2 := step s (EvCallback c answer) in
     trace s2 = trace s ++
       [ADone c answer; ASend (handle_packet (res_id response) (hi_h hi))] /\
     pending s2 = delete c (pending s) /\
     _handles s2 = _handles s /\
     heap s2 = <[o := set_handle (Some handle) hi]> (heap s)).
Proof.
  cbv zeta. set (s := run evs new_SftpServerSession).
  pose proof (inv_wf _ (reachable_Inv evs)) as Hwf. fold s in Hwf.
  split; [|split; [|split]].
  - intros data path rest Hfs Ht Hlen Hf.
    set (response := set_id (req_id data) (new_SftpResponse (next_response s))).
    set (s0 := set_next_response (S (next_response s)) s).
    pose proof (opendir_body (S (total_tasks s)) data response path rest s0
                  Ht Hlen Hf eq_refl) as Hbody.
    assert (forall s3, processRequest_body (send (S (total_tasks s))) data response None s0
                       = (s3, Val tt) -> step s (EvMessage data) = s3) as Hstep.
    { intros s3. apply dispatch_unbound; [done| |]; by rewrite Ht. }
    change (nextHandle s0) with (nextHandle s) in Hbody.
    change (_handles s0) with (_handles s) in Hbody.
    destruct (scan _ _ _) as [h|] eqn:Hscan.
    + destruct (scan_free s h (wf_next _ Hwf) Hscan) as [Hh Hfree].
      rewrite call_eq in Hbody. rewrite (Hstep _ Hbody). done.
    + split; [by apply scan_full; [apply (wf_next _ Hwf)|]|]. by apply Hstep.
  - intros c response o hi e v Hc Hr Ho Hm. unfold step.
    rewrite (callback_step s c (KOpendir response o)); [|done|done].
    unfold try_catch. cbn [fs_err fs_value].
    rewrite (open_failed _ _ response o hi); [|by right| |done..].
    2:{ by apply (WF_ext s). }
    cbn. by rewrite <- app_assoc.
  - intros c response o e v Hc Hm.
    rewrite (open_failed_loudly s c (KOpendir response o) response o e v);
      [|done|by right|done].
    cbn. by rewrite <- app_assoc.
  - intros c response o hi handle Hc Hr Ho. unfold step.
    rewrite (callback_step s c (KOpendir response o)); [|done|done].
    unfold try_catch. cbn [fs_err fs_value].
    rewrite (handle_stored _ _ response o hi handle); [|by left|done..].
    cbn. by rewrite <- app_assoc.
Qed.

(** ** What [_process] does before [processRequest] *)

Lemma init_step s data version rest :
  req_type data = INIT -> req_fields data = FInt32 version :: rest ->
  step s (EvMessage data) =
  emit (ASend version_packet) (set_next_response (S (next_response s)) s).
Proof.
  intros Hi Hf. unfold step, step_res, on_message, try_catch, _process. msimpl.
  destruct (decide (req_type data = INIT)); [|done].
  unfold readInt32. rewrite Hf. msimpl.
  unfold writeInt32. rewrite write_ok by by vm_compute. msimpl.
  by rewrite send_unbound.
Qed.

Lemma reject_any s data n rest :
  handle_bound (req_type data) = true -> req_fields data = FInt32 n :: rest ->
  (n <> 4 \/ exists h rest', rest = FInt32 h :: rest' /\ _handles s !! h = None) ->
  step s (EvMessage data) =
  emit (ASend (status_packet (req_id data) FAILURE "Invalid handle"))
       (set_next_response (S (next_response s)) s).
Proof.
  intros Hb Hf [Hn|(h & rest' & -> & Hh)].
  - unfold step, step_res, on_message, try_catch, _process. msimpl.
    destruct (decide (req_type data = INIT)) as [Hi|_].
    { rewrite Hi in Hb. done. }
    rewrite Hb. unfold readHandleInfo, readInt32. rewrite Hf. msimpl.
    destruct (Z.eqb_spec n 4); [done|]. cbn [negb]. msimpl.
    by rewrite sendStatus_unbound by (done || by vm_compute).
  - destruct (decide (n = 4)) as [->|Hn].
    + by apply (reject_step s data h rest').
    + unfold step, step_res, on_message, try_catch, _process. msimpl.
      destruct (decide (req_type data = INIT)) as [Hi|_].
      { rewrite Hi in Hb. done. }
      rewrite Hb. unfold readHandleInfo, readInt32. rewrite Hf. msimpl.
      destruct (Z.eqb_spec n 4); [done|]. cbn [negb]. msimpl.
      by rewrite sendStatus_unbound by (done || by vm_compute).
Qed.

Lemma wait_step s data h rest o hi :
  handle_bound (req_type data) = true ->
  req_fields data = FInt32 4 :: FInt32 h :: rest ->
  _handles s !! h = Some o -> heap s !! o = Some hi -> hi_locked hi = true ->
  step s (EvMessage data) =
  set_heap
    (<[o := set_tasks
              (hi_tasks hi ++
                 [(advance (advance data 4 (FInt32 h :: rest)) 4 rest,
                   set_handleInfo o
                     (set_id (req_id data) (new_SftpResponse (next_response s))))]) hi]>
       (heap s))
    (set_next_response (S (next_response s)) s).
Proof.
  intros Hb Hf Hh Ho Hl.
  unfold step, step_res, on_message, try_catch, _process. msimpl.
  destruct (decide (req_type data = INIT)) as [Hi|_].
  { rewrite Hi in Hb. done. }
  rewrite Hb. rewrite (bind_val _ _ _ _ _ (readHandleInfo_read _ _ _ _ Hf)).
  change (_handles (set_next_response _ s)) with (_handles s). rewrite Hh.
  pose proof (Ho : heap (set_next_response (S (next_response s)) s) !! o = Some hi) as Ho1.
  rewrite (bind_val _ _ _ _ _ (deref_Some _ _ _ Ho1)). rewrite Hl. cbn [negb].
  by rewrite (update_Some _ _ _ _ Ho1).
Qed.

(** Once the filesystem reference is gone: a request on an idle handle
    takes the lock and that is all; a request without a handle does
    nothing. *)
Lemma lock_disposed s data h rest o hi :
  _fs s = false -> handle_bound (req_type data) = true ->
  req_fields data = FInt32 4 :: FInt32 h :: rest ->
  _handles s !! h = Some o -> heap s !! o = Some hi -> hi_locked hi = false ->
  step s (EvMessage data) =
  set_heap (<[o := set_locked true hi]> (heap s)) (set_next_response (S (next_response s)) s).
Proof.
  intros Hfs Hb Hf Hh Ho Hl.
  unfold step, step_res, on_message, try_catch, _process. msimpl.
  destruct (decide (req_type data = INIT)) as [Hi|_].
  { rewrite Hi in Hb. done. }
  rewrite Hb. rewrite (bind_val _ _ _ _ _ (readHandleInfo_read _ _ _ _ Hf)).
  change (_handles (set_next_response _ s)) with (_handles s). rewrite Hh.
  pose proof (Ho : heap (set_next_response (S (next_response s)) s) !! o = Some hi) as Ho1.
  rewrite (bind_val _ _ _ _ _ (deref_Some _ _ _ Ho1)). rewrite Hl. cbn [negb].
  rewrite (bind_val _ _ _ _ _ (update_Some _ _ _ _ Ho1)).
  by rewrite processRequest_disposed.
Qed.

Lemma drop_disposed s data :
  _fs s = false -> req_type data <> INIT -> handle_bound (req_type data) = false ->
  step s (EvMessage data) = set_next_response (S (next_response s)) s.
Proof.
  intros Hfs Hi Hb. unfold step, step_res, on_message, try_catch, _process. msimpl.
  destruct (decide (req_type data = INIT)); [done|]. rewrite Hb.
  by rewrite processRequest_disposed.
Qed.

(** C3 (as amended). Session teardown.  [end()] closes the channel; while
    the filesystem reference is held it submits the backend handle of every
    filled slot of the handle table to [close], in index order and with a
    callback that ignores the result, and drops the reference; handle table
    and handle infos stay as they are.  A second [end()] only closes the
    channel again.  After that [processRequest] returns at once, so a
    further message never reaches the backend.  What [_process] does before
    it calls [processRequest] still happens: INIT is answered with VERSION;
    a handle-bound request with a bad handle is answered with FAILURE
    "Invalid handle"; a request that names a handle still in the table
    takes the handle's lock when it is free, nothing being sent, and is
    appended to the handle's queue when it is not; any other request is
    dropped without an answer. *)
Theorem session_teardown (evs : list Event) :
  let s := run evs new_SftpServerSession in
  let s1 := step s EvEnd in
  _fs s1 = false /\ heap s1 = heap s /\ _handles s1 = _handles s /\
  trace s1 = trace s ++ AChannelClose ::
               (if _fs s then close_calls (next_call s) (open_slots s) else []) /\
  step s1 EvEnd = emit AChannelClose s1 /\
  (forall send request response handleInfo,
      processRequest send request response handleInfo s1 = (s1, Val tt)) /\
  (forall s2 data, _fs s2 = false ->
      exists acts,
        trace (step s2 (EvMessage data)) = trace s2 ++ acts /\
        Forall (fun a => is_call a = false) acts /\
        pending (step s2 (EvMessage data)) = pending s2 /\
        _fs (step s2 (EvMessage data)) = false) /\
  (forall s2 data, _fs s2 = false ->
      let s3 := step s2 (EvMessage data) in
      let arrived := set_next_response (S (next_response s2)) s2 in
      (forall version rest,
         req_type data = INIT -> req_fields data = FInt32 version :: rest ->
         s3 = emit (ASend version_packet) arrived) /\
      (forall n rest,
         handle_bound (req_type data) = true -> req_fields data = FInt32 n :: rest ->
         (n <> 4 \/ exists h rest', rest = FInt32 h :: rest' /\ _handles s2 !! h = None) ->
         s3 = emit (ASend (status_packet (req_id data) FAILURE "Invalid handle")) arrived) /\
      (forall h rest o hi,
         handle_bound (req_type data) = true ->
         req_fields data = FInt32 4 :: FInt32 h :: rest ->
         _handles s2 !! h = Some o -> heap s2 !! o = Some hi ->
         let request := advance (advance data 4 (FInt32 h :: rest)) 4 rest in
         let response :=
           set_handleInfo o (set_id (req_id data) (new_SftpResponse (next_response s2))) in
         s3 = set_heap
                (<[o := if hi_locked hi
                        then set_tasks (hi_tasks hi ++ [(request, response)]) hi
                        else set_locked true hi]> (heap s2)) arrived) /\
      (req_type data <> INIT -> handle_bound (req_type data) = false -> s3 = arrived)).
Proof.
  intros s s1.
  destruct (end_spec s (inv_wf _ (reachable_Inv evs))) as (s1' & Hend & Hfs & Hh & Ht & _ & Htr).
  assert (s1 = s1') as -> by (unfold s1, step, step_res; by rewrite Hend).
  split; [done|]. split; [done|]. split; [done|]. split; [done|]. split.
  { unfold step, step_res. by rewrite end_disposed. }
  split.
  { intros. by apply processRequest_disposed. }
  split.
  { intros s2 data Hfs2. by apply process_disposed. }
  intros s2 data Hfs2. cbv zeta. split; [|split; [|split]].
  - intros version rest Hi Hf. by apply (init_step s2 data version rest).
  - intros n rest Hb Hf Hn. by apply (reject_any s2 data n rest).
  - intros h rest o hi Hb Hf Hslot Ho. destruct (hi_locked hi) eqn:Hl.
    + by apply (wait_step s2 data h rest o hi).
    + by apply (lock_disposed s2 data h rest o hi).
  - intros Hi Hb. by apply drop_disposed.
Qed.

(** ** Oversize packets, from arrival to reply *)

(** A handler that sends first: the packet is the first thing added to the
    trace, also when the [catch] block takes over afterwards. *)
Lemma processRequest_sends fuel request response ow r s :
  _fs s = true ->
  processRequest_body (send fuel) request response ow s = send fuel r s ->
  exists acts,
    trace (processRequest (send fuel) request response ow s).1 =
    trace s ++ ASend (finish r) :: acts.
Proof.
  intros Hfs Hbody. unfold processRequest. msimpl. rewrite Hfs. cbn [negb].
  unfold try_catch. rewrite Hbody.
  destruct (send_emits_fuel fuel r s) as [acts Hacts].
  destruct (send fuel r s) as [s' [[]| |]]; cbn [fst] in *; [by exists acts| |by exists acts].
  destruct (fatal_acted (send fuel) response s' (send_emits_fuel fuel)) as (a & acts' & Ha).
  exists (acts ++ a :: acts'). rewrite Ha, Hacts. by rewrite <- app_assoc.
Qed.

(** C4 (as amended). Oversize packets.  Take a request with declared
    length above 66000 that arrives in a reachable state.
    (1) On an active session, a request other than INIT that carries no
        handle, or a handle that resolves to an idle handle info, is
        answered at once with BAD_MESSAGE "Packet too long"; no backend
        call is made and the session is otherwise as before (the handle is
        idle again), so it goes on with the next request.
    (2) A request that names a locked handle is queued.  When its task is
        run it is answered BAD_MESSAGE if the handle is still open and the
        session still active, FAILURE "Invalid handle" if the handle has
        been closed, and not at all if the session has ended.
    (3) An oversize INIT is still answered VERSION, and an oversize
        handle-bound request whose handle is invalid is still answered
        FAILURE "Invalid handle".
    (4) After [end()] a request other than INIT that carries no handle is
        not answered. *)
Theorem oversize_bad_message (evs : list Event) (data : SftpPacketReader) :
  let s := run evs new_SftpServerSession in
  req_length data > 66000 ->
  let s1 := step s (EvMessage data) in
  let arrived := set_next_response (S (next_response s)) s in
  let bad := ASend (status_packet (req_id data) BAD_MESSAGE "Packet too long") in
  (_fs s = true -> req_type data <> INIT -> handle_bound (req_type data) = false ->
   s1 = emit bad arrived) /\
  (forall h rest o hi,
     _fs s = true -> handle_bound (req_type data) = true ->
     req_fields data = FInt32 4 :: FInt32 h :: rest ->
     _handles s !! h = Some o -> heap s !! o = Some hi -> hi_locked hi = false ->
     s1 = emit bad arrived) /\
  (forall h rest o hi,
     handle_bound (req_type data) = true ->
     req_fields data = FInt32 4 :: FInt32 h :: rest ->
     _handles s !! h = Some o -> heap s !! o = Some hi -> hi_locked hi = true ->
     let request := advance (advance data 4 (FInt32 h :: rest)) 4 rest in
     let response :=
       set_handleInfo o (set_id (req_id data) (new_SftpResponse (next_response s))) in
     s1 = set_heap (<[o := set_tasks (hi_tasks hi ++ [(request, response)]) hi]> (heap s))
            arrived /\
     forall fuel s' hi',
       heap s' !! o = Some hi' ->
       let out := run_task (send fuel) o (request, response) s' in
       (0 <= hi_h hi' -> _fs s' = true ->
        exists acts, trace out.1 = trace s' ++ bad :: acts) /\
       (hi_h hi' < 0 ->
        exists acts,
          trace out.1 = trace s' ++
            ASend (status_packet (req_id data) FAILURE "Invalid handle") :: acts) /\
       (0 <= hi_h hi' -> _fs s' = false -> out = (s', Val tt))) /\
  (forall version rest,
     req_type data = INIT -> req_fields data = FInt32 version :: rest ->
     s1 = emit (ASend version_packet) arrived) /\
  (forall n rest,
     handle_bound (req_type data) = true -> req_fields data = FInt32 n :: rest ->
     (n <> 4 \/ exists h rest', rest = FInt32 h :: rest' /\ _handles s !! h = None) ->
     s1 = emit (ASend (status_packet (req_id data) FAILURE "Invalid handle")) arrived) /\
  (_fs s = false -> req_type data <> INIT -> handle_bound (req_type data) = false ->
   s1 = arrived).
Proof.
  cbv zeta. set (s := run evs new_SftpServerSession). intros Hlen.
  pose proof (reachable_Inv evs) as HI. fold s in HI.
  split; [|split; [|split; [|split; [|split]]]].
  - intros Hfs Hi Hb. apply dispatch_unbound; [done..|].
    rewrite oversize_body by done. by rewrite send_unbound.
  - intros h rest o hi Hfs Hb Hf Hslot Ho Hl.
    apply (dispatch_idle s data h rest o hi); [done..|].
    rewrite oversize_body by done.
    rewrite (complete_idle _ _ o (set_locked true hi));
      [| done | by apply (heap_insert_eq _ _ hi) | by apply (inv_idle _ HI _ _ Ho Hl)].
    cbn [set_heap emit heap]. rewrite list_insert_insert_eq.
    rewrite set_locked_round by done. rewrite list_insert_id by done.
    rewrite finish_status. by destruct s.
  - intros h rest o hi Hb Hf Hslot Ho Hl. split; [by apply (wait_step s data h rest o hi)|].
    intros fuel s' hi' Ho'. unfold run_task.
    rewrite (bind_val _ _ _ _ _ (deref_Some _ _ _ Ho')).
    split; [|split].
    + intros Hlive Hfs. destruct (Z.ltb_spec (hi_h hi') 0); [lia|].
      apply (processRequest_sends _ _ _ _
               (status_response
                  (set_handleInfo o (set_id (req_id data) (new_SftpResponse (next_response s))))
                  BAD_MESSAGE "Packet too long")); [done|].
      by apply oversize_body.
    + intros Hdead. destruct (Z.ltb_spec (hi_h hi') 0); [|lia].
      unfold sendStatus. rewrite SftpStatus_write_ok by by vm_compute. msimpl.
      apply (send_emits_fuel fuel
               (status_response
                  (set_handleInfo o (set_id (req_id data) (new_SftpResponse (next_response s))))
                  FAILURE "Invalid handle")).
    + intros Hlive Hfs. destruct (Z.ltb_spec (hi_h hi') 0); [lia|].
      by apply processRequest_disposed.
  - intros version rest Hi Hf. by apply (init_step s data version rest).
  - intros n rest Hb Hf Hn. by apply (reject_any s data n rest).
  - intros Hfs Hi Hb. by apply drop_disposed.
Qed.

End Properties.

(** * Worked examples

    The theorems above at the sample session. *)

#[local] Existing Instance sample.


(** Errno -2 is NO_SUCH_FILE. *)
Lemma errno_mapping_witness :
  exn_errno (new_SftpException (errno_error (-2))) = -2 /\
  exn_code (new_SftpException (errno_error (-2))) = NO_SUCH_FILE.
Proof.
  destruct (errno_mapping (errno_error (-2))) as (_ & W1 & W2).
  split.
  - apply W2; [reflexivity | lia].
  - exact (f_equal fst W1).
Defined.


(** C8. The index handed to the client is not always within 1..512: a CLOSE
    that names slot 1 while the backend is still opening the file removes
    the entry (its [h] becomes -1), and the HANDLE reply that follows the
    backend's answer carries that -1. *)
Theorem handle_index_race :
  trace (run close_before_open_completes new_SftpServerSession) !! 3%nat =
  Some (ASend (handle_packet (Some 1) (-1))).
Proof. vm_compute. reflexivity. Qed.

(** After [end()] an INIT is still answered, and a request on a handle that
    is still in the table takes the handle's lock, which nothing releases. *)
Lemma process_after_end_acts :
  let s := run [EvEnd] new_SftpServerSession in
  let s2 := run (one_open ++ [EvEnd]) new_SftpServerSession in
  let read := EvMessage (packet READ 2 [FInt32 4; FInt32 1; FInt64 0; FInt32 4]) in
  _fs s = false /\
  trace (step s (EvMessage (init_packet 9))) = trace s ++ [ASend version_packet] /\
  _fs s2 = false /\
  heap s2 !! 0%nat = Some open_info /\
  heap (step s2 read) !! 0%nat = Some (set_locked true open_info).
Proof. vm_compute. repeat split; reflexivity. Qed.

(** An oversize INIT is answered VERSION, an oversize request naming an
    unknown handle is answered FAILURE, and after [end()] an oversize STAT
    is not answered at all. *)
Lemma oversize_other_answers :
  trace (step new_SftpServerSession (EvMessage (init_packet 70000))) =
    [ASend version_packet] /\
  trace (step new_SftpServerSession
           (EvMessage (packet_of_length 70000 CLOSE 5 [FInt32 4; FInt32 1]))) =
    [ASend (status_packet (Some 5) FAILURE "Invalid handle")] /\
  trace (step (run [EvEnd] new_SftpServerSession)
           (EvMessage (packet_of_length 70000 STAT 7 [FString "/a"]))) =
    [AChannelClose].
Proof. vm_compute. repeat split; reflexivity. Qed.


(** A backend error whose mapped message does not fit the response buffer:
    the OPEN is not answered (writing the status throws, the exception
    leaves the backend's callback) and the handle stays in the table. *)
Lemma open_error_unanswered :
  let s := run open_fails_loudly new_SftpServerSession in
  string_size (exn_message (new_SftpException loud_error)) > capacity /\
  forallb (fun a => match a with ASend _ => false | _ => true end) (trace s) = true /\
  last (trace s) = Some AUncaught /\
  _handles s !! 1 = Some 0%nat /\
  hi_h <$> heap s !! 0%nat = Some 1.
Proof. vm_compute. repeat split; reflexivity. Qed.


(** An errno outside the 32-bit range that is not in the table: it is
    mapped like the errno it wraps to, here 1. *)
Lemma errno_outside_int32 :
  let err := errno_error 4294967297 in
  table_lookup 4294967297 status_table = None /\
  err_isPublic err = false /\
  exn_code (new_SftpException err) = EOF /\
  exn_message (new_SftpException err) = "End of file"%string.
Proof. vm_compute. repeat split; reflexivity. Qed.

(** OPEN for writing, from request to reply: the exclusive create
    succeeds, its descriptor is closed, the file is opened again for
    writing, and the index of the handle goes out. *)
Lemma open_fallback_witness :
  let response := set_id (Some 1) (new_SftpResponse 0) in
  let s1 := run [EvMessage open_wx] new_SftpServerSession in
  let s2 := step s1 (EvCallback 0 (succeeded (VHandle 7))) in
  let s3 := step s2 (EvCallback 1 (succeeded VNone)) in
  let s4 := step s3 (EvCallback 2 (succeeded (VHandle 8))) in
  trace s1 =
    [ACall 0 (FsOpen "/a" (Some "wx"%string) no_attrs)
       (KOpen response "/a" no_attrs ["w"%string] 0)] /\
  trace s2 = trace s1 ++
    [ADone 0 (succeeded (VHandle 7));
     ACall 1 (FsClose (Some 7)) (KOpenClose response "/a" no_attrs ["w"%string] 0)] /\
  trace s3 = trace s2 ++
    [ADone 1 (succeeded VNone);
     ACall 2 (FsOpen "/a" (Some "w"%string) no_attrs) (KOpen response "/a" no_attrs [] 0)] /\
  trace s4 = trace s3 ++
    [ADone 2 (succeeded (VHandle 8)); ASend (handle_packet (Some 1) 1)] /\
  heap s4 = [set_handle (Some 8) (new_SftpHandleInfo 1)].
Proof.
  pose proof (open_fallback []) as W. cbv zeta in W. destruct W as (W & _).
  specialize (W open_wx "/a"%string 26 no_attrs [] eq_refl eq_refl
                ltac:(vm_compute; discriminate) eq_refl).
  pose proof (open_fallback [EvMessage open_wx]) as V. cbv zeta in V.
  destruct V as (_ & _ & _ & V & _).
  specialize (V 0%nat (set_id (Some 1) (new_SftpResponse 0)) "/a"%string no_attrs
                "w"%string [] 0%nat 7 ltac:(vm_compute; reflexivity)).
  pose proof (open_fallback [EvMessage open_wx; EvCallback 0 (succeeded (VHandle 7))]) as U.
  cbv zeta in U. destruct U as (_ & _ & _ & _ & U & _).
  specialize (U 1%nat (set_id (Some 1) (new_SftpResponse 0)) "/a"%string no_attrs
                "w"%string [] 0%nat VNone ltac:(vm_compute; reflexivity)).
  pose proof (open_fallback [EvMessage open_wx; EvCallback 0 (succeeded (VHandle 7));
                             EvCallback 1 (succeeded VNone)]) as T.
  cbv zeta in T. destruct T as (_ & _ & _ & _ & _ & T).
  specialize (T 2%nat (set_id (Some 1) (new_SftpResponse 0)) "/a"%string no_attrs
                0%nat (new_SftpHandleInfo 1) 8 ltac:(vm_compute; reflexivity) eq_refl
                ltac:(vm_compute; reflexivity)).
  vm_compute in W, V, U, T. vm_compute.
  split; [exact (proj1 (proj2 (proj2 W)))|]. split; [exact (proj1 V)|].
  split; [exact (proj1 U)|]. split; [exact (proj1 T)|exact (proj2 (proj2 (proj2 T)))].
Defined.

(** [end()] with one open file: its backend handle is closed; a READ on
    the file that arrives afterwards takes the lock and is not answered. *)
Lemma session_teardown_witness :
  let s := run one_open new_SftpServerSession in
  let s1 := step s EvEnd in
  let read := packet READ 2 [FInt32 4; FInt32 1; FInt64 0; FInt32 4] in
  _fs s1 = false /\
  trace s1 = trace s ++ [AChannelClose; ACall 1 (FsClose (Some 77)) KIgnore] /\
  step s1 (EvMessage read) =
    set_heap [set_locked true open_info] (set_next_response 2 s1).
Proof.
  pose proof (session_teardown one_open) as W. cbv zeta in W.
  destruct W as (W1 & _ & _ & W2 & _ & _ & _ & W3).
  cbv zeta. split; [exact W1|]. split.
  - rewrite W2. vm_compute. reflexivity.
  - destruct (W3 (step (run one_open new_SftpServerSession) EvEnd)
                (packet READ 2 [FInt32 4; FInt32 1; FInt64 0; FInt32 4]) W1)
      as (_ & _ & W4 & _).
    refine (eq_trans (W4 1 [FInt64 0; FInt32 4] 0%nat open_info eq_refl eq_refl _ _) _).
    + vm_compute. reflexivity.
    + vm_compute. reflexivity.
    + vm_compute. reflexivity.
Defined.

(** An oversize READ on the open file: answered at once when the handle is
    idle. *)
Lemma oversize_bad_message_witness :
  step (run one_open new_SftpServerSession)
       (EvMessage (packet_of_length 70000 READ 2 [FInt32 4; FInt32 1; FInt64 0; FInt32 4])) =
  emit (ASend (status_packet (Some 2) BAD_MESSAGE "Packet too long"))
       (set_next_response 2 (run one_open new_SftpServerSession)).
Proof.
  pose proof (oversize_bad_message one_open
                (packet_of_length 70000 READ 2 [FInt32 4; FInt32 1; FInt64 0; FInt32 4]))
    as W.
  cbv zeta in W. destruct W as (_ & W & _); [reflexivity|].
  refine (eq_trans (W 1 [FInt64 0; FInt32 4] 0%nat open_info _ eq_refl eq_refl _ _ eq_refl) _).
  - vm_compute. reflexivity.
  - vm_compute. reflexivity.
  - vm_compute. reflexivity.
  - vm_compute. reflexivity.
Defined.

(** A CLOSE that names the empty slot 2 and a READ whose handle has
    length 8, while the open file is locked by a READ in flight and a
    second READ waits in its queue: both are rejected, lock and queue of
    the file stay as they are. *)
Lemma invalid_handle_frame_witness :
  let s := run waiting new_SftpServerSession in
  let s' := step s (EvMessage (packet CLOSE 5 [FInt32 4; FInt32 2])) in
  let s'' := step s (EvMessage (packet READ 6 [FInt32 8; FInt64 1])) in
  hi_locked <$> heap s !! 0%nat = Some true /\
  length ∘ hi_tasks <$> heap s !! 0%nat = Some 1%nat /\
  heap s' = heap s /\ _handles s' = _handles s /\ pending s' = pending s /\
  trace s' = trace s ++ [ASend (status_packet (Some 5) FAILURE "Invalid handle")] /\
  heap s'' = heap s /\ _handles s'' = _handles s /\ pending s'' = pending s /\
  trace s'' = trace s ++ [ASend (status_packet (Some 6) FAILURE "Invalid handle")].
Proof.
  pose proof (invalid_handle_frame (run waiting new_SftpServerSession)
                (packet CLOSE 5 [FInt32 4; FInt32 2]) 4 [FInt32 2]
                eq_refl eq_refl) as W.
  pose proof (invalid_handle_frame (run waiting new_SftpServerSession)
                (packet READ 6 [FInt32 8; FInt64 1]) 8 [FInt64 1]
                eq_refl eq_refl) as V.
  cbv zeta in W, V |- *.
  destruct W as (W1 & W2 & W3 & _ & _ & _ & W4).
  { right. exists 2, []. split; [reflexivity | vm_compute; reflexivity]. }
  destruct V as (V1 & V2 & V3 & _ & _ & _ & V4).
  { left. discriminate. }
  split; [vm_compute; reflexivity|]. split; [vm_compute; reflexivity|].
  split; [exact W1|]. split; [exact W2|]. split; [exact W3|]. split; [exact W4|].
  split; [exact V1|]. split; [exact V2|]. split; [exact V3|exact V4].
Defined.

(** A READ of 40000 bytes on the open file asks the backend for 0x8000
    bytes at offset 13 of response 1; 100 bytes read go out as a DATA
    packet, no bytes read as the status EOF. *)
Lemma read_behaviour_witness :
  let s := run one_open new_SftpServerSession in
  let response := set_handleInfo 0 (set_id (Some 2) (new_SftpResponse 1)) in
  let s1 := step s (EvMessage (packet READ 2 [FInt32 4; FInt32 1; FInt64 0; FInt32 40000])) in
  trace s1 = trace s ++
    [ACall 1 (FsRead (Some 77) 1 13 0x8000 0) (KRead (start (set_type DATA response)))] /\
  trace (step s1 (EvCallback 1 (succeeded (VBytesRead 100)))) = trace s1 ++
    [ADone 1 (succeeded (VBytesRead 100)); ASend (data_packet (Some 2) 100)] /\
  trace (step s1 (EvCallback 1 (succeeded (VBytesRead 0)))) = trace s1 ++
    [ADone 1 (succeeded (VBytesRead 0)); ASend (status_packet (Some 2) EOF "EOF")].
Proof.
  pose proof (read_behaviour one_open
                (packet READ 2 [FInt32 4; FInt32 1; FInt64 0; FInt32 40000])
                1 0 40000 [] 0 open_info) as W.
  cbv zeta in W. destruct W as (_ & _ & W1 & _ & _ & W2 & _).
  - vm_compute. reflexivity.
  - reflexivity.
  - vm_compute. discriminate.
  - reflexivity.
  - vm_compute. reflexivity.
  - vm_compute. reflexivity.
  - reflexivity.
  - cbv zeta. split; [exact W1|]. split.
    + destruct (W2 100) as (W3 & _); [vm_compute; split; discriminate|exact W3].
    + destruct (W2 0) as (W3 & _); [vm_compute; split; discriminate|exact W3].
Defined.


(** On a fresh session the first allocation takes slot 1. *)
Lemma allocation_scans_from_cursor_witness :
  (exists h k,
      (k < 512)%nat /\ h = Nat.iter k next_slot 1 /\
      1 <= h <= MAX_HANDLE_COUNT /\ _handles new_SftpServerSession !! h = None /\
      (forall j, (j < k)%nat ->
         is_Some (_handles new_SftpServerSession !! Nat.iter j next_slot 1)) /\
      createHandleInfo new_SftpServerSession =
        (set_nextHandle (next_slot h)
           (set_handles (<[h := 0%nat]> ∅)
              (set_heap [new_SftpHandleInfo h] new_SftpServerSession)),
         Val (Some 0%nat)))
  \/ ((forall x, 1 <= x <= MAX_HANDLE_COUNT ->
         is_Some (_handles new_SftpServerSession !! x)) /\
      createHandleInfo new_SftpServerSession = (new_SftpServerSession, Val None)).
Proof.
  apply (allocation_scans_from_cursor new_SftpServerSession). vm_compute. split; discriminate.
Defined.

(** With one file open, a second handle is allocated and freed again. *)
Lemma allocate_then_free_witness :
  exists h s2,
    1 <= h <= MAX_HANDLE_COUNT /\
    _handles (run one_open new_SftpServerSession) !! h = None /\
    deleteHandleInfo 1 (createHandleInfo (run one_open new_SftpServerSession)).1
      = (s2, Val tt) /\
    _handles s2 = _handles (run one_open new_SftpServerSession) /\
    nextHandle s2 = next_slot h.
Proof.
  destruct (allocate_then_free one_open
              (createHandleInfo (run one_open new_SftpServerSession)).1 1)
    as (h & s2 & W1 & W2 & _ & W3 & W4 & _ & W5 & _).
  - vm_compute. reflexivity.
  - exists h, s2. split; [exact W1|]. split; [exact W2|]. split; [exact W3|].
    split; [exact W4 | exact W5].
Defined.

(** Freeing the handle of the open file. *)
Lemma deleteHandleInfo_total_witness :
  exists s',
    deleteHandleInfo 0 (run one_open new_SftpServerSession) = (s', Val tt) /\
    heap s' !! 0%nat = Some (set_h (-1) open_info) /\
    _handles s' !! 1 = None /\
    deleteHandleInfo 0 s' = (s', Val tt).
Proof.
  destruct (deleteHandleInfo_total one_open 0 open_info) as (s' & W1 & W2 & W3 & W4).
  - vm_compute. reflexivity.
  - exists s'. split; [exact W1|]. split; [exact W2|]. split; [exact (W3 1) | exact W4].
Defined.

(** A client that sends a STATUS packet as a request. *)
Lemma unsupported_request_witness :
  step new_SftpServerSession (EvMessage (packet STATUS 9 [])) =
  emit (ASend (status_packet (Some 9) OP_UNSUPPORTED "Not supported"))
       (set_next_response 1 new_SftpServerSession).
Proof.
  apply (unsupported_request new_SftpServerSession (packet STATUS 9 []));
    [reflexivity | discriminate | reflexivity].
Defined.

(** An INIT that announces version 3. *)
Lemma init_version_witness :
  step new_SftpServerSession (EvMessage (init_packet 9)) =
  emit (ASend version_packet) (set_next_response 1 new_SftpServerSession).
Proof.
  apply (init_version new_SftpServerSession (init_packet 9) 3 []); reflexivity.
Defined.

(** Closing the open file, then reading from its index. *)
Lemma close_invalidates_witness :
  let s := run one_open new_SftpServerSession in
  let s' := step s (EvMessage (packet CLOSE 2 [FInt32 4; FInt32 1])) in
  _handles s' = delete 1 (_handles s) /\
  step s' (EvMessage (packet READ 3 [FInt32 4; FInt32 1; FInt64 0; FInt32 4])) =
  emit (ASend (status_packet (Some 3) FAILURE "Invalid handle"))
       (set_next_response (S (next_response s')) s').
Proof.
  destruct (close_invalidates one_open (packet CLOSE 2 [FInt32 4; FInt32 1]) 1 [] 0 open_info)
    as (_ & _ & W1 & _ & W2).
  - vm_compute. reflexivity.
  - reflexivity.
  - vm_compute. discriminate.
  - reflexivity.
  - vm_compute. reflexivity.
  - vm_compute. reflexivity.
  - reflexivity.
  - split; [exact W1|].
    apply (W2 (packet READ 3 [FInt32 4; FInt32 1; FInt64 0; FInt32 4]) [FInt64 0; FInt32 4]);
      reflexivity.
Defined.

(** The backend has closed the file: the answer to the CLOSE is followed
    by the rejection of the READ queued behind it. *)
Lemma tombstone_drain_witness :
  let s := run closing new_SftpServerSession in
  trace (send 2 closing_response s).1 =
  trace s ++ [ASend (finish closing_response);
              ASend (status_packet (Some 4) FAILURE "Invalid handle")] /\
  hi_locked <$> heap (send 2 closing_response s).1 !! 0%nat = Some false.
Proof.
  cbv zeta.
  rewrite (tombstone_drain 2 closing_response 0 closing_info (run closing new_SftpServerSession)).
  - split; [reflexivity|]. vm_compute. reflexivity.
  - reflexivity.
  - vm_compute. reflexivity.
  - reflexivity.
  - repeat constructor.
  - cbn. lia.
Defined.

(** A second READ while the first is with the backend. *)
Lemma queue_when_locked_witness :
  let s := run reading new_SftpServerSession in
  let s' := step s (EvMessage (packet READ 3 [FInt32 4; FInt32 1; FInt64 4; FInt32 4])) in
  trace s' = trace s /\ pending s' = pending s /\
  length <$> (hi_tasks <$> heap s' !! 0%nat) = Some 1%nat.
Proof.
  cbv zeta.
  rewrite (queue_when_locked (run reading new_SftpServerSession)
             (packet READ 3 [FInt32 4; FInt32 1; FInt64 4; FInt32 4])
             1 [FInt64 4; FInt32 4] 0 reading_info).
  - split; [vm_compute; reflexivity|]. split; [vm_compute; reflexivity|].
    vm_compute. reflexivity.
  - reflexivity.
  - reflexivity.
  - vm_compute. reflexivity.
  - vm_compute. reflexivity.
  - reflexivity.
Defined.

(** OPENDIR while a file is open: slot 2 is filled and the backend is
    asked to open the directory.  When the backend reports that there is
    no such directory the mapped status goes out and slot 2 is free again;
    when it reports success the index 2 goes out. *)
Lemma opendir_behaviour_witness :
  let s := run one_open new_SftpServerSession in
  let response := set_id (Some 2) (new_SftpResponse 1) in
  let s1 := step s (EvMessage (packet OPENDIR 2 [FString "/d"])) in
  let s2 := step s1 (EvCallback 1 (failed (-2))) in
  let s3 := step s1 (EvCallback 1 (succeeded (VHandle 5))) in
  trace s1 = trace s ++ [ACall 1 (FsOpendir "/d") (KOpendir response 1)] /\
  _handles s1 = <[2 := 1%nat]> (_handles s) /\
  trace s2 = trace s1 ++
    [ADone 1 (failed (-2));
     ASend (status_packet (Some 2) NO_SUCH_FILE "No such file or directory")] /\
  _handles s2 = delete 2 (_handles s1) /\
  trace s3 = trace s1 ++
    [ADone 1 (succeeded (VHandle 5)); ASend (handle_packet (Some 2) 2)] /\
  heap s3 = [open_info; set_handle (Some 5) (new_SftpHandleInfo 2)].
Proof.
  pose proof (opendir_behaviour one_open) as W. cbv zeta in W. destruct W as (W & _).
  specialize (W (packet OPENDIR 2 [FString "/d"]) "/d"%string []
                ltac:(vm_compute; reflexivity) eq_refl ltac:(vm_compute; discriminate)
                eq_refl).
  pose proof (opendir_behaviour (one_open ++ [EvMessage (packet OPENDIR 2 [FString "/d"])]))
    as V.
  cbv zeta in V. destruct V as (_ & V1 & _ & V2).
  specialize (V1 1%nat (set_id (Some 2) (new_SftpResponse 1)) 1%nat (new_SftpHandleInfo 2)
                (errno_error (-2)) VNone ltac:(vm_compute; reflexivity) eq_refl
                ltac:(vm_compute; reflexivity) ltac:(vm_compute; discriminate)).
  specialize (V2 1%nat (set_id (Some 2) (new_SftpResponse 1)) 1%nat (new_SftpHandleInfo 2) 5
                ltac:(vm_compute; reflexivity) eq_refl ltac:(vm_compute; reflexivity)).
  vm_compute in W, V1, V2. vm_compute.
  destruct W as (_ & _ & W1 & _ & W2 & _).
  destruct V1 as (V1 & _ & V3 & _).
  destruct V2 as (V2 & _ & _ & V4).
  split; [exact W1|]. split; [exact W2|]. split; [exact V1|]. split; [exact V3|].
  split; [exact V2|exact V4].
Defined.

(** The backend has opened the directory: index 1 goes out and resolves. *)
Lemma handle_resolves_witness :
  let s := run opening_dir new_SftpServerSession in
  exists s',
    resume (send 1) (KOpendir opendir_response 0) None (VHandle 5) s = (s', Val tt) /\
    trace s' = trace s ++ [ASend (handle_packet (Some 1) 1)] /\
    exists request',
      readHandleInfo (packet FSTAT 2 [FInt32 4; FInt32 1]) s' = (s', Val (Some 0%nat, request')).
Proof.
  cbv zeta.
  destruct (handle_resolves opening_dir 1 (KOpendir opendir_response 0) opendir_response 0
              (new_SftpHandleInfo 1) 5) as (s' & W1 & W2 & _ & [W3|[_ W3]]).
  - by left.
  - reflexivity.
  - vm_compute. reflexivity.
  - discriminate W3.
  - exists s'. split; [exact W1|]. split; [exact W2|].
    apply (W3 (packet FSTAT 2 [FInt32 4; FInt32 1]) []). reflexivity.
Defined.

(** REALPATH of "." resolved to "/home". *)
Lemma path_round_trip_witness :
  let s := new_SftpServerSession in
  let answer := {| fs_err := None; fs_value := VPath "/home" |} in
  trace (run [EvMessage (packet REALPATH 3 [FString "."]); EvCallback 0 answer] s) =
  [ACall 0 (FsRealpath ".") (KPath (set_id (Some 3) (new_SftpResponse 0)));
   ADone 0 answer;
   ASend (path_packet (Some 3) "/home")].
Proof.
  destruct (path_round_trip [] (packet REALPATH 3 [FString "."]) "." "/home" [])
    as (W & _).
  - reflexivity.
  - vm_compute. discriminate.
  - by left.
  - reflexivity.
  - vm_compute. discriminate.
  - exact W.
Defined.

(** STAT of a path: one call into the backend. *)
Lemma path_request_outcome_witness :
  let s := new_SftpServerSession in
  let data := packet STAT 3 [FString "/a"] in
  (exists op k, kresponse k = Some (set_id (Some 3) (new_SftpResponse 0)) /\
                step s (EvMessage data) = (call op k (set_next_response 1 s)).1) \/
  step s (EvMessage data) =
    emit (ASend (status_packet (Some 3) FAILURE "Internal server error"))
         (set_next_response 1 s).
Proof.
  apply (path_request_outcome new_SftpServerSession (packet STAT 3 [FString "/a"]));
    [reflexivity | vm_compute; discriminate | reflexivity].
Defined.

(** FSTAT on the open file, answered with an empty attribute block. *)
Lemma fstat_round_trip_witness :
  let s := run one_open new_SftpServerSession in
  let answer := {| fs_err := None; fs_value := VStats no_attrs |} in
  let s2 := run [EvMessage (packet FSTAT 2 [FInt32 4; FInt32 1]); EvCallback 1 answer] s in
  trace s2 = trace s ++
    [ACall 1 (FsFstat (Some 77))
       (KAttribs (set_handleInfo 0 (set_id (Some 2) (new_SftpResponse 1))));
     ADone 1 answer; ASend (attrs_packet (Some 2) no_attrs)] /\
  heap s2 = heap s.
Proof.
  destruct (fstat_round_trip one_open (packet FSTAT 2 [FInt32 4; FInt32 1]) 1 [] 0 open_info)
    as (W1 & _ & W2 & _).
  - vm_compute. reflexivity.
  - reflexivity.
  - vm_compute. discriminate.
  - reflexivity.
  - vm_compute. reflexivity.
  - vm_compute. reflexivity.
  - reflexivity.
  - destruct (W2 no_attrs) as (W3 & W4 & _). cbv zeta. cbn [run foldl].
    split; [|exact W4]. refine (eq_trans W3 _). rewrite W1. by rewrite <- app_assoc.
Defined.

(** WRITE of three bytes to the open file. *)
Lemma write_round_trip_witness :
  let s := run one_open new_SftpServerSession in
  let data := packet WRITE 2 [FInt32 4; FInt32 1; FInt64 0; FInt32 3; FData 3] in
  let answer := {| fs_err := None; fs_value := VNone |} in
  trace (step s (EvMessage data)) = trace s ++
    [ACall 1 (FsWrite (Some 77) 29 3 0)
       (KSuccess (set_handleInfo 0 (set_id (Some 2) (new_SftpResponse 1))))] /\
  heap (step (step s (EvMessage data)) (EvCallback 1 answer)) = heap s.
Proof.
  destruct (write_round_trip one_open
              (packet WRITE 2 [FInt32 4; FInt32 1; FInt64 0; FInt32 3; FData 3])
              1 0 3 [FData 3] 0 open_info) as (W1 & _ & _ & W2 & _).
  - vm_compute. reflexivity.
  - reflexivity.
  - vm_compute. discriminate.
  - reflexivity.
  - vm_compute. discriminate.
  - vm_compute. reflexivity.
  - vm_compute. reflexivity.
  - reflexivity.
  - split; [exact W1 | exact W2].
Defined.

(** An OPEN on a fresh session has an effect. *)
Lemma request_not_dropped_witness :
  acted new_SftpServerSession (step new_SftpServerSession (EvMessage open_a)) \/
  exists h rest o hi,
    req_fields open_a = FInt32 4 :: FInt32 h :: rest /\
    _handles new_SftpServerSession !! h = Some o /\
    heap new_SftpServerSession !! o = Some hi /\ hi_locked hi = true /\
    exists task,
      heap (step new_SftpServerSession (EvMessage open_a)) !! o =
      Some (set_tasks (hi_tasks hi ++ [task]) hi).
Proof. apply (request_not_dropped new_SftpServerSession open_a). reflexivity. Defined.

(** The answer to the OPEN has an effect. *)
Lemma answer_not_dropped_witness :
  let s := run [EvMessage open_a] new_SftpServerSession in
  exists a acts,
    trace (step s (EvCallback 0 (succeeded (VHandle 77)))) =
    trace s ++ ADone 0 (succeeded (VHandle 77)) :: a :: acts.
Proof.
  apply (answer_not_dropped (run [EvMessage open_a] new_SftpServerSession) 0
           (KOpen (set_id (Some 1) (new_SftpResponse 0)) "/a" no_attrs [] 0)
           (succeeded (VHandle 77))).
  - vm_compute. reflexivity.
  - discriminate.
  - reflexivity.
Defined.
